(** * CellTypist: gene alignment, scoring, majority voting and model download

    A shallow embedding of [celltypist/classifier.py] and
    [celltypist/models.py].  Arrays are lists (a matrix is the list of its
    rows, one row per cell), gene and class names are strings, Python
    exceptions are values of [exn], and the objects that the code mutates
    (the classifier's input data, the shared model, the log) are threaded
    through a state-and-exception monad. *)

From Stdlib Require Import PrimFloat.
From Stdlib Require Import List String Ascii Bool Arith ZArith Lia Permutation.
From Stdlib Require Import Reals Lra Sorted.
From Stdlib Require OrderedTypeEx.
Import ListNotations.

Set Implicit Arguments.

(** A decimal literal of a float stands for the nearest binary64 value, as
    it does in Python. *)
Set Warnings "-inexact-float".

(** ** Exceptions and results *)

Inductive exn : Type :=
| IndexError
| KeyError (key : string)
| ValueError (msg : string)
| NameError (name : string)
| ConnectionError (url : string).

Inductive result (A : Type) : Type :=
| Ok (a : A)
| Raise (e : exn).

Arguments Ok {A} a.
Arguments Raise {A} e.

Definition rbind {A B} (r : result A) (k : A -> result B) : result B :=
  match r with
  | Ok a => k a
  | Raise e => Raise e
  end.

Declare Scope result_scope.
Delimit Scope result_scope with result.
Notation "'try!' x '<-' r 'in' k" := (rbind r (fun x => k))
  (at level 10, x pattern, r at level 100, k at level 200) : result_scope.
Open Scope result_scope.

Fixpoint rmap {A B} (f : A -> result B) (l : list A) : result (list B) :=
  match l with
  | [] => Ok []
  | a :: l' =>
      try! b <- f a in
      try! bs <- rmap f l' in
      Ok (b :: bs)
  end.

(** ** The array operations the code takes from numpy and pandas *)

Module Np.

(** [np.isin(xs, ys)]: for each element of [xs], whether it occurs in [ys]. *)
Definition isin (xs ys : list string) : list bool :=
  map (fun x => existsb (String.eqb x) ys) xs.

(** [np.where(mask)[0]]: the positions holding [True], ascending. *)
Fixpoint where_from (i : nat) (mask : list bool) : list nat :=
  match mask with
  | [] => []
  | b :: mask' =>
      if b then i :: where_from (S i) mask' else where_from (S i) mask'
  end.

Definition where_ (mask : list bool) : list nat := where_from 0 mask.

(** [mask.sum()] *)
Definition sum_mask (mask : list bool) : nat :=
  List.length (List.filter (fun b => b) mask).

(** [a[i]] for a non-negative [i]; out of range raises [IndexError]. *)
Definition item {A} (a : list A) (i : nat) : result A :=
  match nth_error a i with
  | Some x => Ok x
  | None => Raise IndexError
  end.

(** [a[idx]] for an integer index array [idx]. *)
Definition take {A} (a : list A) (idx : list nat) : result (list A) :=
  rmap (item a) idx.

(** [m[:, idx]]: the same columns of every row. *)
Definition take_cols {A} (m : list (list A)) (idx : list nat)
  : result (list (list A)) :=
  rmap (fun row => take row idx) m.

(** Elementwise binary operation of the rows of a matrix with a vector,
    with numpy's broadcasting of the trailing axis: equal lengths pair up,
    a length-one operand is stretched, anything else is a [ValueError]. *)
Definition broadcast_row {A} (f : A -> A -> A) (row v : list A)
  : result (list A) :=
  if Nat.eqb (List.length row) (List.length v)
  then Ok (map (fun p => f (fst p) (snd p)) (combine row v))
  else match v, row with
       | [b], _ => Ok (map (fun a => f a b) row)
       | _, [a] => Ok (map (fun b => f a b) v)
       | _, _ => Raise (ValueError "operands could not be broadcast together")
       end.

Definition broadcast {A} (f : A -> A -> A) (m : list (list A)) (v : list A)
  : result (list (list A)) :=
  rmap (fun row => broadcast_row f row v) m.

(** [row.argmax()] under the comparison [gt] ([gt a b] is [a > b]): the
    position of the first entry that no other entry exceeds, found by one
    left-to-right scan; an empty row raises [ValueError]. *)
Fixpoint argmax_from {A} (gt : A -> A -> bool)
    (best : nat) (vbest : A) (i : nat) (row : list A) : nat :=
  match row with
  | [] => best
  | v :: row' =>
      if gt v vbest
      then argmax_from gt i v (S i) row'
      else argmax_from gt best vbest (S i) row'
  end.

Definition argmax {A} (gt : A -> A -> bool) (row : list A) : result nat :=
  match row with
  | [] => Raise (ValueError "attempt to get argmax of an empty sequence")
  | v :: row' => Ok (argmax_from gt 0 v 1 row')
  end.

End Np.

(** A [pandas.DataFrame]: row labels, column names and one list of values
    per row. *)
Record DataFrame (V : Type) : Type := {
  index : list string;
  columns : list string;
  values : list (list V)
}.

Module Pd.

(** The positions of [g] in [xs], ascending, counted from [i]. *)
Fixpoint positions_from (i : nat) (xs : list string) (g : string) : list nat :=
  match xs with
  | [] => []
  | x :: xs' =>
      if String.eqb x g
      then i :: positions_from (S i) xs' g
      else positions_from (S i) xs' g
  end.

(** [pd.DataFrame(xs, columns=['features']).reset_index()
      .set_index('features').loc[keys, 'index'].values]:
    the frame maps every name of [xs] to its position; [.loc] with a list of
    keys returns, key after key, the rows carrying that key (all of them when
    the index has duplicates) and raises [KeyError] for a key that is absent. *)
Definition loc_index (xs keys : list string) : result (list nat) :=
  try! rows <- rmap (fun g => match positions_from 0 xs g with
                              | [] => Raise (KeyError g)
                              | ps => Ok ps
                              end) keys in
  Ok (List.concat rows).

(** The position of the first column called [name]. *)
Fixpoint column_position (names : list string) (name : string) : option nat :=
  match names with
  | [] => None
  | n :: names' =>
      if String.eqb n name then Some 0
      else option_map S (column_position names' name)
  end.

(** [df[name]]: the values of one column, row after row. *)
Definition column {V} (df : DataFrame V) (name : string) : result (list V) :=
  match column_position (columns df) name with
  | None => Raise (KeyError name)
  | Some j => rmap (fun row => Np.item row j) (values df)
  end.

(** Sorted, duplicate-free labels, in the order of Python's string
    comparison: the axes of a cross tabulation. *)
Fixpoint insert_unique (x : string) (l : list string) : list string :=
  match l with
  | [] => [x]
  | y :: l' =>
      match String.compare x y with
      | Lt => x :: y :: l'
      | Eq => y :: l'
      | Gt => y :: insert_unique x l'
      end
  end.

Definition sorted_unique (l : list string) : list string :=
  fold_right insert_unique [] l.

(** How many cells carry the row label [r] and the column label [c]. *)
Definition count_pair (rs cs : list string) (r c : string) : nat :=
  List.length
    (List.filter (fun p => String.eqb (fst p) r && String.eqb (snd p) c)
                 (combine rs cs)).

(** [pd.crosstab(rs, cs)]: the contingency table of two label arrays of
    the same length; [ct_counts] has one row per row label. *)
Record Crosstab : Type := {
  ct_index : list string;
  ct_columns : list string;
  ct_counts : list (list nat)
}.

Definition crosstab (rs cs : list string) : result Crosstab :=
  if Nat.eqb (List.length rs) (List.length cs)
  then
    let rows := sorted_unique rs in
    let cols := sorted_unique cs in
    Ok {| ct_index := rows;
          ct_columns := cols;
          ct_counts := map (fun r => map (count_pair rs cs r) cols) rows |}
  else Raise (ValueError "arrays must all be same length").

(** [votes.idxmax()]: for every column, the row label of its first
    largest count, as a series indexed by the column labels.  A table
    without columns (the cross tabulation of no cells) has nothing to take
    a maximum of, and pandas raises [ValueError]. *)
Definition idxmax (t : Crosstab) : result (list (string * string)) :=
  match ct_columns t with
  | [] => Raise (ValueError "attempt to get argmax of an empty sequence")
  | _ :: _ =>
      rmap (fun jc =>
              try! col <- rmap (fun row => Np.item row (fst jc)) (ct_counts t) in
              try! i <- Np.argmax (fun a b => Nat.ltb b a) col in
              try! r <- Np.item (ct_index t) i in
              Ok (snd jc, r))
           (combine (seq 0 (List.length (ct_columns t))) (ct_columns t))
  end.

(** [series[key]] for a series with unique index labels. *)
Fixpoint series_get (series : list (string * string)) (key : string)
  : result string :=
  match series with
  | [] => Raise (KeyError key)
  | (k, v) :: series' =>
      if String.eqb k key then Ok v else series_get series' key
  end.

(** [df.index = labels] *)
Definition set_index {V} (df : DataFrame V) (labels : list string)
  : result (DataFrame V) :=
  if Nat.eqb (List.length labels) (List.length (values df))
  then Ok {| index := labels; columns := columns df; values := values df |}
  else Raise (ValueError "Length mismatch").

(** [left.join(right)]: a left join on the row labels.  Every row of
    [left], in order, is extended by every row of [right] with the same
    label (by [na] values when there is none); a column name on both sides
    raises [ValueError]. *)
Definition join {V} (na : V) (left right : DataFrame V) : result (DataFrame V) :=
  if existsb (fun c => existsb (String.eqb c) (columns right)) (columns left)
  then Raise (ValueError "columns overlap but no suffix specified")
  else
    let rrows := combine (index right) (values right) in
    let joined :=
      flat_map
        (fun kv =>
           match List.filter (fun kw => String.eqb (fst kw) (fst kv)) rrows with
           | [] => [(fst kv, snd kv ++ repeat na (List.length (columns right)))]
           | ms => map (fun kw => (fst kv, snd kv ++ snd kw)) ms
           end)
        (combine (index left) (values left)) in
    Ok {| index := map fst joined;
          columns := columns left ++ columns right;
          values := map snd joined |}.

End Pd.

(** ** Numbers

    The arithmetic of the pipeline is stated over any carrier with the
    operations the code uses; [gtb a b] is [a > b] and [expit] is
    [scipy.special.expit].  Instances over [Z] (to run the definitions) and
    over the reals (with the logistic function itself) follow the model. *)

Class Num (T : Type) : Type := {
  zero : T;
  add : T -> T -> T;
  sub : T -> T -> T;
  mul : T -> T -> T;
  div : T -> T -> T;
  gtb : T -> T -> bool;
  expit : T -> T;
  ten : T;
  half : T
}.

(** ** The model: [celltypist/models.py] *)

Section Pipeline.

Context {T : Type} {N : Num T}.

Definition matrix : Type := list (list T).

(** The attributes of the linear classifier that the code reads or writes. *)
Record SGDClassifier : Type := {
  classes_ : list string;
  features : list string;
  coef_ : matrix;
  intercept_ : list T;
  n_features_in_ : nat
}.

Record StandardScaler : Type := {
  mean_ : list T;
  scale_ : list T
}.

Record Model : Type := {
  classifier : SGDClassifier;
  scaler : StandardScaler;
  description : list (string * string)
}.

Definition cell_types (m : Model) : list string := classes_ (classifier m).

(** The sum of the products of paired entries; the operands must have the
    same length. *)
Definition dot (x w : list T) : result T :=
  if Nat.eqb (List.length x) (List.length w)
  then Ok (fold_right (fun p acc => add (mul (fst p) (snd p)) acc)
                      zero (combine x w))
  else Raise (ValueError "shapes not aligned").

(** The scorer's validation of its input (scikit-learn's [check_array]):
    a matrix without rows or without columns is refused. *)
Definition check_array (indata : matrix) : result unit :=
  match indata with
  | [] => Raise (ValueError "Found array with 0 sample(s) while a minimum of 1 is required")
  | [] :: _ => Raise (ValueError "Found array with 0 feature(s) while a minimum of 1 is required")
  | _ => Ok tt
  end.

(** [classifier.decision_function(indata)]: the input is validated, then
    [indata @ coef_.T + intercept_], one column per weight row.  When
    [coef_] has a single row (a classifier of two classes) scikit-learn
    hands the scores out as an array of one dimension; the numbers are
    those of the one column kept here.  [predict_labels_and_prob] below
    raises where ['best match'] asks for the missing axis, and the
    statements about the labels of either mode are made for models whose
    weight matrix has not exactly one row. *)
Definition decision_function (clf : SGDClassifier) (indata : matrix)
  : result matrix :=
  try! _ <- check_array indata in
  try! prods <- rmap (fun x => rmap (dot x) (coef_ clf)) indata in
  Np.broadcast add prods (intercept_ clf).

(** [np.array(strs)] of Python strings has a fixed item width, the length
    of its longest string (one for an array of empty strings); a longer
    string stored into it is cut to that width.  Names are taken to be
    ASCII, so that the characters of a string here are Python's. *)
Definition itemsize (strs : list string) : nat :=
  Nat.max 1 (list_max (map String.length strs)).

Definition store_str (width : nat) (s : string) : string :=
  substring 0 width s.

(** [labs[labs == ''] = 'Unassigned'] *)
Definition fill_unassigned (labs : list string) : list string :=
  let w := itemsize labs in
  map (fun l => if String.eqb l "" then store_str w "Unassigned" else l) labs.

(** [Model.predict_labels_and_prob].  In ['best match'] mode
    [scores.argmax(axis=1)] needs scores of two dimensions: with a single
    weight row the scores have one, and numpy raises [AxisError], a
    [ValueError]. *)
Definition predict_labels_and_prob (m : Model) (indata : matrix)
    (mode : string) (p_thres : T)
  : result (matrix * matrix * list string) :=
  try! scores <- decision_function (classifier m) indata in
  let probs := map (map expit) scores in
  if String.eqb mode "best match" then
    if Nat.eqb (List.length (coef_ (classifier m))) 1
    then Raise (ValueError "axis 1 is out of bounds for array of dimension 1")
    else
      try! idx <- rmap (Np.argmax gtb) scores in
      try! labs <- Np.take (classes_ (classifier m)) idx in
      Ok (scores, probs, labs)
  else if String.eqb mode "prob match" then
    let flags := map (map (fun p => gtb p p_thres)) probs in
    try! labs <- rmap (fun x =>
                   try! names <- Np.take (classes_ (classifier m)) (Np.where_ x) in
                   Ok (String.concat "|" names)) flags in
    Ok (scores, probs, fill_unassigned labs)
  else Raise (ValueError "Unrecognized `mode` value, should be one of `best match` or `prob match`").

End Pipeline.

Arguments SGDClassifier T : clear implicits.
Arguments StandardScaler T : clear implicits.
Arguments Model T : clear implicits.
Arguments matrix T : clear implicits.

(** ** Logging *)

(** The messages the code hands to [logger]. *)
Inductive LogMsg : Type :=
| MatchingGenes
| FeaturesUsed (n : nat)
| ScalingInput
| PredictingLabels
| PredictionDone
| MajorityVoting
| MajorityVotingDone
| RetrievingModelList (url : string)
| TotalModels (n : nat)
| StoringModels (path : string)
| FilteringModels (names : list string)
| AllFilteredOut (names : list string)
| Skipping (i total : nat) (file : string)
| Downloading (i total : nat) (file : string)
| DownloadFailed (file : string) (e : exn).


(** ** Computations that mutate a store and may raise

    A Python exception leaves every assignment made before it in place, so a
    computation returns its result or its exception together with the store
    it reached. *)

Section StateExn.

Context {S : Type}.

Definition SE (A : Type) : Type := S -> result A * S.

Definition ret {A} (a : A) : SE A := fun s => (Ok a, s).

Definition bind {A B} (c : SE A) (k : A -> SE B) : SE B :=
  fun s => match c s with
           | (Ok a, s') => k a s'
           | (Raise e, s') => (Raise e, s')
           end.

Definition lift {A} (r : result A) : SE A := fun s => (r, s).

Definition get : SE S := fun s => (Ok s, s).

Definition modify (f : S -> S) : SE unit := fun s => (Ok tt, f s).

(** [try: c except Exception as e: handler(e)] *)
Definition try_except {A} (c : SE A) (handler : exn -> SE A) : SE A :=
  fun s => match c s with
           | (Ok a, s') => (Ok a, s')
           | (Raise e, s') => handler e s'
           end.

End StateExn.

Arguments SE S A : clear implicits.

Declare Scope py_scope.
Delimit Scope py_scope with py.
Notation "x <- c ;; k" := (bind c (fun x => k))
  (at level 61, c at next level, right associativity) : py_scope.
Notation "c ;; k" := (bind c (fun _ => k))
  (at level 61, right associativity) : py_scope.

(** ** The classifier: [celltypist/classifier.py] *)

Section ClassifierPy.

Context {T : Type} {N : Num T}.

Record AnnotationResult : Type := {
  predicted_labels : DataFrame string;
  probability_table : DataFrame T;
  cell_count : nat
}.

(** The attributes of a [Classifier] that [celltype] uses; [obs_names] is
    [adata.obs_names].  The model is not a field: it is a shared object,
    kept next to the classifier in the store. *)
Record Classifier : Type := {
  filename : string;
  obs_names : list string;
  indata : matrix T;
  indata_genes : list string
}.

Record Store : Type := {
  model : Model T;
  self : Classifier;
  log : list LogMsg
}.

(** *** The store's computations *)

Definition M : Type -> Type := SE Store.

Definition info (msg : LogMsg) : M unit :=
  modify (fun s => {| model := model s; self := self s;
                      log := log s ++ [msg] |}).

Definition set_indata (x : matrix T) : M unit :=
  modify (fun s =>
    {| model := model s;
       self := {| filename := filename (self s);
                  obs_names := obs_names (self s);
                  indata := x;
                  indata_genes := indata_genes (self s) |};
       log := log s |}).

Definition set_indata_genes (g : list string) : M unit :=
  modify (fun s =>
    {| model := model s;
       self := {| filename := filename (self s);
                  obs_names := obs_names (self s);
                  indata := indata (self s);
                  indata_genes := g |};
       log := log s |}).

Definition set_classifier (c : SGDClassifier T) : M unit :=
  modify (fun s =>
    {| model := {| classifier := c;
                   scaler := scaler (model s);
                   description := description (model s) |};
       self := self s;
       log := log s |}).

Definition set_n_features_in_ (n : nat) : M unit :=
  bind get (fun s =>
    let c := classifier (model s) in
    set_classifier {| classes_ := classes_ c; features := features c;
                      coef_ := coef_ c; intercept_ := intercept_ c;
                      n_features_in_ := n |}).

Definition set_features (f : list string) : M unit :=
  bind get (fun s =>
    let c := classifier (model s) in
    set_classifier {| classes_ := classes_ c; features := f;
                      coef_ := coef_ c; intercept_ := intercept_ c;
                      n_features_in_ := n_features_in_ c |}).

Definition set_coef_ (w : matrix T) : M unit :=
  bind get (fun s =>
    let c := classifier (model s) in
    set_classifier {| classes_ := classes_ c; features := features c;
                      coef_ := w; intercept_ := intercept_ c;
                      n_features_in_ := n_features_in_ c |}).

End ClassifierPy.

Arguments AnnotationResult T : clear implicits.
Arguments Classifier T : clear implicits.
Arguments Store T : clear implicits.
Arguments M T A : clear implicits.


Section Celltype.

Context {T : Type} {N : Num T}.

Open Scope py_scope.

(** The objects held by the tuple that [predict_labels_and_prob] returns. *)
Inductive pyobj : Type :=
| PyMatrix (m : matrix T)
| PyLabels (l : list string).

Definition as_tuple (t : matrix T * matrix T * list string) : list pyobj :=
  let '(scores, probs, labs) := t in
  [PyMatrix scores; PyMatrix probs; PyLabels labs].

(** [a, b = t] *)
Definition unpack2 (t : list pyobj) : result (pyobj * pyobj) :=
  match t with
  | [a; b] => Ok (a, b)
  | _ :: _ :: _ :: _ => Raise (ValueError "too many values to unpack (expected 2)")
  | _ => Raise (ValueError "not enough values to unpack (expected 2)")
  end.

(** [pd.DataFrame(lab_mat, columns=['predicted_labels'], index=cells)] *)
Definition labels_frame (lab_mat : pyobj) (cells : list string)
  : result (DataFrame string) :=
  match lab_mat with
  | PyLabels l =>
      if Nat.eqb (List.length l) (List.length cells)
      then Ok {| index := cells; columns := ["predicted_labels"%string];
                 values := map (fun x => [x]) l |}
      else Raise (ValueError "Shape of passed values does not match the index")
  | PyMatrix _ => Raise (ValueError "Shape of passed values does not match the columns")
  end.

(** [pd.DataFrame(prob_mat, columns=classes_, index=cells)] *)
Definition prob_frame (prob_mat : pyobj) (classes cells : list string)
  : result (DataFrame T) :=
  match prob_mat with
  | PyMatrix p =>
      if Nat.eqb (List.length p) (List.length cells)
         && forallb (fun row => Nat.eqb (List.length row) (List.length classes)) p
      then Ok {| index := cells; columns := classes; values := p |}
      else Raise (ValueError "Shape of passed values does not match the axes")
  | PyLabels _ => Raise (ValueError "Shape of passed values does not match the columns")
  end.

(** [indata[indata > 10] = 10] *)
Definition clip10 (x : matrix T) : matrix T :=
  map (map (fun v => if gtb v ten then ten else v)) x.

(** The three steps of [Classifier.celltype], in source order.

    [match_genes] is lines 173-179: the mask of input genes known to the
    model, the input restricted to them, and their positions in the
    model's feature list. *)
Definition match_genes : M T (list nat) :=
  info MatchingGenes ;;
  s <- get ;;
  let k_x := Np.isin (indata_genes (self s)) (features (classifier (model s))) in
  info (FeaturesUsed (Np.sum_mask k_x)) ;;
  let k_x_idx := Np.where_ k_x in
  x <- lift (Np.take_cols (indata (self s)) k_x_idx) ;;
  set_indata x ;;
  genes <- lift (Np.take (indata_genes (self s)) k_x_idx) ;;
  set_indata_genes genes ;;
  lift (Pd.loc_index (features (classifier (model s))) genes).

(** Lines 181-186: centre, scale and clip the input. *)
Definition scale_input (lr_idx : list nat) : M T unit :=
  info ScalingInput ;;
  s <- get ;;
  means_ <- lift (Np.take (mean_ (scaler (model s))) lr_idx) ;;
  sds_ <- lift (Np.take (scale_ (scaler (model s))) lr_idx) ;;
  x1 <- lift (Np.broadcast sub (indata (self s)) means_) ;;
  set_indata x1 ;;
  x2 <- lift (Np.broadcast div x1 sds_) ;;
  set_indata x2 ;;
  set_indata (clip10 x2).

(** Lines 188-190: the model's classifier is overwritten. *)
Definition subset_model (lr_idx : list nat) : M T unit :=
  set_n_features_in_ (List.length lr_idx) ;;
  s <- get ;;
  f <- lift (Np.take (features (classifier (model s))) lr_idx) ;;
  set_features f ;;
  w <- lift (Np.take_cols (coef_ (classifier (model s))) lr_idx) ;;
  set_coef_ w.

(** Line 193, right-hand side: the call of the scorer, with its default
    mode and threshold. *)
Definition predict_step : M T (matrix T * matrix T * list string) :=
  info PredictingLabels ;;
  s <- get ;;
  lift (predict_labels_and_prob (model s) (indata (self s)) "best match" half).

(** Lines 173-193 up to the value of the call in line 193. *)
Definition score_pipeline : M T (matrix T * matrix T * list string) :=
  lr_idx <- match_genes ;;
  scale_input lr_idx ;;
  subset_model lr_idx ;;
  predict_step.

(** [Classifier.celltype] *)
Definition celltype : M T (AnnotationResult T) :=
  t <- score_pipeline ;;
  p <- lift (unpack2 (as_tuple t)) ;;
  let '(lab_mat, prob_mat) := p in
  info PredictionDone ;;
  s <- get ;;
  let cells := obs_names (self s) in
  labels <- lift (labels_frame lab_mat cells) ;;
  prob <- lift (prob_frame prob_mat (classes_ (classifier (model s))) cells) ;;
  ret {| predicted_labels := labels;
         probability_table := prob;
         cell_count := List.length (values labels) |}.

End Celltype.

Section MajorityVote.

Context {T : Type} {N : Num T}.

Open Scope py_scope.

(** [Classifier.majority_vote].  The method reassigns one attribute of its
    argument and returns that same object: the value returned here is the
    new state of [predictions], which the caller's reference sees too.
    [over_clustering] is taken as a list or array (a series carrying the
    cells' own index behaves alike). *)
Definition majority_vote (predictions : AnnotationResult T)
    (over_clustering : list string) : M T (AnnotationResult T) :=
  info MajorityVoting ;;
  labels <- lift (Pd.column (predicted_labels predictions) "predicted_labels") ;;
  votes <- lift (Pd.crosstab labels over_clustering) ;;
  winners <- lift (Pd.idxmax votes) ;;
  picked <- lift (rmap (fun c => try! l <- Pd.series_get winners c in Ok [c; l])
                       over_clustering) ;;
  let majority := {| index := map (fun _ => EmptyString) picked;
                     columns := ["over_clustering"; "0"]%string;
                     values := picked |} in
  majority <- lift (Pd.set_index majority (index (predicted_labels predictions))) ;;
  let majority := {| index := index majority;
                     columns := ["over_clustering"; "majority_voting"]%string;
                     values := values majority |} in
  joined <- lift (Pd.join "nan"%string (predicted_labels predictions) majority) ;;
  info MajorityVotingDone ;;
  ret {| predicted_labels := joined;
         probability_table := probability_table predictions;
         cell_count := cell_count predictions |}.

End MajorityVote.

(** ** Fetching models: the file and network side of [celltypist/models.py] *)

Module Download.

Open Scope py_scope.

(** One model of the JSON index. *)
Record entry : Type := {
  filename : string;
  url : string;
  default : option bool;
  details : string
}.

(** What a file or a response body holds: a JSON document with a
    ["models"] list, or other bytes. *)
Inductive content : Type :=
| Index (models : list entry)
| Bytes (b : string).

(** The files on disk, the answer of the network to a GET of each URL, the
    URLs requested so far, and the log. *)
Record World : Type := {
  files : list (string * content);
  remote : string -> result content;
  requested : list string;
  log : list LogMsg
}.

Definition IO : Type -> Type := SE World.

Definition info (msg : LogMsg) : IO unit :=
  modify (fun w => {| files := files w; remote := remote w;
                      requested := requested w; log := log w ++ [msg] |}).

Fixpoint lookup (path : string) (fs : list (string * content)) : option content :=
  match fs with
  | [] => None
  | (p, c) :: fs' => if String.eqb p path then Some c else lookup path fs'
  end.

(** [os.path.exists(path)] *)
Definition path_exists (path : string) (w : World) : bool :=
  match lookup path (files w) with
  | Some _ => true
  | None => false
  end.

(** Writing a file replaces what it held. *)
Definition write_file (path : string) (c : content) : IO unit :=
  modify (fun w =>
    {| files := (path, c)
                :: List.filter (fun pc => negb (String.eqb (fst pc) path)) (files w);
       remote := remote w; requested := requested w; log := log w |}).

(** [requests.get(url)] and its body. *)
Definition requests_get (u : string) : IO content :=
  modify (fun w => {| files := files w; remote := remote w;
                      requested := requested w ++ [u]; log := log w |}) ;;
  w <- get ;;
  lift (remote w u).

(** [with open(path, "wb") as f: f.write(requests.get(url).content)]:
    the file is created empty before the request is made. *)
Definition fetch_to (path u : string) : IO unit :=
  write_file path (Bytes "") ;;
  c <- requests_get u ;;
  write_file path c.

Definition models_path : string := "~/.celltypist/data/models".

(** [os.path.join(models_path, file)] *)
Definition get_model_path (file : string) : string :=
  match file with
  | String "/" _ => file
  | _ => models_path ++ "/" ++ file
  end.

Definition index_url : string :=
  "https://celltypist.cog.sanger.ac.uk/models/models.json".

(** [json]'s view of a document: its ["models"] list. *)
Definition json_models (c : content) : result (list entry) :=
  match c with
  | Index ms => Ok ms
  | Bytes _ => Raise (ValueError "Expecting value")
  end.

(** [download_model_index()], with [only_model] at its default [True]. *)
Definition download_model_index : IO unit :=
  info (RetrievingModelList index_url) ;;
  fetch_to (get_model_path "models.json") index_url ;;
  c <- requests_get index_url ;;
  ms <- lift (json_models c) ;;
  info (TotalModels (List.length ms)).

(** [get_models_index(force_update)] *)
Definition get_models_index (force_update : bool) : IO (list entry) :=
  let models_json_path := get_model_path "models.json" in
  w <- get ;;
  (if negb (path_exists models_json_path w) || force_update
   then download_model_index
   else ret tt) ;;
  w <- get ;;
  match lookup models_json_path (files w) with
  | None => lift (Raise (ValueError "No such file or directory"))
  | Some c => lift (json_models c)
  end.

(** The name [model_list] in the body of [download_models]: it is neither
    a parameter nor assigned in the function, the module binds no such
    name at its top level (only its imports, three path strings, [Model]
    and the functions), and it is not a built-in.  Loading it raises. *)
Definition load_model_list : result (list string) :=
  Raise (NameError "model_list").

(** The loop of [download_models], lines 255-265; [idx] counts from zero. *)
Fixpoint download_each (force_update : bool) (model_count idx : nat)
    (models : list entry) : IO unit :=
  match models with
  | [] => ret tt
  | model :: models' =>
      let model_path := get_model_path (filename model) in
      w <- get ;;
      (if path_exists model_path w && negb force_update
       then info (Skipping (idx + 1) model_count (filename model))
       else
         info (Downloading (idx + 1) model_count (filename model)) ;;
         try_except (fetch_to model_path (url model))
                    (fun e => info (DownloadFailed (filename model) e))) ;;
      download_each force_update model_count (S idx) models'
  end.

(** [download_models(force_update, model)] *)
Definition download_models (force_update : bool) (model : option (list string))
  : IO unit :=
  models <- get_models_index force_update ;;
  info (StoringModels models_path) ;;
  model_list <- lift load_model_list ;;
  models <-
    (if negb (Nat.eqb (List.length model_list) 0)
     then
       info (FilteringModels model_list) ;;
       let kept := List.filter
                     (fun m => existsb (String.eqb (filename m)) model_list)
                     models in
       (if Nat.eqb (List.length kept) 0
        then info (AllFilteredOut model_list)
        else ret tt) ;;
       ret kept
     else ret models) ;;
  download_each force_update (List.length models) 0 models.

End Download.

(** ** Three carriers

    Integers, to run the definitions: division is floor division and the
    link function is a fixed-point stand-in for the logistic curve, in
    thousandths (it is monotone and takes the value [half] at a zero score).
    No general statement below depends on which link function an instance
    has.  The reals carry the logistic function itself.  Binary64
    floating-point numbers are the arithmetic the code runs in (numpy's
    [float64]): every operation rounds to nearest, so that addition is
    commutative but not associative. *)

#[export] Instance ZNum : Num Z := {|
  zero := 0%Z;
  add := Z.add;
  sub := Z.sub;
  mul := Z.mul;
  div := Z.div;
  gtb := Z.gtb;
  expit := fun s => (500 + 500 * s / (1 + Z.abs s))%Z;
  ten := 10%Z;
  half := 500%Z
|}.

#[export] Instance RNum : Num R := {|
  zero := 0%R;
  add := Rplus;
  sub := Rminus;
  mul := Rmult;
  div := Rdiv;
  gtb := fun a b => if Rlt_dec b a then true else false;
  expit := fun x => (/ (1 + exp (- x)))%R;
  ten := 10%R;
  half := (1 / 2)%R
|}.

(** The exponential is not among the primitive operations on floats, so
    the link function is a parameter of the instance. *)
Definition FNum (link : float -> float) : Num float := {|
  zero := 0%float;
  add := PrimFloat.add;
  sub := PrimFloat.sub;
  mul := PrimFloat.mul;
  div := PrimFloat.div;
  gtb := fun a b => PrimFloat.ltb b a;
  expit := link;
  ten := 10%float;
  half := 0.5%float
|}.

(** ** Sample data

    The model of the specification's worked example (classes A, B, C over
    the genes g1, g2) and a few inputs for it. *)

Module Sample.

Open Scope string_scope.
Open Scope Z_scope.

Definition toy_model : Model Z :=
  {| classifier := {| classes_ := ["A"; "B"; "C"];
                      features := ["g1"; "g2"];
                      coef_ := [[1; 0]; [0; 1]; [-1; -1]];
                      intercept_ := [0; 0; 0];
                      n_features_in_ := 2 |};
     scaler := {| mean_ := [0; 1]; scale_ := [1; 2] |};
     description := [("details", "toy")] |}.

Definition input (genes : list string) (x : matrix Z) : Classifier Z :=
  {| filename := "cells.csv";
     obs_names := map (fun _ => "cell") x;
     indata := x;
     indata_genes := genes |}.

Definition store (m : Model Z) (c : Classifier Z) : Store Z :=
  {| model := m; self := c; log := [] |}.

(** Two cells whose columns come in the order g2, g1. *)
Definition swapped : Store Z :=
  store toy_model (input ["g2"; "g1"] [[5; 2]; [1; 9]]).

(** The same cells with the columns in the model's order. *)
Definition straight : Store Z :=
  store toy_model (input ["g1"; "g2"] [[2; 5]; [9; 1]]).

(** An input that shares no gene with the model. *)
Definition disjoint : Store Z :=
  store toy_model (input ["h1"; "h2"] [[3; 4]]).

(** An input that has only the model's second gene. *)
Definition only_g2 : Store Z :=
  store toy_model (input ["g2"] [[5]]).

(** The same model over the reals. *)
Definition toy_model_R : Model R :=
  {| classifier := {| classes_ := ["A"; "B"; "C"];
                      features := ["g1"; "g2"];
                      coef_ := [[1; 0]; [0; 1]; [-1; -1]]%R;
                      intercept_ := [0; 0; 0]%R;
                      n_features_in_ := 2 |};
     scaler := {| mean_ := [0; 1]%R; scale_ := [1; 2]%R |};
     description := [("details", "toy")] |}.

(** Five cells with their predicted labels, and an over-clustering of
    them into the clusters 0 and 1. *)
Definition predictions : AnnotationResult Z :=
  {| predicted_labels :=
       {| index := ["c1"; "c2"; "c3"; "c4"; "c5"];
          columns := ["predicted_labels"];
          values := [["T"]; ["B"]; ["B"]; ["T"]; ["NK"]] |};
     probability_table :=
       {| index := ["c1"; "c2"; "c3"; "c4"; "c5"];
          columns := ["B"; "NK"; "T"];
          values := [[100; 200; 900]; [800; 100; 300]; [700; 200; 100];
                     [300; 100; 600]; [200; 900; 100]] |};
     cell_count := 5 |}.

Definition clusters : list string := ["1"; "1"; "0"; "0"; "0"].

(** Two cells of the same name, a T cell in cluster 0 and a B cell in
    cluster 1. *)
Definition same_name : AnnotationResult Z :=
  {| predicted_labels :=
       {| index := ["c"; "c"];
          columns := ["predicted_labels"];
          values := [["T"]; ["B"]] |};
     probability_table :=
       {| index := ["c"; "c"];
          columns := ["B"; "T"];
          values := [[100; 900]; [800; 300]] |};
     cell_count := 2 |}.

Definition two_clusters : list string := ["0"; "1"].

(** Predictions without cells. *)
Definition no_cells : AnnotationResult Z :=
  {| predicted_labels :=
       {| index := []; columns := ["predicted_labels"]; values := [] |};
     probability_table :=
       {| index := []; columns := ["B"; "NK"; "T"]; values := [] |};
     cell_count := 0 |}.

(** A classifier of two classes, as scikit-learn fits it: one weight row
    and one intercept. *)
Definition two_class_model : Model Z :=
  {| classifier := {| classes_ := ["neg"; "pos"];
                      features := ["g1"; "g2"];
                      coef_ := [[1; 0]];
                      intercept_ := [0];
                      n_features_in_ := 2 |};
     scaler := {| mean_ := [0; 1]; scale_ := [1; 2] |};
     description := [("details", "toy")] |}.

(** A model over floats: class A has the constant score 0.6, class B the
    sum of the three genes and class C its negative; no value is shifted or
    scaled.  One cell with the values 0.1, 0.2 and 0.3. *)
Definition float_model : Model float :=
  {| classifier := {| classes_ := ["A"; "B"; "C"];
                      features := ["g1"; "g2"; "g3"];
                      coef_ := [[0; 0; 0]; [1; 1; 1]; [-1; -1; -1]]%float;
                      intercept_ := [0.6; 0; 0]%float;
                      n_features_in_ := 3 |};
     scaler := {| mean_ := [0; 0; 0]%float; scale_ := [1; 1; 1]%float |};
     description := [("details", "toy")] |}.

Definition float_cell : Store float :=
  {| model := float_model;
     self := {| filename := "cells.csv";
                obs_names := ["cell"];
                indata := [[0.1; 0.2; 0.3]]%float;
                indata_genes := ["g1"; "g2"; "g3"] |};
     log := [] |}.

(** An index of two models on disk and a network on which the first
    model cannot be fetched. *)
Definition two_models : list Download.entry :=
  [ {| Download.filename := "A.pkl";
       Download.url := "https://models.example/A.pkl";
       Download.default := Some true;
       Download.details := "first" |};
    {| Download.filename := "B.pkl";
       Download.url := "https://models.example/B.pkl";
       Download.default := None;
       Download.details := "second" |} ].

Definition world : Download.World :=
  {| Download.files :=
       [(Download.get_model_path "models.json", Download.Index two_models)];
     Download.remote :=
       (fun u => if String.eqb u "https://models.example/A.pkl"
                 then Raise (ConnectionError u)
                 else Ok (Download.Bytes "pickled model"));
     Download.requested := [];
     Download.log := [] |}.

End Sample.

(** ** Vocabulary of the statements *)

(** The first position of [g] in [xs] (the length of [xs] when absent). *)
Fixpoint index_of (g : string) (xs : list string) : nat :=
  match xs with
  | [] => 0
  | x :: xs' => if String.eqb x g then 0 else S (index_of g xs')
  end.

(** The entries of [v] at the positions [idx], in the order of [idx]. *)
Definition gather {A} (d : A) (v : list A) (idx : list nat) : list A :=
  map (fun i => nth i v d) idx.

(** The entries of [row] whose mask bit is set. *)
Fixpoint compress {A} (mask : list bool) (row : list A) : list A :=
  match mask, row with
  | b :: mask', x :: row' =>
      if b then x :: compress mask' row' else compress mask' row'
  | _, _ => []
  end.

(** Pairing equal-length vectors entry by entry. *)
Definition zip_with {A} (f : A -> A -> A) (x y : list A) : list A :=
  map (fun p => f (fst p) (snd p)) (combine x y).

(** Position [k] holds an entry of [row] that no entry exceeds and that
    exceeds every entry before it: the first largest entry. *)
Definition first_max {A} (gt : A -> A -> bool) (row : list A) (k : nat) : Prop :=
  exists v, nth_error row k = Some v
            /\ (forall j x, nth_error row j = Some x -> gt x v = false)
            /\ (forall j x, j < k -> nth_error row j = Some x -> gt v x = true).

(** Python's order on strings, as a proposition. *)
Definition str_lt (a b : string) : Prop := String.ltb a b = true.

(** The comparison of counts under which [idxmax] scans a column. *)
Definition count_gt (a b : nat) : bool := Nat.ltb b a.

(** The label that [idxmax] picks for cluster [c]: the row label at the first
    largest count of the cluster's column. *)
Definition winner (labels clusters : list string) (c : string) : string :=
  match Np.argmax count_gt
          (map (fun r => Pd.count_pair labels clusters r c)
               (Pd.sorted_unique labels)) with
  | Ok i => nth i (Pd.sorted_unique labels) EmptyString
  | Raise _ => EmptyString
  end.

(** The frame that [majority_vote] joins to the predicted labels: per cell,
    its cluster and the cluster's winner. *)
Definition majority_frame (cells labels clusters : list string)
  : DataFrame string :=
  {| index := cells;
     columns := ["over_clustering"; "majority_voting"]%string;
     values := map (fun c => [c; winner labels clusters c]) clusters |}.

(** The two frames have no column name in common. *)
Definition disjoint_columns (left right : list string) : Prop :=
  forall c, In c left -> ~ In c right.

Section Vocabulary.

Context {T : Type} {N : Num T}.

(** Whether the model was trained on gene [g]. *)
Definition known (m : Model T) (g : string) : bool :=
  existsb (String.eqb g) (features (classifier m)).

(** The input's genes that the model knows, in the input's column order. *)
Definition used_genes (s : Store T) : list string :=
  List.filter (known (model s)) (indata_genes (self s)).

(** Their positions in the model's feature list. *)
Definition lr_idx_of (s : Store T) : list nat :=
  map (fun g => index_of g (features (classifier (model s)))) (used_genes s).

(** The model's parameter for gene [g] in a vector laid out like the
    model's feature list. *)
Definition at_gene (m : Model T) (v : list T) (g : string) : T :=
  nth (index_of g (features (classifier m))) v zero.

(** One standardised and clipped value. *)
Definition standardise (m : Model T) (g : string) (v : T) : T :=
  let z := div (sub v (at_gene m (mean_ (scaler m)) g))
               (at_gene m (scale_ (scaler m)) g) in
  if gtb z ten then ten else z.

(** A well-formed input: distinct model features, one mean, scale and
    weight per feature, and a rectangular matrix with one column per
    input gene. *)
Definition well_formed (s : Store T) : Prop :=
  NoDup (features (classifier (model s)))
  /\ List.length (features (classifier (model s)))
     <= List.length (mean_ (scaler (model s)))
  /\ List.length (features (classifier (model s)))
     <= List.length (scale_ (scaler (model s)))
  /\ Forall (fun w => List.length (features (classifier (model s)))
                      <= List.length w)
            (coef_ (classifier (model s)))
  /\ Forall (fun row => List.length row = List.length (indata_genes (self s)))
            (indata (self s)).

(** The store that alignment, rescaling and the overwriting of the model
    lead to (lines 173-190), written out. *)
Definition aligned (s : Store T) : Store T :=
  let m := model s in
  let lr := lr_idx_of s in
  let mask := Np.isin (indata_genes (self s)) (features (classifier m)) in
  {| model :=
       {| classifier :=
            {| classes_ := classes_ (classifier m);
               features := gather EmptyString (features (classifier m)) lr;
               coef_ := map (fun w => gather zero w lr) (coef_ (classifier m));
               intercept_ := intercept_ (classifier m);
               n_features_in_ := List.length lr |};
          scaler := scaler m;
          description := description m |};
     self :=
       {| filename := filename (self s);
          obs_names := obs_names (self s);
          indata :=
            clip10
              (map (fun row =>
                      zip_with div
                        (zip_with sub (compress mask row)
                                  (gather zero (mean_ (scaler m)) lr))
                        (gather zero (scale_ (scaler m)) lr))
                   (indata (self s)));
          indata_genes := used_genes s |};
     log := log s ++ [MatchingGenes; FeaturesUsed (List.length (used_genes s));
                      ScalingInput] |}.

(** Laws of the carrier that some statements assume. *)
Definition add_commutative : Prop := forall a b : T, add a b = add b a.
Definition add_associative : Prop :=
  forall a b c : T, add a (add b c) = add (add a b) c.
Definition gt_irreflexive : Prop := forall a : T, gtb a a = false.
Definition gt_transitive : Prop :=
  forall a b c : T, gtb a b = true -> gtb b c = true -> gtb a c = true.
Definition gt_total : Prop :=
  forall a b : T, gtb a b = true \/ a = b \/ gtb b a = true.

(** Entry [k] of [row] exceeds every other entry. *)
Definition strict_max (row : list T) (k : nat) : Prop :=
  exists v, nth_error row k = Some v
            /\ forall j x, j <> k -> nth_error row j = Some x -> gtb v x = true.

(** The permuted input: gene names and matrix columns moved together. *)
Definition permute_input (p : list nat) (s : Store T) : Store T :=
  {| model := model s;
     self := {| filename := filename (self s);
                obs_names := obs_names (self s);
                indata := map (fun row => gather zero row p) (indata (self s));
                indata_genes := gather EmptyString (indata_genes (self s)) p |};
     log := log s |}.

(** A store with one more log line. *)
Definition logged (msg : LogMsg) (s : Store T) : Store T :=
  {| model := model s; self := self s; log := log s ++ [msg] |}.

(** The genes common to model and input, in the order of the model's
    feature list. *)
Definition model_order_intersection (s : Store T) : list string :=
  List.filter (fun f => existsb (String.eqb f) (indata_genes (self s)))
              (features (classifier (model s))).

(** The input columns that the model knows, each with its gene. *)
Definition used_columns (m : Model T) (genes : list string) (row : list T)
  : list (string * T) :=
  List.filter (fun gv => known m (fst gv)) (combine genes row).

(** The store in which a second classifier [c2], built on the model object
    that a run of [celltype] from [s] has left behind, starts; and the
    store it would start in with the model as it was loaded. *)
Definition second_run (s : Store T) (c2 : Classifier T) : Store T :=
  {| model := model (snd (celltype s)); self := c2;
     log := log (snd (celltype s)) |}.

Definition fresh_run (s : Store T) (c2 : Classifier T) : Store T :=
  {| model := model s; self := c2; log := log s |}.

(** The decision score of one cell for one class, and for all classes. *)
Definition dot_sum (x w : list T) : T :=
  fold_right (fun p acc => add (mul (fst p) (snd p)) acc) zero (combine x w).

Definition score_row (m : Model T) (x : list T) : list T :=
  zip_with add (map (dot_sum x) (coef_ (classifier m)))
           (intercept_ (classifier m)).

(** A model and a matrix that the scorer accepts: at least one cell and
    one feature, one weight per feature in every class row, one
    intercept per class row, at least one class row and a class name for
    each. *)
Definition scorable (m : Model T) (x : matrix T) : Prop :=
  x <> []
  /\ 0 < n_features_in_ (classifier m)
  /\ Forall (fun row => List.length row = n_features_in_ (classifier m)) x
  /\ Forall (fun w => List.length w = n_features_in_ (classifier m))
            (coef_ (classifier m))
  /\ coef_ (classifier m) <> []
  /\ List.length (intercept_ (classifier m))
     = List.length (coef_ (classifier m))
  /\ List.length (coef_ (classifier m))
     <= List.length (classes_ (classifier m)).

(** A model whose scores have two dimensions: its weight matrix has not
    exactly one row.  (A fitted classifier of two classes has one row; one
    of three or more classes has a row per class.) *)
Definition several_weight_rows (m : Model T) : Prop :=
  List.length (coef_ (classifier m)) <> 1.

(** The link function never exceeds one half at a score that is not
    positive, as the logistic function does. *)
Definition expit_half_at_most : Prop :=
  forall s : T, gtb s zero = false -> gtb (expit s) half = false.

(** The names of the classes whose probability exceeds the threshold,
    joined by a bar, for one row of scores. *)
Definition joined_label (m : Model T) (p_thres : T) (row : list T) : string :=
  String.concat "|"
    (compress (map (fun v => gtb (expit v) p_thres) row)
              (classes_ (classifier m))).

(** The part of one decision score that one used column contributes, and
    the sum over the used columns of a cell. *)
Definition gene_term (m : Model T) (w : list T) (gv : string * T) : T :=
  mul (standardise m (fst gv) (snd gv)) (at_gene m w (fst gv)).

Definition gene_sum (m : Model T) (genes : list string) (w row : list T) : T :=
  fold_right add zero (map (gene_term m w) (used_columns m genes row)).

(** An input on which scoring goes through: well formed, with at least
    one cell, one known gene and one class row, one intercept per class
    row and a class name for each. *)
Definition predictable (s : Store T) : Prop :=
  well_formed s
  /\ indata (self s) <> []
  /\ used_genes s <> []
  /\ coef_ (classifier (model s)) <> []
  /\ List.length (intercept_ (classifier (model s)))
     = List.length (coef_ (classifier (model s)))
  /\ List.length (coef_ (classifier (model s)))
     <= List.length (classes_ (classifier (model s))).

End Vocabulary.

(** ** The frequency table: [AnnotationResult.summary_frequency] *)

(** [np.unique(labels, return_counts=True)], zipped: the distinct labels in
    ascending order, each with the number of cells that carry it. *)
Definition unique_counts (labels : list string) : list (string * nat) :=
  map (fun u => (u, List.length (List.filter (String.eqb u) labels)))
      (Pd.sorted_unique labels).

Section SummaryFrequency.

Context {T : Type}.

(** The order in which [sort_values(['counts'], ascending=False)] takes
    the rows of a frame with these counts.  The default sort of pandas is
    not a stable one and leaves the order of rows with equal counts open,
    so the order is left to the caller here. *)
Variable argsort_descending : list nat -> list nat.

(** A row of the result: its index label (the position the cell type had
    before the sort), the cell type and its count. *)
Definition summary_frequency (self : AnnotationResult T) (by_ : string)
  : result (list (nat * (string * nat))) :=
  try! labels <- Pd.column (predicted_labels self) by_ in
  let df := unique_counts labels in
  Np.take (combine (seq 0 (List.length df)) df)
          (argsort_descending (map snd df)).

End SummaryFrequency.

(** One order that sorts by descending count: a stable insertion sort of
    the positions. *)
Fixpoint insert_descending (counts : list nat) (i : nat) (sorted : list nat)
  : list nat :=
  match sorted with
  | [] => [i]
  | j :: sorted' =>
      if Nat.ltb (nth j counts 0) (nth i counts 0)
      then i :: j :: sorted'
      else j :: insert_descending counts i sorted'
  end.

Definition stable_argsort_descending (counts : list nat) : list nat :=
  fold_left (fun sorted i => insert_descending counts i sorted)
            (seq 0 (List.length counts)) [].

(** ** The models on disk: the rest of [celltypist/models.py] *)

Module Registry.

Open Scope py_scope.

(** The lines that these functions log and the download path does not:
    the two warnings of [get_default_model] and the notice of
    [download_if_required].  They are kept in a list of their own, next to
    the world of the download path. *)
Inductive Note : Type :=
| NoDefaultModel (first_model : string)
| SeveralDefaultModels (used : string)
| NoAvailableModels.

Record World : Type := {
  base : Download.World;
  notes : list Note
}.

Definition IO : Type -> Type := SE World.

(** A computation of the download path, run on the world it knows. *)
Definition run {A} (c : Download.IO A) : IO A :=
  fun w => let (r, b) := c (base w) in
           (r, {| base := b; notes := notes w |}).

Definition note (n : Note) : IO unit :=
  modify (fun w => {| base := base w; notes := notes w ++ [n] |}).

(** [s.endswith(suffix)] *)
Definition endswith (s suffix : string) : bool :=
  String.eqb (substring (String.length s - String.length suffix)
                        (String.length suffix) s)
             suffix.

Fixpoint has_slash (s : string) : bool :=
  match s with
  | EmptyString => false
  | String c s' => Ascii.eqb c "/" || has_slash s'
  end.

(** [os.path.basename(p)]: what follows the last slash. *)
Fixpoint basename (p : string) : string :=
  match p with
  | EmptyString => EmptyString
  | String _ p' => if has_slash p then basename p' else p
  end.

(** The name of [path] in the directory [dir], for a file directly in it. *)
Definition child_name (dir path : string) : option string :=
  let d := (dir ++ "/")%string in
  if prefix d path then
    let name := substring (String.length d)
                          (String.length path - String.length d) path in
    if has_slash name || String.eqb name "" then None else Some name
  else None.

(** [os.listdir(dir)] for a directory that holds files only (a file deeper
    down is not listed).  The names come in the order of [files]; the
    system promises no order. *)
Definition listdir (dir : string) (w : Download.World) : list string :=
  flat_map (fun pc => match child_name dir (fst pc) with
                      | Some name => [name]
                      | None => []
                      end)
           (Download.files w).

(** [[m for m in os.listdir(models_path) if m.endswith(".pkl")]] *)
Definition pkl_files (w : Download.World) : list string :=
  List.filter (fun m => endswith m ".pkl") (listdir Download.models_path w).

(** [download_if_required()] *)
Definition download_if_required : IO unit :=
  w <- get ;;
  if Nat.eqb (List.length (pkl_files (base w))) 0
  then
    note NoAvailableModels ;;
    run (Download.download_models false None)
  else ret tt.

(** [get_all_models()] *)
Definition get_all_models : IO (list string) :=
  download_if_required ;;
  w <- get ;;
  ret (map basename (pkl_files (base w))).

(** [("default" in m and m["default"])] *)
Definition is_default (m : Download.entry) : bool :=
  match Download.default m with
  | Some b => b
  | None => false
  end.

(** [get_default_model()] *)
Definition get_default_model : IO string :=
  models_json <- run (Download.get_models_index false) ;;
  let default_model :=
    map Download.filename (List.filter is_default models_json) in
  match default_model with
  | [] =>
      first_model <- lift (Np.item models_json 0) ;;
      note (NoDefaultModel (Download.filename first_model)) ;;
      ret (Download.filename first_model)
  | used :: _ =>
      (if Nat.ltb 1 (List.length default_model)
       then note (SeveralDefaultModels used)
       else ret tt) ;;
      ret used
  end.

End Registry.

(** ** Facts about the array operations *)

Section ArrayFacts.

Context {A B : Type}.

Lemma rmap_ok (f : A -> result B) (g : A -> B) (l : list A) :
  (forall a, In a l -> f a = Ok (g a)) -> rmap f l = Ok (map g l).
Proof.
  induction l as [|a l IH]; intros H; simpl.
  - reflexivity.
  - rewrite (H a (or_introl eq_refl)). simpl.
    rewrite IH by (intros; apply H; now right). reflexivity.
Qed.

Lemma rmap_inv (f : A -> result B) (l : list A) (l' : list B) :
  rmap f l = Ok l' -> Forall2 (fun a b => f a = Ok b) l l'.
Proof.
  revert l'. induction l as [|a l IH]; simpl; intros l' H.
  - inversion H. constructor.
  - destruct (f a) as [b|e] eqn:Ha; simpl in H; [|discriminate].
    destruct (rmap f l) as [bs|e] eqn:Hl; simpl in H; [|discriminate].
    inversion H; subst. constructor; auto.
Qed.

Lemma rmap_length (f : A -> result B) (l : list A) (l' : list B) :
  rmap f l = Ok l' -> List.length l' = List.length l.
Proof.
  intros H. apply rmap_inv in H. symmetry. eapply Forall2_length; eauto.
Qed.

Lemma rmap_ext (f g : A -> result B) (l : list A) :
  (forall a, In a l -> f a = g a) -> rmap f l = rmap g l.
Proof.
  induction l as [|a l IH]; intros H; simpl; [reflexivity|].
  rewrite (H a (or_introl eq_refl)), IH; [reflexivity|].
  intros; apply H; now right.
Qed.

End ArrayFacts.

Lemma item_nth {A} (d : A) (v : list A) (i : nat) :
  i < List.length v -> Np.item v i = Ok (nth i v d).
Proof.
  intros H. unfold Np.item.
  destruct (nth_error v i) as [x|] eqn:E.
  - now rewrite (nth_error_nth _ _ d E).
  - apply nth_error_None in E. lia.
Qed.

Lemma take_gather {A} (d : A) (v : list A) (idx : list nat) :
  Forall (fun i => i < List.length v) idx ->
  Np.take v idx = Ok (gather d v idx).
Proof.
  intros H. unfold Np.take, gather. apply rmap_ok.
  intros i Hi. apply item_nth. rewrite Forall_forall in H. auto.
Qed.

Lemma where_from_bound (i : nat) (mask : list bool) :
  Forall (fun j => i <= j < i + List.length mask) (Np.where_from i mask).
Proof.
  revert i. induction mask as [|b mask IH]; intros i; simpl; [constructor|].
  assert (H : Forall (fun j => i <= j < i + S (List.length mask))
                     (Np.where_from (S i) mask)).
  { eapply Forall_impl; [|apply IH]. simpl. intros; lia. }
  destruct b; [constructor; [lia|]|]; exact H.
Qed.

Lemma gather_where_from {A} (d : A) (pre row : list A) (mask : list bool) :
  gather d (pre ++ row) (Np.where_from (List.length pre) mask)
  = compress mask (firstn (List.length mask) row ++ repeat d (List.length mask - List.length row)).
Proof.
  revert pre row. induction mask as [|b mask IH]; intros pre row; simpl.
  - reflexivity.
  - destruct row as [|x row]; simpl.
    + specialize (IH (pre ++ [d]) []). rewrite length_app in IH. simpl in IH.
      rewrite Nat.add_1_r in IH.
      assert (E : forall l, gather d (pre ++ []) l = gather d ((pre ++ [d]) ++ []) l).
      { intros l. unfold gather. apply map_ext. intros i.
        rewrite !app_nil_r.
        destruct (Nat.lt_ge_cases i (List.length pre)).
        - now rewrite app_nth1.
        - rewrite (nth_overflow pre) by lia.
          destruct (Nat.eq_dec i (List.length pre)) as [->|].
          + rewrite app_nth2, Nat.sub_diag by lia. reflexivity.
          + rewrite nth_overflow; [reflexivity|]. rewrite length_app. simpl. lia. }
      rewrite firstn_nil in IH. simpl in IH. rewrite Nat.sub_0_r in IH.
      destruct b; simpl.
      * f_equal.
        -- rewrite app_nil_r. now rewrite nth_overflow.
        -- rewrite E. exact IH.
      * rewrite E. exact IH.
    + specialize (IH (pre ++ [x]) row). rewrite length_app in IH. simpl in IH.
      rewrite Nat.add_1_r, <- app_assoc in IH. simpl in IH.
      destruct b; simpl.
      * f_equal; [|exact IH].
        rewrite app_nth2, Nat.sub_diag by lia. reflexivity.
      * exact IH.
Qed.

Lemma take_where {A} (row : list A) (mask : list bool) :
  List.length row = List.length mask ->
  Np.take row (Np.where_ mask) = Ok (compress mask row).
Proof.
  intros H.
  destruct row as [|d row'] eqn:E.
  - destruct mask; [reflexivity|discriminate].
  - rewrite <- E in *. rewrite (take_gather d).
    + f_equal. unfold Np.where_.
      change (gather d row (Np.where_from 0 mask))
        with (gather d ([] ++ row) (Np.where_from (List.length (@nil A)) mask)).
      rewrite gather_where_from, <- H, firstn_all, Nat.sub_diag. simpl.
      now rewrite app_nil_r.
    + eapply Forall_impl; [|apply (where_from_bound 0 mask)].
      simpl. intros; lia.
Qed.

Lemma compress_map_filter {A} (p : A -> bool) (xs : list A) :
  compress (map p xs) xs = List.filter p xs.
Proof.
  induction xs as [|x xs IH]; simpl; [reflexivity|].
  destruct (p x); now rewrite IH.
Qed.

Lemma compress_combine {A B} (mask : list bool) (xs : list A) (ys : list B) :
  compress mask (combine xs ys) = combine (compress mask xs) (compress mask ys).
Proof.
  revert xs ys. induction mask as [|b mask IH]; intros xs ys; simpl.
  - reflexivity.
  - destruct xs as [|x xs]; simpl.
    + now destruct b.
    + destruct ys as [|y ys]; simpl.
      * destruct b; simpl; [reflexivity|].
        now destruct (compress mask xs).
      * destruct b; simpl; now rewrite IH.
Qed.

Lemma compress_length_le {A} (mask : list bool) (xs : list A) :
  List.length (compress mask xs) <= List.length xs.
Proof.
  revert xs. induction mask as [|b mask IH]; intros [|x xs]; simpl; try lia.
  destruct b; simpl; specialize (IH xs); lia.
Qed.

Lemma compress_length {A B} (mask : list bool) (xs : list A) (ys : list B) :
  List.length xs = List.length ys ->
  List.length (compress mask xs) = List.length (compress mask ys).
Proof.
  revert xs ys. induction mask as [|b mask IH]; intros [|x xs] [|y ys] H;
    simpl in *; try reflexivity; try discriminate.
  destruct b; simpl; auto.
Qed.

(** *** Positions in a duplicate-free feature list *)

Lemma index_of_nth (g : string) (xs : list string) :
  In g xs -> nth_error xs (index_of g xs) = Some g.
Proof.
  induction xs as [|x xs IH]; simpl; [tauto|].
  intros H. destruct (String.eqb x g) eqn:E.
  - apply String.eqb_eq in E. now subst.
  - simpl. apply IH. destruct H as [->|H]; [|exact H].
    now rewrite String.eqb_refl in E.
Qed.

Lemma index_of_lt (g : string) (xs : list string) :
  In g xs -> index_of g xs < List.length xs.
Proof.
  intros H. apply nth_error_Some. now rewrite index_of_nth.
Qed.

Lemma index_of_inj (g h : string) (xs : list string) :
  In g xs -> In h xs -> index_of g xs = index_of h xs -> g = h.
Proof.
  intros Hg Hh E. apply index_of_nth in Hg. apply index_of_nth in Hh.
  rewrite E in Hg. congruence.
Qed.

Lemma positions_from_absent (i : nat) (xs : list string) (g : string) :
  ~ In g xs -> Pd.positions_from i xs g = [].
Proof.
  revert i. induction xs as [|x xs IH]; intros i H; simpl; [reflexivity|].
  destruct (String.eqb x g) eqn:E.
  - apply String.eqb_eq in E. subst. exfalso. apply H. now left.
  - apply IH. intros Hin. apply H. now right.
Qed.

Lemma positions_from_NoDup (i : nat) (xs : list string) (g : string) :
  NoDup xs -> In g xs -> Pd.positions_from i xs g = [i + index_of g xs].
Proof.
  revert i. induction xs as [|x xs IH]; intros i Hnd Hin; simpl; [contradiction|].
  inversion Hnd as [|? ? Hx Hnd']; subst.
  destruct (String.eqb x g) eqn:E.
  - apply String.eqb_eq in E. subst.
    rewrite positions_from_absent by assumption. now rewrite Nat.add_0_r.
  - destruct Hin as [->|Hin]; [now rewrite String.eqb_refl in E|].
    rewrite IH by assumption. f_equal. lia.
Qed.

Lemma existsb_eqb_In (g : string) (xs : list string) :
  existsb (String.eqb g) xs = true <-> In g xs.
Proof.
  rewrite existsb_exists. split.
  - intros [x [Hx E]]. apply String.eqb_eq in E. now subst.
  - intros H. exists g. split; [exact H|apply String.eqb_refl].
Qed.

Lemma concat_singletons {A} (l : list A) :
  List.concat (map (fun x => [x]) l) = l.
Proof.
  induction l as [|x l IH]; simpl; [reflexivity|now rewrite IH].
Qed.

Lemma loc_index_NoDup (xs keys : list string) :
  NoDup xs -> (forall g, In g keys -> In g xs) ->
  Pd.loc_index xs keys = Ok (map (fun g => index_of g xs) keys).
Proof.
  intros Hnd Hsub. unfold Pd.loc_index.
  rewrite (rmap_ok _ (fun g => [index_of g xs])).
  - simpl. f_equal.
    rewrite <- (concat_singletons (map (fun g => index_of g xs) keys)).
    now rewrite map_map.
  - intros g Hg. rewrite (positions_from_NoDup 0) by auto. reflexivity.
Qed.

Lemma broadcast_zip {A} (f : A -> A -> A) (m : list (list A)) (v : list A) :
  Forall (fun row => List.length row = List.length v) m ->
  Np.broadcast f m v = Ok (map (fun row => zip_with f row v) m).
Proof.
  intros H. unfold Np.broadcast. apply rmap_ok.
  intros row Hrow. rewrite Forall_forall in H. unfold Np.broadcast_row.
  rewrite (H row Hrow), Nat.eqb_refl. reflexivity.
Qed.

Lemma zip_with_length {A} (f : A -> A -> A) (x y : list A) :
  List.length x = List.length y -> List.length (zip_with f x y) = List.length y.
Proof.
  intros H. unfold zip_with. rewrite length_map, length_combine. lia.
Qed.

Lemma sum_mask_filter {A} (p : A -> bool) (xs : list A) :
  Np.sum_mask (map p xs) = List.length (List.filter p xs).
Proof.
  unfold Np.sum_mask. induction xs as [|x xs IH]; simpl; [reflexivity|].
  destruct (p x); simpl; now rewrite IH.
Qed.

(** ** The run of [celltype] on a well-formed input *)

Ltac store_simpl :=
  cbn [model self log classifier scaler description fst snd
       indata indata_genes filename obs_names
       classes_ features coef_ intercept_ n_features_in_ mean_ scale_].

Section CelltypeFacts.

Context {T : Type} {N : Num T}.

Implicit Types s : Store T.

Lemma used_genes_known s g :
  In g (used_genes s) ->
  In g (features (classifier (model s))) /\ In g (indata_genes (self s)).
Proof.
  unfold used_genes. rewrite filter_In. unfold known.
  rewrite existsb_eqb_In. tauto.
Qed.

Lemma lr_idx_bound s :
  Forall (fun i => i < List.length (features (classifier (model s))))
         (lr_idx_of s).
Proof.
  unfold lr_idx_of. rewrite Forall_map, Forall_forall.
  intros g Hg. apply index_of_lt. now apply used_genes_known in Hg.
Qed.

Lemma lr_idx_bound_le s (k : nat) :
  List.length (features (classifier (model s))) <= k ->
  Forall (fun i => i < k) (lr_idx_of s).
Proof.
  intros H. eapply Forall_impl; [|apply lr_idx_bound]. simpl. intros; lia.
Qed.

Lemma lr_idx_length s : List.length (lr_idx_of s) = List.length (used_genes s).
Proof. unfold lr_idx_of. apply length_map. Qed.

Lemma isin_known s :
  Np.isin (indata_genes (self s)) (features (classifier (model s)))
  = map (known (model s)) (indata_genes (self s)).
Proof. reflexivity. Qed.

Lemma compress_row_length s (row : list T) :
  List.length row = List.length (indata_genes (self s)) ->
  List.length (compress (map (known (model s)) (indata_genes (self s))) row)
  = List.length (lr_idx_of s).
Proof.
  intros H. rewrite lr_idx_length. unfold used_genes.
  rewrite <- compress_map_filter. now apply compress_length.
Qed.

(** On a well-formed input the first three steps succeed, and
    [score_pipeline] is the scorer called in the aligned store. *)
Lemma score_pipeline_aligned s :
  well_formed s -> score_pipeline s = predict_step (aligned s).
Proof.
  intros (Hnd & Hmean & Hscale & Hcoef & Hrows).
  set (mask := map (known (model s)) (indata_genes (self s))).
  assert (E1 : Np.take_cols (indata (self s)) (Np.where_ mask)
               = Ok (map (compress mask) (indata (self s)))).
  { unfold Np.take_cols. apply rmap_ok. intros row Hrow.
    apply take_where. rewrite Forall_forall in Hrows.
    rewrite (Hrows row Hrow). unfold mask. now rewrite length_map. }
  assert (E2 : Np.take (indata_genes (self s)) (Np.where_ mask)
               = Ok (used_genes s)).
  { rewrite take_where by (unfold mask; now rewrite length_map).
    unfold mask. now rewrite compress_map_filter. }
  assert (E3 : Pd.loc_index (features (classifier (model s))) (used_genes s)
               = Ok (lr_idx_of s)).
  { apply loc_index_NoDup; [exact Hnd|].
    intros g Hg. now apply used_genes_known in Hg. }
  assert (E4 : Np.take (mean_ (scaler (model s))) (lr_idx_of s)
               = Ok (gather zero (mean_ (scaler (model s))) (lr_idx_of s))).
  { apply take_gather. now apply lr_idx_bound_le. }
  assert (E5 : Np.take (scale_ (scaler (model s))) (lr_idx_of s)
               = Ok (gather zero (scale_ (scaler (model s))) (lr_idx_of s))).
  { apply take_gather. now apply lr_idx_bound_le. }
  assert (L1 : Forall (fun row => List.length row
                 = List.length (gather zero (mean_ (scaler (model s))) (lr_idx_of s)))
                 (map (compress mask) (indata (self s)))).
  { rewrite Forall_map. eapply Forall_impl; [|exact Hrows].
    intros row Hrow. simpl. unfold gather. rewrite length_map.
    now apply compress_row_length. }
  assert (E6 := broadcast_zip sub _ L1).
  assert (L2 : Forall (fun row => List.length row
                 = List.length (gather zero (scale_ (scaler (model s))) (lr_idx_of s)))
                 (map (fun row => zip_with sub row
                         (gather zero (mean_ (scaler (model s))) (lr_idx_of s)))
                      (map (compress mask) (indata (self s))))).
  { rewrite Forall_map. eapply Forall_impl; [|exact L1].
    intros row Hrow. simpl in *. rewrite zip_with_length by exact Hrow.
    unfold gather. now rewrite !length_map. }
  assert (E7 := broadcast_zip div _ L2).
  assert (E8 : Np.take (features (classifier (model s))) (lr_idx_of s)
               = Ok (gather EmptyString (features (classifier (model s)))
                            (lr_idx_of s))).
  { apply take_gather. apply lr_idx_bound. }
  assert (E9 : Np.take_cols (coef_ (classifier (model s))) (lr_idx_of s)
               = Ok (map (fun w => gather zero w (lr_idx_of s))
                         (coef_ (classifier (model s))))).
  { unfold Np.take_cols. apply rmap_ok. intros w Hw.
    apply take_gather. apply lr_idx_bound_le.
    rewrite Forall_forall in Hcoef. now apply Hcoef. }
  unfold score_pipeline, match_genes, scale_input, subset_model.
  unfold set_n_features_in_, set_features, set_coef_, set_classifier,
    set_indata, set_indata_genes, info, bind, get, modify, lift.
  store_simpl. rewrite isin_known. fold mask.
  rewrite E1; store_simpl. rewrite E2; store_simpl.
  rewrite E3; store_simpl. rewrite E4; store_simpl.
  rewrite E5; store_simpl. rewrite E6; store_simpl.
  rewrite E7; store_simpl. rewrite E8; store_simpl.
  rewrite E9; store_simpl.
  unfold aligned. store_simpl. rewrite isin_known. fold mask.
  assert (El : Np.sum_mask mask = List.length (used_genes s))
    by apply sum_mask_filter.
  rewrite El, !map_map, <- !app_assoc. reflexivity.
Qed.

End CelltypeFacts.

Section CelltypeRun.

Context {T : Type} {N : Num T}.

Implicit Types s : Store T.

Lemma predict_step_store s : snd (predict_step s) = logged PredictingLabels s.
Proof.
  unfold predict_step, info, bind, get, modify, lift, logged. store_simpl.
  reflexivity.
Qed.

(** [celltype] never returns: the scorer's tuple has three members and
    line 193 unpacks it into two names. *)
Lemma celltype_raises s :
  exists e, fst (celltype s) = Raise e
            /\ snd (celltype s) = snd (score_pipeline s).
Proof.
  cbv beta delta [celltype bind lift].
  destruct (score_pipeline s) as [[[[scores probs] labs]|e] s1];
    eexists; split; reflexivity.
Qed.

Lemma celltype_store s :
  well_formed s -> snd (celltype s) = logged PredictingLabels (aligned s).
Proof.
  intros H. destruct (celltype_raises s) as (e & _ & ->).
  rewrite (score_pipeline_aligned H). apply predict_step_store.
Qed.

(** The aligned store in terms of genes rather than positions. *)

Lemma gather_features s :
  gather EmptyString (features (classifier (model s))) (lr_idx_of s)
  = used_genes s.
Proof.
  unfold gather, lr_idx_of. rewrite map_map.
  rewrite <- (map_id (used_genes s)) at 2. apply map_ext_in.
  intros g Hg. apply nth_error_nth. apply index_of_nth.
  now apply used_genes_known in Hg.
Qed.

Lemma gather_at_gene s (v : list T) :
  gather zero v (lr_idx_of s) = map (at_gene (model s) v) (used_genes s).
Proof. unfold gather, lr_idx_of. now rewrite map_map. Qed.

Lemma used_columns_genes (m : Model T) (genes : list string) (row : list T) :
  List.length row = List.length genes ->
  map fst (used_columns m genes row) = List.filter (known m) genes.
Proof.
  unfold used_columns. revert row.
  induction genes as [|g genes IH]; intros [|v row] H; simpl in *;
    try reflexivity; try discriminate.
  destruct (known m g); simpl; rewrite IH by lia; reflexivity.
Qed.

Lemma used_columns_values (m : Model T) (genes : list string) (row : list T) :
  List.length row = List.length genes ->
  map snd (used_columns m genes row) = compress (map (known m) genes) row.
Proof.
  unfold used_columns. revert row.
  induction genes as [|g genes IH]; intros [|v row] H; simpl in *;
    try reflexivity; try discriminate.
  destruct (known m g); simpl; rewrite IH by lia; reflexivity.
Qed.

Lemma zip_with_maps {A} (f : T -> T -> T) (a b : A -> T) (l : list A) :
  zip_with f (map a l) (map b l) = map (fun x => f (a x) (b x)) l.
Proof.
  unfold zip_with. induction l as [|x l IH]; simpl; [reflexivity|].
  now rewrite IH.
Qed.

(** One aligned row: every used column, standardised with the mean and
    the scale that the model holds for that column's gene. *)
Lemma aligned_row s (row : list T) :
  List.length row = List.length (indata_genes (self s)) ->
  map (fun v => if gtb v ten then ten else v)
      (zip_with div
         (zip_with sub
            (compress (Np.isin (indata_genes (self s))
                               (features (classifier (model s)))) row)
            (gather zero (mean_ (scaler (model s))) (lr_idx_of s)))
         (gather zero (scale_ (scaler (model s))) (lr_idx_of s)))
  = map (fun gv => standardise (model s) (fst gv) (snd gv))
        (used_columns (model s) (indata_genes (self s)) row).
Proof.
  intros H. rewrite isin_known, !gather_at_gene.
  rewrite <- (@used_columns_values (model s) _ _ H).
  unfold used_genes. rewrite <- (@used_columns_genes (model s) _ _ H).
  rewrite !map_map.
  rewrite (zip_with_maps sub), (zip_with_maps div), map_map.
  reflexivity.
Qed.

Lemma aligned_indata s :
  well_formed s ->
  indata (self (aligned s))
  = map (fun row => map (fun gv => standardise (model s) (fst gv) (snd gv))
                        (used_columns (model s) (indata_genes (self s)) row))
        (indata (self s)).
Proof.
  intros (_ & _ & _ & _ & Hrows). unfold aligned, clip10. store_simpl.
  rewrite map_map. apply map_ext_in. intros row Hrow.
  apply aligned_row. rewrite Forall_forall in Hrows. auto.
Qed.

Lemma lr_idx_NoDup s :
  NoDup (indata_genes (self s)) -> NoDup (lr_idx_of s).
Proof.
  intros H. unfold lr_idx_of.
  apply NoDup_map_NoDup_ForallPairs.
  - intros g h Hg Hh E. apply used_genes_known in Hg, Hh.
    eapply index_of_inj; eauto; tauto.
  - unfold used_genes. now apply NoDup_filter.
Qed.

End CelltypeRun.

(** ** Gene alignment *)

Section GeneAlignment.

Context {T : Type} {N : Num T}.

Implicit Types s : Store T.

Lemma celltype_aligns_in_input_order_facts s :
  well_formed s ->
  indata_genes (self (snd (celltype s))) = used_genes s
  /\ (forall g, In g (used_genes s)
                <-> In g (features (classifier (model s)))
                    /\ In g (indata_genes (self s)))
  /\ features (classifier (model (snd (celltype s)))) = used_genes s
  /\ n_features_in_ (classifier (model (snd (celltype s))))
     = List.length (used_genes s)
  /\ coef_ (classifier (model (snd (celltype s))))
     = map (fun w => map (at_gene (model s) w) (used_genes s))
           (coef_ (classifier (model s)))
  /\ indata (self (snd (celltype s)))
     = map (fun row =>
              map (fun gv => standardise (model s) (fst gv) (snd gv))
                  (used_columns (model s) (indata_genes (self s)) row))
           (indata (self s)).
Proof.
  intros H. rewrite (celltype_store H).
  unfold logged. store_simpl.
  split; [reflexivity|].
  split.
  { intros g. unfold used_genes. rewrite filter_In. unfold known.
    rewrite existsb_eqb_In. tauto. }
  split; [unfold aligned; store_simpl; apply gather_features|].
  split; [unfold aligned; store_simpl; apply lr_idx_length|].
  split.
  { unfold aligned; store_simpl. apply map_ext.
    intros w. apply gather_at_gene. }
  now apply aligned_indata.
Qed.

(** C1 (as amended).  After [celltype] on a well-formed input, the genes
    used for scoring are exactly the genes common to the model's feature
    list and the input's gene list, kept in the order of the input's
    columns.  The model's feature list is overwritten with that same
    list, its feature count with its length, every weight row is
    re-indexed so that position [j] holds the weight of the [j]-th used
    gene, and every used input value is standardised with the mean and
    the scale that the model holds for its gene.  The positions taken
    from the model are pairwise distinct when the input's gene names
    are. *)
Theorem celltype_aligns_in_input_order s :
  well_formed s ->
  let s' := snd (celltype s) in
  indata_genes (self s') = used_genes s
  /\ (forall g, In g (used_genes s)
                <-> In g (features (classifier (model s)))
                    /\ In g (indata_genes (self s)))
  /\ features (classifier (model s')) = used_genes s
  /\ n_features_in_ (classifier (model s')) = List.length (used_genes s)
  /\ coef_ (classifier (model s'))
     = map (fun w => map (at_gene (model s) w) (used_genes s))
           (coef_ (classifier (model s)))
  /\ indata (self s')
     = map (fun row =>
              map (fun gv => standardise (model s) (fst gv) (snd gv))
                  (used_columns (model s) (indata_genes (self s)) row))
           (indata (self s))
  /\ (NoDup (indata_genes (self s)) -> NoDup (lr_idx_of s)).
Proof.
  intros H s'. subst s'.
  destruct (celltype_aligns_in_input_order_facts H)
    as (H1 & H2 & H3 & H4 & H5 & H6).
  split; [exact H1|]. split; [exact H2|]. split; [exact H3|].
  split; [exact H4|]. split; [exact H5|]. split; [exact H6|].
  apply lr_idx_NoDup.
Qed.

End GeneAlignment.

Lemma sample_swapped_well_formed : well_formed Sample.swapped.
Proof.
  unfold well_formed. simpl.
  split.
  { constructor.
    - simpl. intros [E|[]]. discriminate E.
    - constructor; [intros []|constructor]. }
  split; [lia|]. split; [lia|].
  split; repeat constructor.
Defined.

Lemma celltype_aligns_in_input_order_witness :
  well_formed Sample.swapped
  /\ indata_genes (self (snd (celltype Sample.swapped)))
     = used_genes Sample.swapped.
Proof.
  split.
  - exact sample_swapped_well_formed.
  - exact (proj1 (celltype_aligns_in_input_order sample_swapped_well_formed)).
Defined.

(** C1 as stated fails: for the model features g1, g2 and the input columns
    g2, g1 the genes used for scoring are g2, g1, the input's order, and
    not the model's order g1, g2. *)
Lemma celltype_model_order_counterexample :
  indata_genes (self (snd (celltype Sample.swapped))) = ["g2"; "g1"]%string
  /\ features (classifier (model (snd (celltype Sample.swapped))))
     = ["g2"; "g1"]%string
  /\ model_order_intersection Sample.swapped = ["g1"; "g2"]%string
  /\ indata_genes (self (snd (celltype Sample.swapped)))
     <> model_order_intersection Sample.swapped.
Proof.
  repeat split; try reflexivity.
  vm_compute. discriminate.
Qed.

(** ** The model after a run, and an input without known genes *)

Section ModelMutation.

Context {T : Type} {N : Num T}.

Implicit Types s : Store T.

Lemma predict_step_result s :
  fst (predict_step s)
  = predict_labels_and_prob (model s) (indata (self s)) "best match" half.
Proof.
  unfold predict_step, info, bind, get, modify, lift. store_simpl.
  reflexivity.
Qed.

Lemma score_pipeline_result s :
  well_formed s ->
  fst (score_pipeline s)
  = predict_labels_and_prob (model (snd (celltype s)))
                            (indata (self (snd (celltype s))))
                            "best match" half.
Proof.
  intros H. rewrite (celltype_store H), (score_pipeline_aligned H).
  rewrite predict_step_result. reflexivity.
Qed.

(** C8.  [celltype] overwrites the model object it was given: after the
    call (which ends in an exception, see [celltype_raises]) the feature
    list of the model's classifier is the list of used genes, its weight
    rows are cut down and re-ordered to those genes, and its feature count
    is their number, while the scaler keeps its full vectors.  The object
    is therefore spent: a gene that the model was trained on but that the
    first input lacked is no longer known to it, so a second classifier
    built on the same object ignores that gene although a freshly loaded
    model would use it. *)
Theorem celltype_overwrites_model s :
  well_formed s ->
  let m' := model (snd (celltype s)) in
  features (classifier m') = used_genes s
  /\ coef_ (classifier m')
     = map (fun w => map (at_gene (model s) w) (used_genes s))
           (coef_ (classifier (model s)))
  /\ n_features_in_ (classifier m') = List.length (used_genes s)
  /\ scaler m' = scaler (model s)
  /\ forall (c2 : Classifier T) (g : string),
       In g (features (classifier (model s))) ->
       ~ In g (indata_genes (self s)) ->
       In g (indata_genes c2) ->
       In g (used_genes (fresh_run s c2))
       /\ ~ In g (used_genes (second_run s c2)).
Proof.
  intros H m'.
  destruct (celltype_aligns_in_input_order_facts H) as (_ & Hin & Hf & Hn & Hc).
  subst m'.
  split; [exact Hf|]. split; [exact (proj1 Hc)|]. split; [exact Hn|].
  split; [rewrite (celltype_store H); reflexivity|].
  intros c2 g Hg Hnot Hc2. split.
  - unfold used_genes, fresh_run, known. store_simpl.
    rewrite filter_In, existsb_eqb_In. tauto.
  - unfold used_genes at 1, second_run, known. store_simpl.
    rewrite filter_In, existsb_eqb_In, Hf.
    intros [_ Hg']. apply Hin in Hg'. tauto.
Qed.

(** C7 (as amended).  When no input gene is known to the model,
    [celltype] makes no check of its own: it goes through rescaling, which
    leaves every cell without columns, overwrites the model's feature
    list, weight rows and feature count with empty ones, and calls the
    scorer on that.  The run ends in a [ValueError] only there or
    later. *)
Theorem celltype_without_overlap s :
  well_formed s ->
  used_genes s = [] ->
  let s' := snd (celltype s) in
  log s' = log s ++ [MatchingGenes; FeaturesUsed 0; ScalingInput;
                     PredictingLabels]
  /\ indata (self s') = map (fun _ => []) (indata (self s))
  /\ features (classifier (model s')) = []
  /\ coef_ (classifier (model s'))
     = map (fun _ => []) (coef_ (classifier (model s)))
  /\ n_features_in_ (classifier (model s')) = 0
  /\ fst (score_pipeline s)
     = predict_labels_and_prob (model s') (indata (self s'))
                               "best match" half
  /\ exists msg, fst (celltype s) = Raise (ValueError msg).
Proof.
  intros H E s'.
  destruct (celltype_aligns_in_input_order_facts H) as (_ & _ & Hf & Hn & Hc & Hx).
  assert (Hs' : s' = logged PredictingLabels (aligned s))
    by (subst s'; now apply celltype_store).
  assert (Hres := score_pipeline_result H). fold s' in Hf, Hn, Hc, Hx, Hres.
  rewrite E in Hf, Hn, Hc. simpl in Hn.
  assert (Hx' : indata (self s') = map (fun _ => []) (indata (self s))).
  { rewrite Hx. apply map_ext_in. intros row Hrow.
    destruct H as (_ & _ & _ & _ & Hrows). rewrite Forall_forall in Hrows.
    assert (E' : map fst (used_columns (model s) (indata_genes (self s)) row)
                 = used_genes s)
      by (apply used_columns_genes; auto).
    rewrite E in E'.
    destruct (used_columns (model s) (indata_genes (self s)) row);
      [reflexivity|discriminate]. }
  split.
  { rewrite Hs'. unfold logged, aligned. store_simpl.
    rewrite E, <- app_assoc. reflexivity. }
  split; [exact Hx'|]. split; [exact Hf|]. split; [exact Hc|].
  split; [exact Hn|]. split; [exact Hres|].
  cbv beta delta [celltype bind lift].
  destruct (score_pipeline s) as [[[[scores probs] labs]|e] s1] eqn:Es.
  - eexists. reflexivity.
  - simpl in Hres. rewrite Hx' in Hres.
    unfold predict_labels_and_prob, decision_function in Hres.
    destruct (indata (self s)) as [|row rows]; simpl in Hres;
      inversion Hres; eexists; reflexivity.
Qed.

End ModelMutation.

Ltac sample_well_formed :=
  unfold well_formed; simpl;
  split;
  [ constructor;
    [ simpl; intros [E|[]]; discriminate E
    | constructor; [intros []|constructor] ]
  | split; [lia|]; split; [lia|]; split; repeat constructor ].

Lemma sample_only_g2_well_formed : well_formed Sample.only_g2.
Proof. sample_well_formed. Defined.

Lemma sample_disjoint_well_formed : well_formed Sample.disjoint.
Proof. sample_well_formed. Defined.

Lemma celltype_overwrites_model_witness :
  well_formed Sample.only_g2
  /\ features (classifier (model (snd (celltype Sample.only_g2))))
     = used_genes Sample.only_g2.
Proof.
  split.
  - exact sample_only_g2_well_formed.
  - exact (proj1 (celltype_overwrites_model sample_only_g2_well_formed)).
Defined.

(** The spent model in numbers: after a run on an input that has only g2,
    the model keeps the weights of g2 in column 0 while its scaler still
    holds the mean and scale of g1 there, so a second input with both genes
    is scored from g2 alone, standardised with the parameters of g1. *)
Example reused_model_scores_differ :
  let c2 := Sample.input ["g1"; "g2"]%string [[2; 5]]%Z in
  fst (score_pipeline (fresh_run Sample.only_g2 c2))
  = Ok ([[2; 2; -4]], [[833; 833; 100]], ["A"%string])%Z
  /\ fst (score_pipeline (second_run Sample.only_g2 c2))
     = Ok ([[0; 5; -5]], [[500; 916; 83]], ["B"%string])%Z.
Proof. split; vm_compute; reflexivity. Qed.

Lemma celltype_without_overlap_witness :
  well_formed Sample.disjoint
  /\ used_genes Sample.disjoint = []
  /\ features (classifier (model (snd (celltype Sample.disjoint)))) = [].
Proof.
  split; [exact sample_disjoint_well_formed|].
  split; [reflexivity|].
  exact (proj1 (proj2 (proj2
           (celltype_without_overlap sample_disjoint_well_formed eq_refl)))).
Defined.

(** C7 as stated fails: on an input that shares no gene with the model the
    run is not stopped before rescaling.  The log shows the rescaling and
    the call of the scorer, the cell has been rescaled to no columns, and
    the model's feature list and weight rows have been emptied. *)
Lemma celltype_without_overlap_counterexample :
  let s' := snd (celltype Sample.disjoint) in
  model_order_intersection Sample.disjoint = []
  /\ log s' = [MatchingGenes; FeaturesUsed 0; ScalingInput; PredictingLabels]
  /\ indata (self s') = [[]]
  /\ features (classifier (model s')) = []
  /\ coef_ (classifier (model s')) = [[]; []; []]
  /\ model s' <> model Sample.disjoint.
Proof.
  repeat split; try reflexivity.
  vm_compute. discriminate.
Qed.

(** ** The first largest entry *)

Section ArgmaxFacts.

Context {A : Type} (gt : A -> A -> bool).

Hypothesis gt_irrefl : forall a, gt a a = false.
Hypothesis gt_trans :
  forall a b c, gt a b = true -> gt b c = true -> gt a c = true.
Hypothesis gt_tot : forall a b, gt a b = true \/ a = b \/ gt b a = true.

Lemma gt_below (v w x : A) : gt v w = true -> gt x w = false -> gt v x = true.
Proof.
  intros Hvw Hxw. destruct (gt_tot v x) as [H|[H|H]]; [exact H| |].
  - subst. congruence.
  - rewrite (gt_trans H Hvw) in Hxw. discriminate.
Qed.

(** The scan keeps the first largest entry of what it has read. *)
Lemma argmax_from_first_max (pre row : list A) (best : nat) :
  first_max gt pre best ->
  forall vbest, nth_error pre best = Some vbest ->
  first_max gt (pre ++ row)
            (Np.argmax_from gt best vbest (List.length pre) row).
Proof.
  revert pre best. induction row as [|v row IH]; intros pre best Hfm vbest Hb.
  - simpl. now rewrite app_nil_r.
  - simpl. destruct Hfm as (v0 & Hv0 & Hmax & Hfirst).
    assert (v0 = vbest) by congruence. subst v0.
    replace (pre ++ v :: row) with ((pre ++ [v]) ++ row)
      by (rewrite <- app_assoc; reflexivity).
    replace (S (List.length pre)) with (List.length (pre ++ [v]))
      by (rewrite length_app; simpl; lia).
    assert (Hlt : best < List.length pre)
      by (apply nth_error_Some; congruence).
    destruct (gt v vbest) eqn:Hgt.
    + apply IH.
      * exists v. split; [|split].
        -- rewrite nth_error_app2, Nat.sub_diag by lia. reflexivity.
        -- intros j x Hj.
           destruct (Nat.lt_ge_cases j (List.length pre)) as [Hl|Hl].
           ++ rewrite nth_error_app1 in Hj by exact Hl.
              destruct (gt x v) eqn:Hxv; [|reflexivity].
              assert (Hc := Hmax j x Hj).
              rewrite (gt_trans Hxv Hgt) in Hc. discriminate Hc.
           ++ rewrite nth_error_app2 in Hj by exact Hl.
              destruct (j - List.length pre) as [|n] eqn:En; simpl in Hj.
              ** inversion Hj. subst. apply gt_irrefl.
              ** destruct n; discriminate.
        -- intros j x Hl Hj. rewrite nth_error_app1 in Hj by exact Hl.
           exact (gt_below Hgt (Hmax j x Hj)).
      * rewrite nth_error_app2, Nat.sub_diag by lia. reflexivity.
    + apply IH.
      * exists vbest. split; [|split].
        -- rewrite nth_error_app1 by exact Hlt. exact Hb.
        -- intros j x Hj.
           destruct (Nat.lt_ge_cases j (List.length pre)) as [Hl|Hl].
           ++ rewrite nth_error_app1 in Hj by exact Hl. eauto.
           ++ rewrite nth_error_app2 in Hj by exact Hl.
              destruct (j - List.length pre) as [|n] eqn:En; simpl in Hj.
              ** inversion Hj. subst. exact Hgt.
              ** destruct n; discriminate.
        -- intros j x Hl Hj.
           rewrite nth_error_app1 in Hj by lia. eauto.
      * rewrite nth_error_app1 by exact Hlt. exact Hb.
Qed.

Lemma argmax_first_max (row : list A) (k : nat) :
  Np.argmax gt row = Ok k -> first_max gt row k.
Proof.
  destruct row as [|v row]; simpl; [discriminate|].
  intros H. inversion H; subst.
  apply (@argmax_from_first_max [v] row 0); [|reflexivity].
  exists v. split; [reflexivity|]. split.
  - intros [|[|j]] x Hj; simpl in Hj; try discriminate.
    inversion Hj. subst. apply gt_irrefl.
  - intros j x Hl. lia.
Qed.

Lemma argmax_ok (row : list A) :
  row <> [] -> exists k, Np.argmax gt row = Ok k.
Proof.
  destruct row as [|v row]; [congruence|]. intros _. simpl. eauto.
Qed.

Lemma first_max_lt (row : list A) (k : nat) :
  first_max gt row k -> k < List.length row.
Proof.
  intros (v & Hv & _). apply nth_error_Some. congruence.
Qed.

(** A first largest entry is the strict maximum when there is one. *)
Lemma first_max_strict (row : list A) (k k' : nat) (v' : A) :
  first_max gt row k ->
  nth_error row k' = Some v' ->
  (forall j x, j <> k' -> nth_error row j = Some x -> gt v' x = true) ->
  k = k'.
Proof.
  intros (v & Hv & Hmax & _) Hv' Hstrict.
  destruct (Nat.eq_dec k k') as [E|E]; [exact E|].
  assert (Hc := Hmax k' v' Hv').
  rewrite (Hstrict k v E Hv) in Hc. discriminate Hc.
Qed.

End ArgmaxFacts.

Lemma Forall2_nth_error_l {A B} (P : A -> B -> Prop) (l : list A) (l' : list B)
    (i : nat) (a : A) :
  Forall2 P l l' -> nth_error l i = Some a ->
  exists b, nth_error l' i = Some b /\ P a b.
Proof.
  intros H. revert i. induction H as [|x y l l' Hxy H IH]; intros i Hi.
  - destruct i; discriminate.
  - destruct i as [|i]; simpl in *.
    + inversion Hi; subst. eauto.
    + auto.
Qed.

(** ** Scoring and the best-match label *)

Section BestMatch.

Context {T : Type} {N : Num T}.

Lemma dot_ok (x w : list T) :
  List.length x = List.length w -> dot x w = Ok (dot_sum x w).
Proof. intros H. unfold dot. rewrite H, Nat.eqb_refl. reflexivity. Qed.

Lemma check_array_ok (m : Model T) (x : matrix T) :
  scorable m x -> check_array x = Ok tt.
Proof.
  intros (Hx & Hn & Hrows & _).
  destruct x as [|row x]; [congruence|].
  inversion Hrows as [|? ? Hrow _]; subst.
  destruct row; [simpl in Hrow; lia|reflexivity].
Qed.

Lemma decision_function_ok (m : Model T) (x : matrix T) :
  scorable m x ->
  decision_function (classifier m) x = Ok (map (score_row m) x).
Proof.
  intros H. unfold decision_function. rewrite (check_array_ok H). simpl.
  destruct H as (_ & _ & Hrows & Hcoef & _ & Hint & _).
  rewrite (rmap_ok _ (fun r => map (dot_sum r) (coef_ (classifier m)))).
  - simpl. rewrite broadcast_zip.
    + now rewrite map_map.
    + rewrite Forall_map, Forall_forall. intros r _.
      now rewrite length_map.
  - intros r Hr. apply rmap_ok. intros w Hw. apply dot_ok.
    rewrite Forall_forall in Hrows, Hcoef.
    now rewrite (Hrows r Hr), (Hcoef w Hw).
Qed.

Lemma score_row_length (m : Model T) (r : list T) :
  List.length (intercept_ (classifier m)) = List.length (coef_ (classifier m)) ->
  List.length (score_row m r) = List.length (coef_ (classifier m)).
Proof.
  intros H. unfold score_row. rewrite zip_with_length; [exact H|].
  now rewrite length_map.
Qed.

Hypothesis Hirr : @gt_irreflexive T N.
Hypothesis Htrans : @gt_transitive T N.
Hypothesis Htot : @gt_total T N.

(** What the best-match branch returns for an input the scorer accepts:
    per cell, the class name at the first largest score. *)
Lemma best_match_labels (m : Model T) (x : matrix T) (p_thres : T) :
  scorable m x ->
  several_weight_rows m ->
  exists idx,
    predict_labels_and_prob m x "best match" p_thres
    = Ok (map (score_row m) x,
          map (map expit) (map (score_row m) x),
          gather EmptyString (classes_ (classifier m)) idx)
    /\ Forall2 (first_max gtb) (map (score_row m) x) idx.
Proof.
  intros H Hsev. unfold predict_labels_and_prob.
  rewrite (decision_function_ok H). simpl.
  rewrite (proj2 (Nat.eqb_neq _ _) Hsev).
  destruct H as (_ & _ & _ & _ & Hne & Hint & Hcls).
  assert (Hidx : exists idx, rmap (Np.argmax gtb) (map (score_row m) x) = Ok idx).
  { induction x as [|r x IH]; simpl; [eauto|].
    destruct (@argmax_ok _ gtb (score_row m r)) as [k Hk].
    - intros E. apply (f_equal (@List.length T)) in E.
      rewrite (score_row_length _ _ Hint) in E.
      destruct (coef_ (classifier m)); [congruence|discriminate].
    - destruct IH as [idx Hidx]. rewrite Hk, Hidx. simpl. eauto. }
  destruct Hidx as [idx Hidx]. exists idx. rewrite Hidx. simpl.
  assert (Hfm : Forall2 (first_max gtb) (map (score_row m) x) idx).
  { apply rmap_inv in Hidx. eapply Forall2_impl; [|exact Hidx].
    intros r k Hk. now apply argmax_first_max. }
  split; [|exact Hfm].
  rewrite (take_gather EmptyString); [reflexivity|].
  clear Hidx. remember (map (score_row m) x) as scores eqn:Es.
  assert (Hlen : Forall (fun r => List.length r
                                  = List.length (coef_ (classifier m))) scores).
  { subst scores. rewrite Forall_map, Forall_forall.
    intros r _. now apply score_row_length. }
  clear Es. induction Hfm as [|r k scores idx Hrk Hfm IH]; [constructor|].
  inversion Hlen; subst. constructor; [|auto].
  apply first_max_lt in Hrk. lia.
Qed.



End BestMatch.

(** The integers satisfy the order laws. *)

Lemma Z_gt_irreflexive : @gt_irreflexive Z ZNum.
Proof. intros a. simpl. rewrite Z.gtb_ltb. apply Z.ltb_irrefl. Qed.

Lemma Z_gt_transitive : @gt_transitive Z ZNum.
Proof.
  intros a b c. simpl. rewrite !Z.gtb_ltb, !Z.ltb_lt. lia.
Qed.

Lemma Z_gt_total : @gt_total Z ZNum.
Proof.
  intros a b. simpl. rewrite !Z.gtb_ltb, !Z.ltb_lt. lia.
Qed.

Lemma sample_scorable (row : list Z) :
  List.length row = 2 -> scorable Sample.toy_model [row].
Proof.
  intros H. unfold scorable. simpl.
  split; [discriminate|]. split; [lia|].
  split; [repeat constructor; exact H|].
  split; [repeat constructor|].
  split; [discriminate|]. split; [reflexivity|]. lia.
Defined.

Lemma sample_several_rows : several_weight_rows Sample.toy_model.
Proof. unfold several_weight_rows. simpl. lia. Defined.



(** The specification's worked example, and a tie: the classes A and B both
    score 1 and the cell is labelled A. *)
Example best_match_worked_example :
  predict_labels_and_prob Sample.toy_model [[2; 0]; [1; 1]]%Z "best match" 500%Z
  = Ok ([[2; 0; -2]; [1; 1; -2]], [[833; 500; 166]; [750; 750; 166]],
        ["A"; "A"]%string)%Z.
Proof. vm_compute. reflexivity. Qed.

(** ** The prob-match label *)

Lemma take_where_le {A} (row : list A) (mask : list bool) :
  List.length mask <= List.length row ->
  Np.take row (Np.where_ mask) = Ok (compress mask row).
Proof.
  intros H.
  destruct row as [|d row'] eqn:E.
  - destruct mask; [reflexivity|simpl in H; lia].
  - rewrite <- E in *. rewrite (take_gather d).
    + f_equal. unfold Np.where_.
      change (gather d row (Np.where_from 0 mask))
        with (gather d ([] ++ row) (Np.where_from (List.length (@nil A)) mask)).
      rewrite gather_where_from.
      replace (List.length mask - List.length row) with 0 by lia.
      simpl. rewrite app_nil_r. clear E.
      revert row H. induction mask as [|b mask IH]; intros [|x row] H;
        simpl in *; try reflexivity; try lia.
      rewrite IH by lia. reflexivity.
    + eapply Forall_impl; [|apply (where_from_bound 0 mask)].
      simpl. intros; lia.
Qed.

Section ProbMatch.

Context {T : Type} {N : Num T}.

(** What the prob-match branch returns for an input the scorer accepts. *)
Lemma prob_match_labels (m : Model T) (x : matrix T) (p_thres : T) :
  scorable m x ->
  predict_labels_and_prob m x "prob match" p_thres
  = Ok (map (score_row m) x,
        map (map expit) (map (score_row m) x),
        fill_unassigned (map (joined_label m p_thres) (map (score_row m) x))).
Proof.
  intros H. unfold predict_labels_and_prob.
  rewrite (decision_function_ok H). simpl.
  destruct H as (_ & _ & _ & _ & _ & Hint & Hcls).
  rewrite (rmap_ok _ (fun flags =>
                        String.concat "|"
                          (compress flags (classes_ (classifier m))))).
  - simpl. do 3 f_equal. rewrite !map_map. apply map_ext.
    intros r. unfold joined_label. now rewrite map_map.
  - intros flags Hf. rewrite !map_map in Hf. apply in_map_iff in Hf.
    destruct Hf as (r & <- & _).
    rewrite take_where_le; [reflexivity|].
    rewrite !length_map, (score_row_length _ _ Hint). exact Hcls.
Qed.

End ProbMatch.

(** The sentinel survives the store into the label array exactly when the
    array is at least ten characters wide, that is, when some cell of the
    batch has a joined label of ten characters or more. *)
Lemma sentinel_whole_iff (w : nat) :
  store_str w "Unassigned" = "Unassigned"%string <-> 10 <= w.
Proof.
  unfold store_str. split.
  - intros H. do 10 (destruct w as [|w]; [discriminate H|]). lia.
  - intros H. do 10 (destruct w as [|w]; [lia|]). simpl.
    destruct w; reflexivity.
Qed.

Lemma fill_unassigned_nth (labs : list string) (i : nat) (l : string) :
  nth_error labs i = Some l ->
  nth_error (fill_unassigned labs) i
  = Some (if String.eqb l "" then store_str (itemsize labs) "Unassigned" else l).
Proof.
  intros H. unfold fill_unassigned. now rewrite nth_error_map, H.
Qed.

(** The logistic function against one half, over the reals. *)

Lemma expit_above_half (v : R) :
  (0 < v)%R -> @gtb R RNum (expit v) half = true.
Proof.
  intros H. simpl. destruct (Rlt_dec (1 / 2) (/ (1 + exp (- v)))) as [_|Hn];
    [reflexivity|].
  exfalso. apply Hn.
  assert (H0 : (0 < exp (- v))%R) by apply exp_pos.
  assert (H1 : (exp (- v) < 1)%R).
  { rewrite <- exp_0. apply exp_increasing. lra. }
  replace (1 / 2)%R with (/ 2)%R by lra.
  apply Rinv_lt_contravar; [|lra].
  apply Rmult_lt_0_compat; lra.
Qed.

Lemma expit_not_above_half (v : R) :
  (v <= 0)%R -> @gtb R RNum (expit v) half = false.
Proof.
  intros H. simpl. destruct (Rlt_dec (1 / 2) (/ (1 + exp (- v)))) as [Hl|_];
    [|reflexivity].
  exfalso.
  assert (H1 : (1 <= exp (- v))%R).
  { rewrite <- exp_0. destruct (Req_dec v 0) as [->|Hv].
    - rewrite Ropp_0. lra.
    - left. apply exp_increasing. lra. }
  assert (H2 : (/ (1 + exp (- v)) <= / 2)%R)
    by (apply Rinv_le_contravar; lra).
  lra.
Qed.

Lemma sample_scorable_R (x : matrix R) :
  x <> [] -> Forall (fun row => List.length row = 2) x ->
  scorable Sample.toy_model_R x.
Proof.
  intros Hx H. unfold scorable. simpl.
  split; [exact Hx|]. split; [lia|]. split; [exact H|].
  split; [repeat constructor|].
  split; [discriminate|]. split; [reflexivity|]. lia.
Qed.

(** C4 is right and the code misses it.  With the model of the
    specification's example and the threshold 0.5, a cell with the rescaled
    values (0, 0) has the scores (0, 0, 0) and so no class probability above
    the threshold; next to a cell labelled A it is labelled U, not
    Unassigned: the labels are held in an array as wide as its longest
    label, and the sentinel stored into it is cut to that width. *)
Theorem prob_match_unassigned_is_cut :
  exists scores probs,
    predict_labels_and_prob Sample.toy_model_R [[2; 0]; [0; 0]]%R
                            "prob match" (1 / 2)%R
    = Ok (scores, probs, ["A"; "U"]%string)
    /\ scores = [[2; 0; -2]; [0; 0; 0]]%R
    /\ (forall row, nth_error probs 1 = Some row ->
                    Forall (fun q => @gtb R RNum q (1 / 2)%R = false) row).
Proof.
  assert (Hs : scorable Sample.toy_model_R [[2; 0]; [0; 0]]%R)
    by (apply sample_scorable_R; [discriminate|repeat constructor]).
  do 2 eexists. rewrite (prob_match_labels (1 / 2)%R Hs).
  assert (E1 : score_row Sample.toy_model_R [2; 0]%R = [2; 0; -2]%R).
  { unfold score_row, dot_sum, zip_with. simpl. repeat f_equal; lra. }
  assert (E2 : score_row Sample.toy_model_R [0; 0]%R = [0; 0; 0]%R).
  { unfold score_row, dot_sum, zip_with. simpl. repeat f_equal; lra. }
  simpl map. rewrite E1, E2.
  assert (A2 := @expit_above_half 2). assert (B0 := @expit_not_above_half 0).
  assert (Bm := @expit_not_above_half (-2)). simpl in A2, B0, Bm.
  assert (L1 : joined_label Sample.toy_model_R (1 / 2)%R [2; 0; -2]%R = "A"%string).
  { unfold joined_label. simpl map.
    rewrite A2, B0, Bm by lra. reflexivity. }
  assert (L2 : joined_label Sample.toy_model_R (1 / 2)%R [0; 0; 0]%R = ""%string).
  { unfold joined_label. simpl map. rewrite !B0 by lra. reflexivity. }
  rewrite L1, L2.
  split; [reflexivity|]. split; [reflexivity|].
  intros row Hrow. simpl in Hrow. inversion Hrow; subst.
  repeat apply Forall_cons; try apply Forall_nil;
    apply expit_not_above_half; unfold dot_sum; simpl; lra.
Qed.

(** ** Permuting the input's columns *)

Lemma filter_permutation {A} (f : A -> bool) (l l' : list A) :
  Permutation l l' -> Permutation (List.filter f l) (List.filter f l').
Proof.
  induction 1 as [|x l l' _ IH|x y l|l l' l'' _ IH1 _ IH2]; simpl.
  - constructor.
  - destruct (f x); [now constructor|exact IH].
  - destruct (f x), (f y); try reflexivity. apply perm_swap.
  - now transitivity (List.filter f l').
Qed.

Section Permuted.

Context {T : Type} {N : Num T}.

Implicit Types s : Store T.

Hypothesis Hcomm : @add_commutative T N.
Hypothesis Hassoc : @add_associative T N.

Lemma fold_add_permutation (l l' : list T) :
  Permutation l l' -> fold_right add zero l = fold_right add zero l'.
Proof.
  induction 1 as [|x l l' _ IH|x y l|l l' l'' _ IH1 _ IH2]; simpl.
  - reflexivity.
  - now rewrite IH.
  - rewrite !Hassoc. now rewrite (Hcomm y x).
  - now rewrite IH1.
Qed.

Lemma combine_gather (genes : list string) (row : list T) (p : list nat) :
  combine (gather EmptyString genes p) (gather zero row p)
  = map (fun i => (nth i genes EmptyString, nth i row zero)) p.
Proof.
  unfold gather. induction p as [|i p IH]; simpl; [reflexivity|].
  now rewrite IH.
Qed.

Lemma combine_seq (genes : list string) (row : list T) :
  List.length row = List.length genes ->
  combine genes row
  = map (fun i => (nth i genes EmptyString, nth i row zero))
        (seq 0 (List.length genes)).
Proof.
  revert row. induction genes as [|g genes IH]; intros [|v row] H;
    simpl in *; try reflexivity; try discriminate.
  f_equal. rewrite <- seq_shift, map_map. apply IH. lia.
Qed.

Lemma used_columns_permutation (m : Model T) (genes : list string)
    (row : list T) (p : list nat) :
  List.length row = List.length genes ->
  Permutation p (seq 0 (List.length genes)) ->
  Permutation (used_columns m (gather EmptyString genes p) (gather zero row p))
              (used_columns m genes row).
Proof.
  intros Hlen Hp. unfold used_columns.
  rewrite combine_gather, (@combine_seq genes row Hlen).
  apply filter_permutation. now apply Permutation_map.
Qed.

(** A cell's score for a class does not depend on the order of the
    input's columns. *)
Lemma gene_sum_permutation (m : Model T) (genes : list string)
    (w row : list T) (p : list nat) :
  List.length row = List.length genes ->
  Permutation p (seq 0 (List.length genes)) ->
  gene_sum m (gather EmptyString genes p) w (gather zero row p)
  = gene_sum m genes w row.
Proof.
  intros Hlen Hp. unfold gene_sum. apply fold_add_permutation.
  apply Permutation_map. now apply used_columns_permutation.
Qed.

End Permuted.

Lemma rmap_map {A B C} (f : B -> result C) (g : A -> B) (l : list A) :
  rmap f (map g l) = rmap (fun a => f (g a)) l.
Proof.
  induction l as [|a l IH]; simpl; [reflexivity|]. now rewrite IH.
Qed.

Lemma gather_seq {A} (d : A) (l : list A) :
  gather d l (seq 0 (List.length l)) = l.
Proof.
  unfold gather. induction l as [|x l IH]; simpl; [reflexivity|].
  f_equal. rewrite <- seq_shift, map_map. exact IH.
Qed.

Lemma gather_permutation {A} (d : A) (l : list A) (p : list nat) :
  Permutation p (seq 0 (List.length l)) -> Permutation (gather d l p) l.
Proof.
  intros H. rewrite <- (gather_seq d l) at 2. unfold gather.
  now apply Permutation_map.
Qed.

Section AlignedScores.

Context {T : Type} {N : Num T}.

Implicit Types s : Store T.

Lemma dot_sum_maps {A} (f g : A -> T) (l : list A) :
  dot_sum (map f l) (map g l)
  = fold_right add zero (map (fun a => mul (f a) (g a)) l).
Proof.
  unfold dot_sum. induction l as [|a l IH]; simpl; [reflexivity|].
  now rewrite IH.
Qed.

(** The products that the scorer forms in the aligned store are the sums
    over the used columns of the input. *)
Lemma aligned_products s :
  well_formed s ->
  rmap (fun x => rmap (dot x) (coef_ (classifier (model (aligned s)))))
       (indata (self (aligned s)))
  = Ok (map (fun row =>
               map (fun w => gene_sum (model s) (indata_genes (self s)) w row)
                   (coef_ (classifier (model s))))
            (indata (self s))).
Proof.
  intros H. rewrite (aligned_indata H), rmap_map.
  destruct H as (_ & _ & _ & _ & Hrows). rewrite Forall_forall in Hrows.
  apply rmap_ok. intros row Hrow.
  unfold aligned. store_simpl. rewrite rmap_map. apply rmap_ok.
  intros w _. rewrite gather_at_gene.
  assert (E : used_genes s
              = map fst (used_columns (model s) (indata_genes (self s)) row))
    by (symmetry; apply used_columns_genes; auto).
  rewrite E, map_map. rewrite dot_ok by now rewrite !length_map.
  now rewrite dot_sum_maps.
Qed.

Lemma check_array_aligned s :
  well_formed s ->
  check_array (indata (self (aligned s)))
  = match indata (self s), used_genes s with
    | [], _ => Raise (ValueError "Found array with 0 sample(s) while a minimum of 1 is required")
    | _ :: _, [] => Raise (ValueError "Found array with 0 feature(s) while a minimum of 1 is required")
    | _ :: _, _ :: _ => Ok tt
    end.
Proof.
  intros H. rewrite (aligned_indata H).
  destruct H as (_ & _ & _ & _ & Hrows).
  destruct (indata (self s)) as [|row x]; [reflexivity|].
  inversion Hrows as [|? ? Hrow _]; subst. simpl.
  assert (E : map fst (used_columns (model s) (indata_genes (self s)) row)
              = used_genes s)
    by (apply used_columns_genes; auto).
  destruct (used_columns (model s) (indata_genes (self s)) row);
    destruct (used_genes s); try discriminate; reflexivity.
Qed.

(** The scores of the pipeline, written over the input. *)
Lemma score_pipeline_scores s :
  well_formed s ->
  decision_function (classifier (model (aligned s)))
                    (indata (self (aligned s)))
  = (try! _ <- check_array (indata (self (aligned s))) in
     Np.broadcast add
       (map (fun row =>
               map (fun w => gene_sum (model s) (indata_genes (self s)) w row)
                   (coef_ (classifier (model s))))
            (indata (self s)))
       (intercept_ (classifier (model s)))).
Proof.
  intros H. unfold decision_function.
  destruct (check_array (indata (self (aligned s)))); [|reflexivity].
  cbv beta iota delta [rbind]. rewrite (aligned_products H). reflexivity.
Qed.

Lemma predict_depends_on (m1 m2 : Model T) (x1 x2 : matrix T)
    (mode : string) (p_thres : T) :
  decision_function (classifier m1) x1 = decision_function (classifier m2) x2 ->
  classes_ (classifier m1) = classes_ (classifier m2) ->
  List.length (coef_ (classifier m1)) = List.length (coef_ (classifier m2)) ->
  predict_labels_and_prob m1 x1 mode p_thres
  = predict_labels_and_prob m2 x2 mode p_thres.
Proof.
  intros Hd Hc Hn. unfold predict_labels_and_prob. now rewrite Hd, Hc, Hn.
Qed.

Lemma permute_input_well_formed (p : list nat) s :
  well_formed s ->
  List.length p = List.length (indata_genes (self s)) ->
  well_formed (permute_input p s).
Proof.
  intros (H1 & H2 & H3 & H4 & H5) Hp. unfold well_formed, permute_input.
  store_simpl. repeat (split; [assumption|]).
  rewrite Forall_map, Forall_forall. intros row _.
  unfold gather. now rewrite !length_map.
Qed.

End AlignedScores.

Lemma argmax_from_lt {A} (gt : A -> A -> bool) (row : list A)
    (best i : nat) (vbest : A) :
  best < i -> Np.argmax_from gt best vbest i row < i + List.length row.
Proof.
  revert best i vbest. induction row as [|v row IH]; intros best i vbest H; simpl.
  - lia.
  - destruct (gt v vbest).
    + specialize (IH i (S i) v). lia.
    + specialize (IH best (S i) vbest). lia.
Qed.

Lemma argmax_lt {A} (gt : A -> A -> bool) (row : list A) (k : nat) :
  Np.argmax gt row = Ok k -> k < List.length row.
Proof.
  destruct row as [|v row]; simpl; [discriminate|].
  intros H. inversion H; subst.
  assert (L := @argmax_from_lt _ gt row 0 1 v). lia.
Qed.

Section Returns.

Context {T : Type} {N : Num T}.

Implicit Types s : Store T.

(** The best-match branch returns on every input the scorer accepts. *)
Lemma best_match_returns (m : Model T) (x : matrix T) (p_thres : T) :
  scorable m x ->
  several_weight_rows m ->
  exists labs,
    predict_labels_and_prob m x "best match" p_thres
    = Ok (map (score_row m) x, map (map expit) (map (score_row m) x), labs).
Proof.
  intros H Hsev. unfold predict_labels_and_prob.
  rewrite (decision_function_ok H). simpl.
  rewrite (proj2 (Nat.eqb_neq _ _) Hsev).
  destruct H as (_ & _ & _ & _ & Hne & Hint & Hcls).
  assert (Hidx : exists idx,
             rmap (Np.argmax gtb) (map (score_row m) x) = Ok idx
             /\ Forall (fun k => k < List.length (classes_ (classifier m))) idx).
  { induction x as [|r x IH]; simpl; [eauto|].
    destruct (@argmax_ok _ gtb (score_row m r)) as [k Hk].
    - intros E. apply (f_equal (@List.length T)) in E.
      rewrite (score_row_length _ _ Hint) in E.
      destruct (coef_ (classifier m)); [congruence|discriminate].
    - destruct IH as (idx & Hidx & Hall). rewrite Hk, Hidx. simpl.
      eexists. split; [reflexivity|]. constructor; [|exact Hall].
      apply argmax_lt in Hk. rewrite (score_row_length _ _ Hint) in Hk. lia. }
  destruct Hidx as (idx & Hidx & Hall). rewrite Hidx. simpl.
  rewrite (take_gather EmptyString _ Hall). simpl. eauto.
Qed.

Lemma aligned_scorable s :
  predictable s -> scorable (model (aligned s)) (indata (self (aligned s))).
Proof.
  intros (H & Hx & Hu & Hc & Hint & Hcls).
  unfold scorable. rewrite (aligned_indata H).
  unfold aligned. store_simpl. rewrite lr_idx_length.
  destruct H as (_ & _ & _ & _ & Hrows).
  split.
  { destruct (indata (self s)); [congruence|discriminate]. }
  split.
  { destruct (used_genes s); [congruence|simpl; lia]. }
  split.
  { rewrite Forall_map. eapply Forall_impl; [|exact Hrows].
    intros row Hrow. simpl. rewrite length_map.
    rewrite <- (length_map fst), used_columns_genes by exact Hrow.
    reflexivity. }
  split.
  { rewrite Forall_map, Forall_forall. intros w _.
    unfold gather. rewrite length_map. apply lr_idx_length. }
  split.
  { destruct (coef_ (classifier (model s))); [congruence|discriminate]. }
  split; [now rewrite length_map|now rewrite length_map].
Qed.

End Returns.

Section PermutedPipeline.

Context {T : Type} {N : Num T}.

Implicit Types s : Store T.

Hypothesis Hcomm : @add_commutative T N.
Hypothesis Hassoc : @add_associative T N.

Lemma used_genes_permute (p : list nat) s :
  Permutation p (seq 0 (List.length (indata_genes (self s)))) ->
  Permutation (used_genes (permute_input p s)) (used_genes s).
Proof.
  intros Hp. unfold used_genes, permute_input. store_simpl.
  apply filter_permutation. now apply gather_permutation.
Qed.


End PermutedPipeline.

Lemma Z_add_commutative : @add_commutative Z ZNum.
Proof. intros a b. apply Z.add_comm. Qed.

Lemma Z_add_associative : @add_associative Z ZNum.
Proof. intros a b c. apply Z.add_assoc. Qed.

Lemma sample_straight_well_formed : well_formed Sample.straight.
Proof. sample_well_formed. Defined.


(** The two sample inputs hold the same cells with the columns swapped:
    the pipeline gives the same scores, probabilities and labels. *)
Example swapped_columns_same_scores :
  fst (score_pipeline Sample.swapped)
  = Ok ([[2; 2; -4]; [9; 0; -9]], [[833; 833; 100]; [950; 500; 50]],
        ["A"; "A"]%string)%Z
  /\ fst (score_pipeline Sample.straight) = fst (score_pipeline Sample.swapped).
Proof. split; vm_compute; reflexivity. Qed.


(** ** Sorted row labels and counts *)

Lemma str_lt_trans (a b c : string) : str_lt a b -> str_lt b c -> str_lt a c.
Proof.
  unfold str_lt, String.ltb. intros H1 H2.
  destruct (String.compare a b) eqn:E1; try discriminate.
  destruct (String.compare b c) eqn:E2; try discriminate.
  apply OrderedTypeEx.String_as_OT.cmp_lt in E1, E2.
  assert (E3 := @OrderedTypeEx.String_as_OT.lt_trans a b c E1 E2).
  apply OrderedTypeEx.String_as_OT.cmp_lt in E3. unfold OrderedTypeEx.String_as_OT.cmp in E3.
  now rewrite E3.
Qed.

Lemma compare_gt_lt (a b : string) : String.compare a b = Gt -> str_lt b a.
Proof.
  intros H. unfold str_lt, String.ltb.
  rewrite String.compare_antisym, H. reflexivity.
Qed.

Lemma insert_unique_In (x y : string) (l : list string) :
  In y (Pd.insert_unique x l) <-> y = x \/ In y l.
Proof.
  induction l as [|z l IH]; simpl.
  - intuition.
  - destruct (String.compare x z) eqn:E; simpl.
    + apply String.compare_eq_iff in E. subst. intuition.
    + intuition.
    + rewrite IH. intuition.
Qed.

Lemma sorted_unique_In (y : string) (l : list string) :
  In y (Pd.sorted_unique l) <-> In y l.
Proof.
  unfold Pd.sorted_unique. induction l as [|x l IH]; simpl; [tauto|].
  rewrite insert_unique_In, IH. intuition.
Qed.

Lemma insert_unique_sorted (x : string) (l : list string) :
  StronglySorted str_lt l -> StronglySorted str_lt (Pd.insert_unique x l).
Proof.
  induction 1 as [|z l Hs IH Hz]; simpl.
  - repeat constructor.
  - destruct (String.compare x z) eqn:E.
    + now constructor.
    + assert (Hxz : str_lt x z) by (unfold str_lt, String.ltb; now rewrite E).
      constructor; [now constructor|].
      constructor; [exact Hxz|].
      eapply Forall_impl; [|exact Hz]. intros a Ha. simpl in Ha.
      eapply str_lt_trans; eauto.
    + constructor; [exact IH|].
      rewrite Forall_forall. intros a Ha. apply insert_unique_In in Ha.
      destruct Ha as [->|Ha]; [now apply compare_gt_lt|].
      rewrite Forall_forall in Hz. auto.
Qed.

Lemma sorted_unique_sorted (l : list string) :
  StronglySorted str_lt (Pd.sorted_unique l).
Proof.
  unfold Pd.sorted_unique. induction l as [|x l IH]; simpl.
  - constructor.
  - now apply insert_unique_sorted.
Qed.

Lemma StronglySorted_nth_error {A} (R : A -> A -> Prop) (l : list A)
    (i j : nat) (a b : A) :
  StronglySorted R l -> i < j ->
  nth_error l i = Some a -> nth_error l j = Some b -> R a b.
Proof.
  intros H. revert i j. induction H as [|x l Hs IH Hx]; intros i j Hij Hi Hj.
  - destruct i; discriminate.
  - destruct j as [|j]; [lia|]. simpl in Hj.
    destruct i as [|i]; simpl in Hi.
    + inversion Hi; subst. rewrite Forall_forall in Hx.
      apply Hx. eapply nth_error_In; eauto.
    + apply (IH i j); auto. lia.
Qed.

Lemma count_pair_pos (rs cs : list string) (r c : string) :
  In (r, c) (combine rs cs) -> 1 <= Pd.count_pair rs cs r c.
Proof.
  intros H. unfold Pd.count_pair.
  assert (Hf : In (r, c) (List.filter
                            (fun p => String.eqb (fst p) r && String.eqb (snd p) c)
                            (combine rs cs))).
  { apply filter_In. split; [exact H|]. simpl. now rewrite !String.eqb_refl. }
  destruct (List.filter _ (combine rs cs)); [contradiction|simpl; lia].
Qed.

Lemma count_pair_In (rs cs : list string) (r c : string) :
  1 <= Pd.count_pair rs cs r c -> In r rs.
Proof.
  unfold Pd.count_pair. intros H.
  destruct (List.filter _ (combine rs cs)) as [|[r' c'] l] eqn:E;
    [simpl in H; lia|].
  assert (Hin : In (r', c') (List.filter
                   (fun p => String.eqb (fst p) r && String.eqb (snd p) c)
                   (combine rs cs))) by (rewrite E; now left).
  apply filter_In in Hin. destruct Hin as [Hin Hb]. simpl in Hb.
  apply andb_true_iff in Hb. destruct Hb as [Hb _].
  apply String.eqb_eq in Hb. subst. eapply in_combine_l; eauto.
Qed.

Lemma in_combine_exists_l {A B} (xs : list A) (ys : list B) (y : B) :
  List.length xs = List.length ys -> In y ys -> exists x, In (x, y) (combine xs ys).
Proof.
  revert ys. induction xs as [|x xs IH]; intros [|y' ys] H Hin;
    simpl in *; try contradiction; try discriminate.
  destruct Hin as [->|Hin]; [eauto|].
  destruct (IH ys) as [x' Hx']; auto.
  eauto.
Qed.

Lemma in_combine_exists_r {A B} (xs : list A) (ys : list B) (x : A) :
  List.length xs = List.length ys -> In x xs -> exists y, In (x, y) (combine xs ys).
Proof.
  revert ys. induction xs as [|x' xs IH]; intros [|y ys] H Hin;
    simpl in *; try contradiction; try discriminate.
  destruct Hin as [->|Hin]; [eauto|].
  destruct (IH ys) as [y' Hy']; auto.
  eauto.
Qed.

(** Counts under [count_gt] are strictly and totally ordered. *)

Lemma count_gt_irrefl (a : nat) : count_gt a a = false.
Proof. unfold count_gt. apply Nat.ltb_irrefl. Qed.

Lemma count_gt_trans (a b c : nat) :
  count_gt a b = true -> count_gt b c = true -> count_gt a c = true.
Proof. unfold count_gt. rewrite !Nat.ltb_lt. lia. Qed.

Lemma count_gt_total (a b : nat) :
  count_gt a b = true \/ a = b \/ count_gt b a = true.
Proof. unfold count_gt. rewrite !Nat.ltb_lt. lia. Qed.

(** ** The cross tabulation and its column maxima *)

Lemma in_combine_seq {A} (a : nat) (l : list A) (j : nat) (x : A) :
  In (j, x) (combine (seq a (List.length l)) l) ->
  a <= j /\ nth_error l (j - a) = Some x.
Proof.
  revert a. induction l as [|y l IH]; intros a H; simpl in H; [contradiction|].
  destruct H as [H|H].
  - inversion H; subst. rewrite Nat.sub_diag. split; [lia|reflexivity].
  - apply IH in H. destruct H as [Hle Hn]. split; [lia|].
    replace (j - a) with (S (j - S a)) by lia. exact Hn.
Qed.

Lemma map_snd_combine_seq {A} (a : nat) (l : list A) :
  map snd (combine (seq a (List.length l)) l) = l.
Proof.
  revert a. induction l as [|y l IH]; intros a; simpl; [reflexivity|].
  now rewrite IH.
Qed.

Lemma sorted_unique_nonempty (l : list string) :
  l <> [] -> Pd.sorted_unique l <> [].
Proof.
  destruct l as [|x l]; [congruence|]. intros _ E.
  assert (H : In x (Pd.sorted_unique (x :: l)))
    by (apply sorted_unique_In; now left).
  rewrite E in H. contradiction.
Qed.

Lemma idxmax_columns (t : Pd.Crosstab) :
  Pd.ct_columns t <> [] ->
  Pd.idxmax t
  = rmap (fun jc =>
            try! col <- rmap (fun row => Np.item row (fst jc)) (Pd.ct_counts t) in
            try! i <- Np.argmax (fun a b => Nat.ltb b a) col in
            try! r <- Np.item (Pd.ct_index t) i in
            Ok (snd jc, r))
         (combine (seq 0 (List.length (Pd.ct_columns t))) (Pd.ct_columns t)).
Proof.
  intros H. unfold Pd.idxmax.
  destruct (Pd.ct_columns t); [congruence|reflexivity].
Qed.

(** The cross tabulation of no cells is an empty table, and [idxmax]
    raises on it. *)
Lemma idxmax_crosstab_empty :
  exists t, Pd.crosstab [] [] = Ok t
            /\ Pd.idxmax t
               = Raise (ValueError "attempt to get argmax of an empty sequence").
Proof. eexists. split; reflexivity. Qed.

Lemma idxmax_crosstab (labels clusters : list string) :
  List.length labels = List.length clusters ->
  labels <> [] ->
  exists t,
    Pd.crosstab labels clusters = Ok t
    /\ Pd.idxmax t
       = Ok (map (fun c => (c, winner labels clusters c))
                 (Pd.sorted_unique clusters)).
Proof.
  intros Hlen Hne. unfold Pd.crosstab. rewrite Hlen, Nat.eqb_refl.
  eexists. split; [reflexivity|].
  rewrite idxmax_columns.
  2:{ simpl. apply sorted_unique_nonempty. intros E. subst clusters.
      destruct labels; [congruence|discriminate]. }
  simpl.
  set (rows := Pd.sorted_unique labels).
  set (cols := Pd.sorted_unique clusters).
  assert (Ecols : map (fun c => (c, winner labels clusters c)) cols
              = map (fun jc => (snd jc, winner labels clusters (snd jc)))
                    (combine (seq 0 (List.length cols)) cols)).
  { rewrite <- (map_map snd (fun c => (c, winner labels clusters c))).
    now rewrite map_snd_combine_seq. }
  rewrite Ecols.
  apply rmap_ok. intros [j c] Hjc. simpl.
  apply in_combine_seq in Hjc. destruct Hjc as [_ Hj].
  rewrite Nat.sub_0_r in Hj.
  rewrite rmap_map.
  rewrite (rmap_ok _ (fun r => Pd.count_pair labels clusters r c)).
  - simpl. unfold winner. fold rows.
    change (fun a b : nat => (b <? a)%nat) with count_gt.
    destruct (Np.argmax count_gt
                (map (fun r => Pd.count_pair labels clusters r c) rows))
      as [i|e] eqn:Ea.
    + simpl. apply argmax_lt in Ea. rewrite length_map in Ea.
      rewrite (item_nth EmptyString) by exact Ea. reflexivity.
    + exfalso.
      assert (Hc : In c clusters).
      { apply sorted_unique_In. eapply nth_error_In; eauto. }
      assert (Hr : rows <> []).
      { apply sorted_unique_nonempty. intros E. subst labels.
        destruct clusters; [contradiction|discriminate]. }
      destruct rows; [congruence|discriminate].
  - intros r _. unfold Np.item. rewrite nth_error_map, Hj. reflexivity.
Qed.

Lemma series_get_map (f : string -> string) (keys : list string) (c : string) :
  In c keys -> Pd.series_get (map (fun k => (k, f k)) keys) c = Ok (f c).
Proof.
  induction keys as [|k keys IH]; simpl; [contradiction|].
  intros H. destruct (String.eqb k c) eqn:E.
  - apply String.eqb_eq in E. now subst.
  - apply IH. destruct H as [->|H]; [|exact H].
    now rewrite String.eqb_refl in E.
Qed.

(** ** Joining frames *)

Lemma existsb_disjoint (left right : list string) :
  disjoint_columns left right ->
  existsb (fun c => existsb (String.eqb c) right) left = false.
Proof.
  intros H. destruct (existsb _ left) eqn:E; [|reflexivity].
  apply existsb_exists in E. destruct E as (c & Hc & Hr).
  apply existsb_eqb_In in Hr. exfalso. exact (H c Hc Hr).
Qed.

Lemma filter_key_unique {V} (full : list (string * V)) (k : string) (r : V) :
  NoDup (map fst full) -> In (k, r) full ->
  List.filter (fun kw => String.eqb (fst kw) k) full = [(k, r)].
Proof.
  induction full as [|[k' r'] full IH]; simpl; [contradiction|].
  intros Hnd Hin. inversion Hnd as [|? ? Hk' Hnd']; subst.
  destruct (String.eqb k' k) eqn:E.
  - apply String.eqb_eq in E. subst k'.
    destruct Hin as [Hin|Hin].
    + inversion Hin; subst. f_equal.
      assert (Hno : forall kw, In kw full -> String.eqb (fst kw) k = false).
      { intros kw Hkw. destruct (String.eqb (fst kw) k) eqn:E'; [|reflexivity].
        apply String.eqb_eq in E'. exfalso. apply Hk'. rewrite <- E'.
        now apply in_map. }
      clear - Hno. induction full as [|kw full IH]; simpl; [reflexivity|].
      rewrite (Hno kw (or_introl eq_refl)). apply IH.
      intros; apply Hno; now right.
    + exfalso. apply Hk'. change k with (fst (k, r)). now apply in_map.
  - destruct Hin as [Hin|Hin].
    + inversion Hin; subst. now rewrite String.eqb_refl in E.
    + now apply IH.
Qed.

Lemma map_fst_combine {A B} (xs : list A) (ys : list B) :
  List.length xs = List.length ys -> map fst (combine xs ys) = xs.
Proof.
  revert ys. induction xs as [|x xs IH]; intros [|y ys] H; simpl in *;
    try reflexivity; try discriminate.
  f_equal. apply IH. lia.
Qed.

Section JoinFacts.

Context {V : Type} (na : V).

(** Joining two frames with the same duplicate-free row labels extends
    every row of the left one by the row of the right one. *)
Lemma join_same_index (left right : DataFrame V) :
  disjoint_columns (columns left) (columns right) ->
  index right = index left ->
  NoDup (index left) ->
  List.length (index left) = List.length (values left) ->
  List.length (index left) = List.length (values right) ->
  Pd.join na left right
  = Ok {| index := index left;
          columns := columns left ++ columns right;
          values := map (fun lr => fst lr ++ snd lr)
                        (combine (values left) (values right)) |}.
Proof.
  intros Hd Hidx Hnd Hl Hr. unfold Pd.join.
  rewrite (existsb_disjoint Hd), Hidx.
  set (full := combine (index left) (values right)).
  assert (Hfull : NoDup (map fst full))
    by (unfold full; now rewrite map_fst_combine).
  assert (Hgen : forall idx lv rv,
             List.length idx = List.length lv ->
             List.length idx = List.length rv ->
             (forall kr, In kr (combine idx rv) -> In kr full) ->
             flat_map
               (fun kv =>
                  match List.filter (fun kw => String.eqb (fst kw) (fst kv)) full with
                  | [] => [(fst kv, snd kv ++ repeat na (List.length (columns right)))]
                  | ms => map (fun kw => (fst kv, snd kv ++ snd kw)) ms
                  end)
               (combine idx lv)
             = map (fun t => (fst t, fst (snd t) ++ snd (snd t)))
                   (combine idx (combine lv rv))).
  { induction idx as [|k idx IH]; intros [|l lv] [|r rv] H1 H2 Hsub;
      simpl in *; try reflexivity; try discriminate.
    rewrite (@filter_key_unique _ full k r Hfull (Hsub (k, r) (or_introl eq_refl))).
    simpl. f_equal. apply IH; try lia.
    intros kr Hkr. apply Hsub. now right. }
  rewrite (Hgen (index left) (values left) (values right) Hl Hr)
    by (intros kr Hkr; exact Hkr).
  f_equal. f_equal.
  - rewrite map_map. simpl.
    rewrite <- (map_fst_combine (index left) (combine (values left) (values right))) at 2.
    + reflexivity.
    + rewrite length_combine. lia.
  - rewrite map_map. simpl.
    assert (Hc : List.length (index left)
                 = List.length (combine (values left) (values right)))
      by (rewrite length_combine; lia).
    clear - Hc. revert Hc.
    generalize (combine (values left) (values right)) as lr.
    generalize (index left) as idx.
    induction idx as [|k idx IH]; intros [|x lr] H; simpl in *;
      try reflexivity; try discriminate.
    f_equal. apply IH. lia.
Qed.

(** Without that assumption the join still returns, and every row it
    returns is a row of the left frame extended by a row of the right
    one, as long as every row label of the left frame labels some row of
    the right one. *)
Lemma join_rows (left right : DataFrame V) :
  disjoint_columns (columns left) (columns right) ->
  (forall kv, In kv (combine (index left) (values left)) ->
              exists r, In (fst kv, r) (combine (index right) (values right))) ->
  exists j,
    Pd.join na left right = Ok j
    /\ columns j = columns left ++ columns right
    /\ forall row, In row (values j) ->
                   exists l r, row = l ++ r
                               /\ In l (values left) /\ In r (values right).
Proof.
  intros Hd Hmatch. unfold Pd.join. rewrite (existsb_disjoint Hd).
  eexists. split; [reflexivity|]. split; [reflexivity|].
  simpl. intros row Hrow. apply in_map_iff in Hrow.
  destruct Hrow as ([k row'] & <- & Hin). simpl.
  apply in_flat_map in Hin. destruct Hin as ([k' l] & Hkl & Hin).
  simpl in Hin.
  destruct (List.filter (fun kw => String.eqb (fst kw) k')
                        (combine (index right) (values right)))
    as [|m ms] eqn:Ef.
  - exfalso. destruct (Hmatch _ Hkl) as [r Hr]. simpl in Hr.
    assert (Hf : In (k', r) (List.filter (fun kw => String.eqb (fst kw) k')
                               (combine (index right) (values right)))).
    { apply filter_In. split; [exact Hr|]. apply String.eqb_refl. }
    rewrite Ef in Hf. contradiction.
  - assert (Hms : forall kw, In kw (m :: ms) -> In (snd kw) (values right)).
    { intros [k2 r] Hkw. rewrite <- Ef in Hkw. apply filter_In in Hkw.
      destruct Hkw as [Hkw _]. simpl. eapply in_combine_r; eauto. }
    assert (Hl : In l (values left)) by (eapply in_combine_r; eauto).
    destruct Hin as [Heq|Hin].
    + inversion Heq; subst. exists l, (snd m). split; [reflexivity|].
      split; [exact Hl|]. apply Hms. now left.
    + apply in_map_iff in Hin. destruct Hin as (kw & Heq & Hkw).
      inversion Heq; subst. exists l, (snd kw). split; [reflexivity|].
      split; [exact Hl|]. apply Hms. now right.
Qed.

End JoinFacts.

(** ** The majority vote *)

Lemma winner_spec (labels clusters : list string) (c : string) :
  List.length labels = List.length clusters ->
  In c clusters ->
  In (winner labels clusters c) labels
  /\ (forall l, Pd.count_pair labels clusters l c
                <= Pd.count_pair labels clusters (winner labels clusters c) c)
  /\ (forall l, Pd.count_pair labels clusters l c
                = Pd.count_pair labels clusters (winner labels clusters c) c ->
                l = winner labels clusters c
                \/ str_lt (winner labels clusters c) l).
Proof.
  intros Hlen Hc.
  set (rows := Pd.sorted_unique labels).
  set (col := map (fun r => Pd.count_pair labels clusters r c) rows).
  destruct (in_combine_exists_l labels clusters c Hlen Hc) as [l0 Hl0].
  assert (Hl0r : In l0 rows)
    by (apply sorted_unique_In; eapply in_combine_l; eauto).
  assert (Hne : col <> []).
  { unfold col. destruct rows; [contradiction|discriminate]. }
  destruct (argmax_ok count_gt Hne) as [k Hk].
  assert (Hfm : first_max count_gt col k)
    by (apply argmax_first_max;
        [apply count_gt_irrefl|apply count_gt_trans|apply count_gt_total
        |exact Hk]).
  assert (Hw : winner labels clusters c = nth k rows EmptyString).
  { unfold winner. fold rows. fold col. now rewrite Hk. }
  assert (Hkl : k < List.length rows).
  { apply argmax_lt in Hk. unfold col in Hk. now rewrite length_map in Hk. }
  assert (Hkr : nth_error rows k = Some (winner labels clusters c)).
  { rewrite Hw. now apply nth_error_nth'. }
  destruct Hfm as (v & Hv & Hmax & Hfirst).
  assert (Ev : v = Pd.count_pair labels clusters (winner labels clusters c) c).
  { unfold col in Hv. rewrite nth_error_map, Hkr in Hv. simpl in Hv.
    congruence. }
  assert (Hcol : forall l j, nth_error rows j = Some l ->
                             nth_error col j
                             = Some (Pd.count_pair labels clusters l c)).
  { intros l j Hj. unfold col. now rewrite nth_error_map, Hj. }
  assert (Hle : forall l, In l rows -> Pd.count_pair labels clusters l c <= v).
  { intros l Hl. apply In_nth_error in Hl. destruct Hl as [j Hj].
    assert (Hg := Hmax j _ (Hcol l j Hj)). unfold count_gt in Hg.
    apply Nat.ltb_ge in Hg. exact Hg. }
  assert (Hpos : 1 <= v).
  { assert (H1 := count_pair_pos _ _ _ _ Hl0). specialize (Hle l0 Hl0r). lia. }
  split; [|split].
  - apply sorted_unique_In. eapply nth_error_In; eauto.
  - intros l. rewrite <- Ev.
    destruct (Nat.eq_dec (Pd.count_pair labels clusters l c) 0) as [E|E];
      [lia|].
    apply Hle. apply sorted_unique_In.
    apply (count_pair_In labels clusters l c). lia.
  - intros l El. rewrite <- Ev in El.
    assert (Hl : In l rows).
    { apply sorted_unique_In. apply (count_pair_In labels clusters l c). lia. }
    apply In_nth_error in Hl. destruct Hl as [j Hj].
    destruct (Nat.lt_trichotomy j k) as [Hjk|[Hjk|Hjk]].
    + exfalso. assert (Hg := Hfirst j _ Hjk (Hcol l j Hj)).
      unfold count_gt in Hg. apply Nat.ltb_lt in Hg. lia.
    + left. subst j. congruence.
    + right. eapply StronglySorted_nth_error;
        [apply sorted_unique_sorted|exact Hjk|exact Hkr|exact Hj].
Qed.

Section MajorityVoteFacts.

Context {T : Type} {N : Num T}.

Lemma column_length (df : DataFrame string) (name : string)
    (labels : list string) :
  Pd.column df name = Ok labels ->
  List.length labels = List.length (values df).
Proof.
  unfold Pd.column. destruct (Pd.column_position (columns df) name);
    [|discriminate].
  apply rmap_length.
Qed.

(** The run of [majority_vote] up to the join. *)
Lemma majority_vote_run (predictions : AnnotationResult T)
    (over_clustering labels : list string) (st : Store T) :
  Pd.column (predicted_labels predictions) "predicted_labels" = Ok labels ->
  List.length over_clustering = List.length labels ->
  List.length (index (predicted_labels predictions))
  = List.length (values (predicted_labels predictions)) ->
  labels <> [] ->
  majority_vote predictions over_clustering st
  = match Pd.join "nan"%string (predicted_labels predictions)
            (majority_frame (index (predicted_labels predictions))
                            labels over_clustering) with
    | Ok joined =>
        (Ok {| predicted_labels := joined;
               probability_table := probability_table predictions;
               cell_count := cell_count predictions |},
         logged MajorityVotingDone (logged MajorityVoting st))
    | Raise e => (Raise e, logged MajorityVoting st)
    end.
Proof.
  intros Hcol Hlen Hidx Hcells.
  assert (Hv := column_length _ _ Hcol).
  destruct (@idxmax_crosstab labels over_clustering (eq_sym Hlen) Hcells)
    as (t & Ht & Hmax).
  assert (Hpick : rmap (fun c =>
                          try! l <- Pd.series_get
                                      (map (fun c => (c, winner labels over_clustering c))
                                           (Pd.sorted_unique over_clustering)) c in
                          Ok [c; l]) over_clustering
                  = Ok (map (fun c => [c; winner labels over_clustering c])
                            over_clustering)).
  { apply rmap_ok. intros c Hc.
    rewrite series_get_map by (now apply sorted_unique_In). reflexivity. }
  unfold majority_vote, bind, info, lift, modify, ret.
  rewrite Hcol, Ht, Hmax, Hpick.
  unfold Pd.set_index. cbn [values index columns].
  rewrite length_map, Hidx, Hlen, Hv, Nat.eqb_refl.
  cbn [values index columns]. unfold majority_frame.
  destruct (Pd.join "nan"%string (predicted_labels predictions) _);
    reflexivity.
Qed.

(** Without cells the cross tabulation is empty and [idxmax] raises. *)
Lemma majority_vote_no_cells (predictions : AnnotationResult T)
    (st : Store T) :
  Pd.column (predicted_labels predictions) "predicted_labels" = Ok [] ->
  majority_vote predictions [] st
  = (Raise (ValueError "attempt to get argmax of an empty sequence"),
     logged MajorityVoting st).
Proof.
  intros Hcol. unfold majority_vote, bind, info, lift, modify, ret.
  rewrite Hcol. reflexivity.
Qed.

End MajorityVoteFacts.

Lemma column_position_app (xs ys : list string) (name : string) (j : nat) :
  Pd.column_position xs name = Some j ->
  Pd.column_position (xs ++ ys) name = Some j.
Proof.
  revert j. induction xs as [|x xs IH]; intros j; simpl; [discriminate|].
  destruct (String.eqb x name); [auto|].
  destruct (Pd.column_position xs name) as [i|]; simpl; [|discriminate].
  intros H. now rewrite (IH i eq_refl).
Qed.

Lemma column_extended {V} (df : DataFrame V) (cols2 : list string)
    (rv : list (list V)) (idx : list string) (name : string) (vals : list V) :
  Pd.column df name = Ok vals ->
  List.length rv = List.length (values df) ->
  Pd.column {| index := idx;
               columns := columns df ++ cols2;
               values := map (fun lr => fst lr ++ snd lr)
                             (combine (values df) rv) |} name
  = Ok vals.
Proof.
  unfold Pd.column. simpl.
  destruct (Pd.column_position (columns df) name) as [j|] eqn:E; [|discriminate].
  rewrite (column_position_app _ cols2 _ E).
  generalize (values df) as lv. clear E. intros lv. revert rv vals.
  induction lv as [|l lv IH]; intros [|r rv] vals H Hlen; simpl in *;
    try discriminate; [exact H|].
  destruct (Np.item l j) as [x|] eqn:Ex; simpl in H; [|discriminate].
  destruct (rmap (fun row => Np.item row j) lv) as [xs|] eqn:Exs;
    simpl in H; [|discriminate].
  assert (Ex' : Np.item (l ++ r) j = Ok x).
  { unfold Np.item in *. destruct (nth_error l j) as [y|] eqn:Ey; [|discriminate].
    rewrite nth_error_app1 by (apply nth_error_Some; congruence).
    now rewrite Ey. }
  rewrite Ex'. simpl. rewrite (IH rv xs eq_refl) by lia. exact H.
Qed.

Lemma combine_map_snd {A B C} (f : B -> C) (xs : list A) (ys : list B) :
  combine xs (map f ys) = map (fun p => (fst p, f (snd p))) (combine xs ys).
Proof.
  revert ys. induction xs as [|x xs IH]; intros [|y ys]; simpl;
    try reflexivity.
  now rewrite IH.
Qed.

Section MajorityVoteClaims.

Context {T : Type} {N : Num T}.

Variables (predictions : AnnotationResult T)
          (over_clustering labels : list string) (st : Store T).

Hypothesis Hcol :
  Pd.column (predicted_labels predictions) "predicted_labels" = Ok labels.
Hypothesis Hlen : List.length over_clustering = List.length labels.
Hypothesis Hidx :
  List.length (index (predicted_labels predictions))
  = List.length (values (predicted_labels predictions)).
Hypothesis Hnew :
  disjoint_columns (columns (predicted_labels predictions))
                   ["over_clustering"; "majority_voting"]%string.
Hypothesis Hcells : labels <> [].


Hypothesis Hnd : NoDup (index (predicted_labels predictions)).

(** C6, as amended.  On predictions of at least one cell, with distinct
    cell names, [majority_vote] changes
    nothing but the table of predicted labels, and that only by two more
    columns: the probability table and the cell count are those of the
    argument, the cells and their order are kept, the columns are the old
    ones followed by over_clustering and majority_voting, every row is
    the old row followed by two values, the first being the cell's
    cluster, and every column the table had, predicted_labels among them,
    reads as before. *)
Theorem majority_vote_keeps_predictions :
  exists result,
    fst (majority_vote predictions over_clustering st) = Ok result
    /\ probability_table result = probability_table predictions
    /\ cell_count result = cell_count predictions
    /\ index (predicted_labels result) = index (predicted_labels predictions)
    /\ columns (predicted_labels result)
       = columns (predicted_labels predictions)
         ++ ["over_clustering"; "majority_voting"]%string
    /\ values (predicted_labels result)
       = map (fun rc => fst rc
                        ++ [snd rc; winner labels over_clustering (snd rc)])
             (combine (values (predicted_labels predictions))
                      over_clustering)
    /\ (forall name vals,
          Pd.column (predicted_labels predictions) name = Ok vals ->
          Pd.column (predicted_labels result) name = Ok vals).
Proof.
  assert (Hv := column_length _ _ Hcol).
  rewrite (@majority_vote_run _ predictions over_clustering labels st
             Hcol Hlen Hidx Hcells).
  rewrite (join_same_index "nan"%string (predicted_labels predictions)
             (majority_frame (index (predicted_labels predictions))
                             labels over_clustering));
    [|exact Hnew|reflexivity|exact Hnd|exact Hidx
     |simpl; rewrite length_map; lia].
  eexists. split; [reflexivity|]. simpl.
  repeat (split; [reflexivity|]).
  split.
  - rewrite combine_map_snd, map_map. reflexivity.
  - intros name vals Hname. apply column_extended; [exact Hname|].
    rewrite length_map. lia.
Qed.

End MajorityVoteClaims.

Lemma sample_new_columns :
  disjoint_columns (columns (predicted_labels Sample.predictions))
                   ["over_clustering"; "majority_voting"]%string.
Proof.
  intros c [<-|[]] [H|[H|[]]]; discriminate H.
Defined.

Lemma sample_cells_distinct : NoDup (index (predicted_labels Sample.predictions)).
Proof.
  simpl. repeat constructor; simpl; intuition discriminate.
Defined.

Lemma sample_has_cells : ["T"; "B"; "B"; "T"; "NK"]%string <> [].
Proof. discriminate. Defined.


Lemma majority_vote_keeps_predictions_witness :
  NoDup (index (predicted_labels Sample.predictions))
  /\ exists result,
       fst (majority_vote Sample.predictions Sample.clusters Sample.straight)
       = Ok result
       /\ probability_table result = probability_table Sample.predictions.
Proof.
  split; [exact sample_cells_distinct|].
  destruct (@majority_vote_keeps_predictions
              Z Sample.predictions Sample.clusters
              ["T"; "B"; "B"; "T"; "NK"]%string Sample.straight
              eq_refl eq_refl eq_refl sample_new_columns sample_has_cells
              sample_cells_distinct)
    as (result & H & Hp & _).
  exists result. split; [exact H|exact Hp].
Defined.

(** C6 as stated fails where cell names repeat.  For two cells of the
    name c, a T cell in cluster 0 and a B cell in cluster 1, the index
    join pairs every row of the name with every other: the table of the
    result has four rows for the two cells, its predicted_labels column
    reads T, T, B, B where it read T, B, and each cell appears in both
    clusters with both majority labels.  The probability table and the
    cell count still are those of two cells. *)
Lemma majority_vote_repeated_names_counterexample :
  Pd.column (predicted_labels Sample.same_name) "predicted_labels"
  = Ok ["T"; "B"]%string
  /\ List.length Sample.two_clusters = 2
  /\ exists result,
       fst (majority_vote Sample.same_name Sample.two_clusters Sample.straight)
       = Ok result
       /\ Pd.column (predicted_labels result) "predicted_labels"
          = Ok ["T"; "T"; "B"; "B"]%string
       /\ Pd.column (predicted_labels result) "predicted_labels"
          <> Pd.column (predicted_labels Sample.same_name) "predicted_labels"
       /\ index (predicted_labels result) = ["c"; "c"; "c"; "c"]%string
       /\ values (predicted_labels result)
          = [["T"; "0"; "T"]; ["T"; "1"; "B"];
             ["B"; "0"; "T"]; ["B"; "1"; "B"]]%string
       /\ probability_table result = probability_table Sample.same_name
       /\ cell_count result = 2.
Proof.
  split; [reflexivity|]. split; [reflexivity|].
  eexists. split; [vm_compute; reflexivity|].
  split; [reflexivity|]. split; [discriminate|].
  repeat split; reflexivity.
Qed.

(** The sample vote: cluster 1 holds one T and one B cell, cluster 0 one B,
    one T and one NK cell; both ties go to B, the lowest label. *)
Example majority_vote_sample :
  option_map (fun r => values (predicted_labels r))
             (match fst (majority_vote Sample.predictions Sample.clusters
                                       Sample.straight) with
              | Ok r => Some r
              | Raise _ => None
              end)
  = Some [["T"; "1"; "B"]; ["B"; "1"; "B"]; ["B"; "0"; "B"];
          ["T"; "0"; "B"]; ["NK"; "0"; "B"]]%string.
Proof. vm_compute. reflexivity. Qed.

(** ** Downloading models *)

Section DownloadFacts.

Import Download.

(** One guarded fetch: the request is made, and whether it succeeds or
    fails the step ends normally. *)
Lemma guarded_fetch (path : string) (m : entry) (w : World) :
  exists w1,
    try_except (fetch_to path (url m))
               (fun e => Download.info (DownloadFailed (filename m) e)) w
    = (Ok tt, w1)
    /\ requested w1 = requested w ++ [url m].
Proof.
  unfold try_except, fetch_to, write_file, requests_get, Download.info,
    bind, modify, get, lift.
  cbn [files remote requested log fst snd].
  destruct (remote w (url m)); eexists; split; reflexivity.
Qed.

Lemma loop_body (force_update : bool) (model_count idx : nat)
    (m : entry) (w : World) :
  exists w1,
    (if path_exists (get_model_path (filename m)) w && negb force_update
     then Download.info (Skipping (idx + 1) model_count (filename m))
     else
       bind (Download.info (Downloading (idx + 1) model_count (filename m)))
            (fun _ =>
               try_except (fetch_to (get_model_path (filename m)) (url m))
                          (fun e => Download.info (DownloadFailed (filename m) e))))
      w
    = (Ok tt, w1)
    /\ (force_update = true -> requested w1 = requested w ++ [url m]).
Proof.
  destruct (path_exists (get_model_path (filename m)) w && negb force_update)
    eqn:E.
  - eexists. split; [reflexivity|]. intros ->.
    rewrite andb_false_r in E. discriminate.
  - unfold bind, Download.info at 1, modify.
    match goal with
    | |- context [try_except ?c ?h ?w0] =>
        destruct (guarded_fetch (get_model_path (filename m)) m w0)
          as (w1 & E1 & R1)
    end.
    exists w1. split; [exact E1|]. intros _. exact R1.
Qed.

Lemma download_each_cons (force_update : bool) (model_count idx : nat)
    (m : entry) (models : list entry) (w : World) :
  download_each force_update model_count idx (m :: models) w
  = match (if path_exists (get_model_path (filename m)) w
              && negb force_update
           then Download.info (Skipping (idx + 1) model_count (filename m))
           else
             bind (Download.info (Downloading (idx + 1) model_count (filename m)))
                  (fun _ =>
                     try_except
                       (fetch_to (get_model_path (filename m)) (url m))
                       (fun e => Download.info (DownloadFailed (filename m) e))))
          w with
    | (Ok _, w1) => download_each force_update model_count (S idx) models w1
    | (Raise e, w1) => (Raise e, w1)
    end.
Proof. reflexivity. Qed.

(** The loop of [download_models] never raises, whatever the network
    does: a failed fetch is logged and the loop goes on. *)
Lemma download_each_never_raises (force_update : bool) (model_count : nat)
    (models : list entry) :
  forall idx w,
    fst (download_each force_update model_count idx models w) = Ok tt.
Proof.
  induction models as [|m models IH]; intros idx w; [reflexivity|].
  rewrite download_each_cons.
  destruct (loop_body force_update model_count idx m w) as (w1 & E & _).
  rewrite E. apply IH.
Qed.

(** With [force_update] every model of the list is requested, in order,
    whether or not an earlier fetch failed. *)
Lemma download_each_requests_all (model_count : nat) (models : list entry) :
  forall idx w,
    requested (snd (download_each true model_count idx models w))
    = requested w ++ map url models.
Proof.
  induction models as [|m models IH]; intros idx w.
  - simpl. now rewrite app_nil_r.
  - rewrite download_each_cons.
    destruct (loop_body true model_count idx m w) as (w1 & E & R).
    rewrite E, IH, (R eq_refl), <- app_assoc. reflexivity.
Qed.

(** [download_models] itself never gets to the loop: once the index is
    read, loading the unbound name [model_list] raises. *)
Lemma download_models_raises (force_update : bool)
    (model : option (list string)) (w : World) :
  exists e,
    fst (download_models force_update model w) = Raise e
    /\ (forall models, fst (get_models_index force_update w) = Ok models ->
                       e = NameError "model_list").
Proof.
  unfold download_models. unfold bind at 1.
  destruct (get_models_index force_update w) as [[models|e] w1].
  - exists (NameError "model_list"). split; [reflexivity|auto].
  - exists e. split; [reflexivity|]. simpl. discriminate.
Qed.

End DownloadFacts.

(** C9 is right and the code misses it.  With an index of two models on
    disk and a network on which the first model cannot be fetched,
    [download_models] raises [NameError] for the unbound name [model_list]
    before its loop: no model is requested and no file is written.  The
    loop itself, run on the same index, requests both models and logs the
    failure of the first one only. *)
Theorem download_models_stops_before_loop :
  let w' := snd (Download.download_models false None Sample.world) in
  fst (Download.download_models false None Sample.world)
  = Raise (NameError "model_list")
  /\ Download.requested w' = []
  /\ map fst (Download.files w') = map fst (Download.files Sample.world)
  /\ Download.log w' = [StoringModels Download.models_path]
  /\ let w'' := snd (Download.download_each false 2 0 Sample.two_models
                                            Sample.world) in
     Download.requested w''
     = ["https://models.example/A.pkl"; "https://models.example/B.pkl"]%string
     /\ Download.log w''
        = [Downloading 1 2 "A.pkl";
           DownloadFailed "A.pkl" (ConnectionError "https://models.example/A.pkl");
           Downloading 2 2 "B.pkl"].
Proof.
  repeat split; vm_compute; reflexivity.
Qed.

(** ** Further properties of the prediction pipeline *)

Section PipelineOutcome.

Context {T : Type} {N : Num T}.

Implicit Types s : Store T.

(** X1.  [celltype] never returns a result.  Every call ends in an
    exception and leaves the store that the pipeline reached; when the
    scorer has returned its tuple, the exception is the [ValueError] of
    unpacking three values into two names, and the line after it, which
    would log the end of the prediction, is not reached. *)
Theorem celltype_never_returns s :
  exists e,
    fst (celltype s) = Raise e
    /\ snd (celltype s) = snd (score_pipeline s)
    /\ (forall t, fst (score_pipeline s) = Ok t ->
                  e = ValueError "too many values to unpack (expected 2)").
Proof.
  cbv beta delta [celltype bind lift].
  destruct (score_pipeline s) as [[[[scores probs] labs]|e] s1].
  - eexists. split; [reflexivity|]. split; [reflexivity|]. reflexivity.
  - exists e. split; [reflexivity|]. split; [reflexivity|].
    simpl. discriminate.
Qed.

(** X2.  After the pipeline has run on a well-formed input, no value of
    the rescaled matrix exceeds 10: a standardised value above 10 has been
    replaced by 10.  (The comparison must never hold between a number and
    itself.) *)
Theorem rescaled_values_at_most_ten s :
  @gt_irreflexive T N ->
  well_formed s ->
  forall row v,
    In row (indata (self (snd (celltype s)))) -> In v row ->
    gtb v ten = false.
Proof.
  intros Hirr H row v Hrow Hv.
  rewrite (celltype_store H) in Hrow. unfold logged in Hrow.
  cbn [self] in Hrow. rewrite (aligned_indata H) in Hrow.
  apply in_map_iff in Hrow. destruct Hrow as (row0 & <- & _).
  apply in_map_iff in Hv. destruct Hv as ([g x] & <- & _).
  unfold standardise. simpl.
  destruct (gtb (div (sub x (at_gene (model s) (mean_ (scaler (model s))) g))
                     (at_gene (model s) (scale_ (scaler (model s))) g)) ten)
    eqn:E; [apply Hirr|exact E].
Qed.

End PipelineOutcome.

Lemma rescaled_values_at_most_ten_witness :
  well_formed Sample.swapped
  /\ forall row v,
       In row (indata (self (snd (celltype Sample.swapped)))) -> In v row ->
       @gtb Z ZNum v ten = false.
Proof.
  split; [exact sample_swapped_well_formed|].
  exact (rescaled_values_at_most_ten Z_gt_irreflexive sample_swapped_well_formed).
Defined.

(** ** Further properties of the scorer *)

Section ScorerModes.

Context {T : Type} {N : Num T}.

(** X3.  A [mode] other than the two strings ['best match'] and
    ['prob match'] (the spelling ['best-match'], say) never gives a result.
    The mode is looked at after the scores have been computed: on an input
    that the scorer accepts the call ends in the [ValueError] of the last
    branch, on any other input in the scorer's own exception. *)
Theorem unknown_mode_is_refused (m : Model T) (x : matrix T)
    (mode : string) (p_thres : T) :
  mode <> "best match"%string ->
  mode <> "prob match"%string ->
  (forall r, predict_labels_and_prob m x mode p_thres <> Ok r)
  /\ (forall e, decision_function (classifier m) x = Raise e ->
                predict_labels_and_prob m x mode p_thres = Raise e)
  /\ (scorable m x ->
      predict_labels_and_prob m x mode p_thres
      = Raise (ValueError "Unrecognized `mode` value, should be one of `best match` or `prob match`")).
Proof.
  intros Hb Hp.
  apply String.eqb_neq in Hb. apply String.eqb_neq in Hp.
  unfold predict_labels_and_prob.
  split; [|split].
  - intros r. destruct (decision_function (classifier m) x); simpl.
    + rewrite Hb, Hp. discriminate.
    + discriminate.
  - intros e He. rewrite He. reflexivity.
  - intros Hs. rewrite (decision_function_ok Hs). simpl.
    rewrite Hb, Hp. reflexivity.
Qed.


(** X25.  For a model with a single weight row (a fitted classifier of two
    classes), on every input that the scorer accepts, ['best match'] gives
    no labels: the call ends in the [ValueError] that [argmax] raises for
    the axis that scores of one dimension do not have. *)
Theorem best_match_single_row_raises (m : Model T) (x : matrix T)
    (p_thres : T) :
  scorable m x ->
  List.length (coef_ (classifier m)) = 1 ->
  predict_labels_and_prob m x "best match" p_thres
  = Raise (ValueError "axis 1 is out of bounds for array of dimension 1").
Proof.
  intros Hs Hone. unfold predict_labels_and_prob.
  rewrite (decision_function_ok Hs). simpl.
  rewrite Hone. reflexivity.
Qed.

End ScorerModes.

Lemma best_match_single_row_raises_witness :
  predict_labels_and_prob Sample.two_class_model [[2; 0]; [0; 3]]%Z
                          "best match" 500%Z
  = Raise (ValueError "axis 1 is out of bounds for array of dimension 1").
Proof.
  apply (@best_match_single_row_raises Z ZNum Sample.two_class_model
           [[2; 0]; [0; 3]]%Z 500%Z); [|reflexivity].
  unfold scorable. simpl.
  split; [discriminate|]. split; [lia|].
  split; [repeat constructor|].
  split; [repeat constructor|].
  split; [discriminate|]. split; [reflexivity|]. lia.
Defined.

Lemma unknown_mode_is_refused_witness :
  predict_labels_and_prob Sample.toy_model [[2; 0]]%Z "best-match" 500%Z
  = Raise (ValueError "Unrecognized `mode` value, should be one of `best match` or `prob match`").
Proof.
  apply (@unknown_mode_is_refused Z ZNum Sample.toy_model [[2; 0]]%Z
           "best-match" 500%Z).
  - discriminate.
  - discriminate.
  - apply sample_scorable. reflexivity.
Defined.


(** ** Further properties of majority voting *)

Lemma rmap_each {A B} (f : A -> result B) (l : list A) (l' : list B) :
  rmap f l = Ok l' -> forall a, In a l -> exists b, f a = Ok b.
Proof.
  revert l'. induction l as [|x l IH]; intros l' H a Ha; [destruct Ha|].
  simpl in H. destruct (f x) as [y|e] eqn:Ey; [|discriminate].
  destruct (rmap f l) as [ys|e]; [|discriminate].
  destruct Ha as [<-|Ha]; [eauto|]. eapply IH; eauto.
Qed.

Section MajorityVoteErrors.

Context {T : Type} {N : Num T}.

(** The run of [majority_vote] on an over-clustering whose length is not
    the number of predicted labels ends in the cross tabulation. *)
Lemma majority_vote_mismatch (predictions : AnnotationResult T)
    (over_clustering labels : list string) (st : Store T) :
  Pd.column (predicted_labels predictions) "predicted_labels" = Ok labels ->
  List.length over_clustering <> List.length labels ->
  majority_vote predictions over_clustering st
  = (Raise (ValueError "arrays must all be same length"),
     logged MajorityVoting st).
Proof.
  intros Hcol Hlen.
  unfold majority_vote, bind, info, lift, modify, ret.
  rewrite Hcol. unfold Pd.crosstab.
  destruct (Nat.eqb (List.length labels) (List.length over_clustering)) eqn:E.
  - apply Nat.eqb_eq in E. congruence.
  - reflexivity.
Qed.

(** What a run of [majority_vote] that returns has gone through. *)
Lemma majority_vote_inv (predictions result : AnnotationResult T)
    (over_clustering : list string) (st st1 : Store T) :
  majority_vote predictions over_clustering st = (Ok result, st1) ->
  exists labels,
    Pd.column (predicted_labels predictions) "predicted_labels" = Ok labels
    /\ List.length over_clustering = List.length labels
    /\ List.length (index (predicted_labels predictions))
       = List.length (values (predicted_labels predictions))
    /\ Pd.join "nan"%string (predicted_labels predictions)
               (majority_frame (index (predicted_labels predictions))
                               labels over_clustering)
       = Ok (predicted_labels result)
    /\ st1 = logged MajorityVotingDone (logged MajorityVoting st)
    /\ labels <> [].
Proof.
  intros Hrun.
  destruct (Pd.column (predicted_labels predictions) "predicted_labels")
    as [labels|e] eqn:Hcol.
  2:{ unfold majority_vote, bind, info, lift, modify, ret in Hrun.
      rewrite Hcol in Hrun. discriminate. }
  exists labels. split; [reflexivity|].
  destruct (Nat.eq_dec (List.length over_clustering) (List.length labels))
    as [Hlen|Hlen].
  2:{ rewrite (majority_vote_mismatch _ _ st Hcol Hlen) in Hrun.
      discriminate. }
  split; [exact Hlen|].
  assert (Hv := column_length _ _ Hcol).
  assert (Hcells : labels <> []).
  { intros E. subst labels.
    destruct over_clustering; [|discriminate Hlen].
    rewrite (majority_vote_no_cells _ st Hcol) in Hrun. discriminate Hrun. }
  destruct (Nat.eq_dec (List.length (index (predicted_labels predictions)))
                       (List.length (values (predicted_labels predictions))))
    as [Hidx|Hidx].
  - split; [exact Hidx|].
    rewrite (majority_vote_run _ _ st Hcol Hlen Hidx Hcells) in Hrun.
    destruct (Pd.join "nan"%string (predicted_labels predictions) _)
      as [joined|e]; [|discriminate].
    injection Hrun as <- <-. repeat split; auto.
  - exfalso.
    destruct (@idxmax_crosstab labels over_clustering (eq_sym Hlen) Hcells)
      as (t & Ht & Hmax).
    assert (Hpick : rmap (fun c =>
                            try! l <- Pd.series_get
                                        (map (fun c => (c, winner labels over_clustering c))
                                             (Pd.sorted_unique over_clustering)) c in
                            Ok [c; l]) over_clustering
                    = Ok (map (fun c => [c; winner labels over_clustering c])
                              over_clustering)).
    { apply rmap_ok. intros c Hc.
      rewrite series_get_map by (now apply sorted_unique_In). reflexivity. }
    unfold majority_vote, bind, info, lift, modify, ret in Hrun.
    rewrite Hcol, Ht, Hmax, Hpick in Hrun.
    unfold Pd.set_index in Hrun. cbn [values index columns] in Hrun.
    rewrite length_map in Hrun.
    destruct (Nat.eqb (List.length (index (predicted_labels predictions)))
                      (List.length over_clustering)) eqn:E.
    + apply Nat.eqb_eq in E. apply Hidx. congruence.
    + discriminate.
Qed.

(** A joined frame keeps every column of its left side. *)
Lemma join_keeps_column (left right joined : DataFrame string)
    (name : string) (vals : list string) :
  Pd.join "nan"%string left right = Ok joined ->
  Pd.column left name = Ok vals ->
  exists vals',
    Pd.column joined name = Ok vals'
    /\ List.length (index joined) = List.length (values joined)
    /\ columns joined = columns left ++ columns right.
Proof.
  unfold Pd.join.
  destruct (existsb _ (columns left)); [discriminate|].
  intros Hj Hcol. injection Hj as <-. cbn [index columns values].
  rewrite !length_map.
  unfold Pd.column in *. cbn [index columns values].
  destruct (Pd.column_position (columns left) name) as [j|] eqn:E;
    [|discriminate].
  rewrite (column_position_app _ (columns right) _ E).
  set (rows := flat_map _ _).
  assert (Hrows : forall kv, In kv rows ->
                    exists l r, snd kv = l ++ r /\ In l (values left)).
  { intros kv Hin. apply in_flat_map in Hin.
    destruct Hin as ([k l] & Hkl & Hin). simpl in Hin.
    apply in_combine_r in Hkl.
    destruct (List.filter _ _) as [|kw ms].
    - destruct Hin as [<-|[]]. simpl. eauto.
    - change (In kv (map (fun kw0 : string * list string =>
                            (k, l ++ snd kw0)) (kw :: ms))) in Hin.
      apply in_map_iff in Hin. destruct Hin as (kw' & <- & _). simpl. eauto. }
  assert (Hitems : forall l, In l (values left) ->
                     exists v, nth_error l j = Some v).
  { intros l Hl. destruct (rmap_each _ _ Hcol _ Hl) as (v & Hv).
    unfold Np.item in Hv. destruct (nth_error l j) as [y|]; [eauto|discriminate]. }
  exists (map (fun row => nth j row EmptyString) (map snd rows)).
  split; [|split; reflexivity].
  apply rmap_ok. intros row Hrow.
  apply in_map_iff in Hrow. destruct Hrow as (kv & <- & Hkv).
  destruct (Hrows _ Hkv) as (l & r & -> & Hl).
  destruct (Hitems _ Hl) as (v & Hv).
  unfold Np.item.
  rewrite nth_error_app1 by (apply nth_error_Some; congruence).
  rewrite Hv. f_equal.
  rewrite app_nth1 by (apply nth_error_Some; congruence).
  symmetry. now apply nth_error_nth.
Qed.

(** X5.  When the over-clustering has not one entry per predicted label,
    [majority_vote] raises a [ValueError] from the cross tabulation: the
    only line logged is the one that announces the voting. *)
Theorem majority_vote_refuses_wrong_length (predictions : AnnotationResult T)
    (over_clustering labels : list string) (st : Store T) :
  Pd.column (predicted_labels predictions) "predicted_labels" = Ok labels ->
  List.length over_clustering <> List.length labels ->
  exists msg,
    fst (majority_vote predictions over_clustering st) = Raise (ValueError msg)
    /\ log (snd (majority_vote predictions over_clustering st))
       = log st ++ [MajorityVoting].
Proof.
  intros Hcol Hlen. eexists.
  rewrite (majority_vote_mismatch _ _ st Hcol Hlen). split; reflexivity.
Qed.

(** X6.  The result of [majority_vote] cannot be voted on again.  Its
    label frame carries the columns [over_clustering] and
    [majority_voting]; a second call on it, with any over-clustering,
    raises a [ValueError] (from the join, whose sides now share column
    names, when not earlier from the cross tabulation) and does not log
    the end of the voting. *)
Theorem majority_vote_twice_raises (predictions result : AnnotationResult T)
    (over_clustering again : list string) (st st1 st2 : Store T) :
  majority_vote predictions over_clustering st = (Ok result, st1) ->
  exists msg,
    majority_vote result again st2
    = (Raise (ValueError msg), logged MajorityVoting st2).
Proof.
  intros Hrun.
  destruct (majority_vote_inv _ _ _ Hrun)
    as (labels & Hcol & Hlen & Hidx & Hjoin & _).
  destruct (join_keeps_column _ _ _ Hjoin Hcol) as (labels2 & Hcol2 & Hidx2 & Hcols).
  destruct (Nat.eq_dec (List.length again) (List.length labels2))
    as [Hlen2|Hlen2].
  - destruct labels2 as [|l2 labels2].
    + destruct again; [|discriminate Hlen2].
      eexists. apply (majority_vote_no_cells _ st2 Hcol2).
    + assert (Hcells2 : l2 :: labels2 <> []) by discriminate.
      rewrite (majority_vote_run _ _ st2 Hcol2 Hlen2 Hidx2 Hcells2).
      unfold Pd.join at 1. rewrite Hcols.
      replace (existsb _ _) with true.
      * eexists. reflexivity.
      * symmetry. apply existsb_exists. exists "over_clustering"%string.
        split.
        -- apply in_or_app. right. simpl. auto.
        -- reflexivity.
  - eexists. apply (majority_vote_mismatch _ _ st2 Hcol2 Hlen2).
Qed.

(** X26.  On predictions without cells, with an over-clustering of no
    cells, [majority_vote] logs its first line and raises [ValueError]:
    the cross tabulation is empty and [idxmax] has nothing to take a
    maximum of.  The line that reports the vote as done is not logged. *)
Theorem majority_vote_without_cells_raises (predictions : AnnotationResult T)
    (st : Store T) :
  Pd.column (predicted_labels predictions) "predicted_labels" = Ok [] ->
  fst (majority_vote predictions [] st)
  = Raise (ValueError "attempt to get argmax of an empty sequence")
  /\ log (snd (majority_vote predictions [] st)) = log st ++ [MajorityVoting].
Proof.
  intros Hcol. rewrite (majority_vote_no_cells _ st Hcol).
  split; reflexivity.
Qed.

End MajorityVoteErrors.

Lemma majority_vote_without_cells_raises_witness :
  fst (majority_vote Sample.no_cells [] Sample.straight)
  = Raise (ValueError "attempt to get argmax of an empty sequence")
  /\ log (snd (majority_vote Sample.no_cells [] Sample.straight))
     = log Sample.straight ++ [MajorityVoting].
Proof.
  exact (@majority_vote_without_cells_raises Z Sample.no_cells
           Sample.straight eq_refl).
Defined.

Lemma majority_vote_refuses_wrong_length_witness :
  exists msg,
    fst (majority_vote Sample.predictions ["1"; "0"]%string Sample.straight)
    = Raise (ValueError msg)
    /\ log (snd (majority_vote Sample.predictions ["1"; "0"]%string
                               Sample.straight))
       = log Sample.straight ++ [MajorityVoting].
Proof.
  apply (@majority_vote_refuses_wrong_length Z Sample.predictions
           ["1"; "0"]%string ["T"; "B"; "B"; "T"; "NK"]%string
           Sample.straight).
  - reflexivity.
  - simpl. lia.
Defined.

Lemma majority_vote_twice_raises_witness :
  exists result st1 msg,
    majority_vote Sample.predictions Sample.clusters Sample.straight
    = (Ok result, st1)
    /\ majority_vote result Sample.clusters Sample.straight
       = (Raise (ValueError msg), logged MajorityVoting Sample.straight).
Proof.
  destruct (majority_vote Sample.predictions Sample.clusters Sample.straight)
    as [[result|e] st1] eqn:E.
  - destruct (@majority_vote_twice_raises Z _ _ _ Sample.clusters _ _
                Sample.straight E) as [msg H].
    exists result, st1, msg. split; [reflexivity|exact H].
  - vm_compute in E. discriminate E.
Defined.

(** ** The vote does not depend on the order of the cells *)

Lemma str_lt_irrefl (a : string) : ~ str_lt a a.
Proof.
  unfold str_lt, String.ltb. intros H.
  assert (Ha := String.compare_antisym a a).
  destruct (String.compare a a); simpl in Ha; discriminate.
Qed.

(** Two strictly ascending lists with the same members are equal. *)
Lemma sorted_lists_equal (l1 l2 : list string) :
  StronglySorted str_lt l1 -> StronglySorted str_lt l2 ->
  (forall x, In x l1 <-> In x l2) -> l1 = l2.
Proof.
  revert l2. induction l1 as [|x l1 IH]; intros [|y l2] H1 H2 Hin.
  - reflexivity.
  - destruct (proj2 (Hin y) (or_introl eq_refl)).
  - destruct (proj1 (Hin x) (or_introl eq_refl)).
  - apply StronglySorted_inv in H1. destruct H1 as [H1 Hx].
    apply StronglySorted_inv in H2. destruct H2 as [H2 Hy].
    rewrite Forall_forall in Hx, Hy.
    assert (Hxy : x = y).
    { destruct (proj1 (Hin x) (or_introl eq_refl)) as [E|Hx2]; [now symmetry|].
      destruct (proj2 (Hin y) (or_introl eq_refl)) as [E|Hy1]; [exact E|].
      exfalso. apply (@str_lt_irrefl x).
      apply (str_lt_trans (Hx _ Hy1) (Hy _ Hx2)). }
    subst y. f_equal. apply IH; auto.
    intros z. split; intros Hz.
    + destruct (proj1 (Hin z) (or_intror Hz)) as [E|Hz2]; [|exact Hz2].
      subst z. exfalso. apply (@str_lt_irrefl x). now apply Hx.
    + destruct (proj2 (Hin z) (or_intror Hz)) as [E|Hz1]; [|exact Hz1].
      subst z. exfalso. apply (@str_lt_irrefl x). now apply Hy.
Qed.

Lemma map_fst_combine_eq {A B} (xs : list A) (ys : list B) :
  List.length xs = List.length ys -> map fst (combine xs ys) = xs.
Proof.
  revert ys. induction xs as [|x xs IH]; intros [|y ys] H; simpl in *;
    try discriminate; [reflexivity|].
  f_equal. apply IH. lia.
Qed.

Lemma map_snd_combine_eq {A B} (xs : list A) (ys : list B) :
  List.length xs = List.length ys -> map snd (combine xs ys) = ys.
Proof.
  revert ys. induction xs as [|x xs IH]; intros [|y ys] H; simpl in *;
    try discriminate; [reflexivity|].
  f_equal. apply IH. lia.
Qed.

Lemma sorted_unique_permutation (l l' : list string) :
  Permutation l l' -> Pd.sorted_unique l = Pd.sorted_unique l'.
Proof.
  intros Hp. apply sorted_lists_equal; try apply sorted_unique_sorted.
  intros x. rewrite !sorted_unique_In.
  split; intros Hx.
  - now apply (Permutation_in _ Hp).
  - now apply (Permutation_in _ (Permutation_sym Hp)).
Qed.

(** X7.  The vote does not depend on the order in which the cells come:
    when two runs see the same cells, each with the same predicted label
    and cluster, in another order, the cross tabulation is the same table
    and [idxmax] picks the same label for every cluster. *)
Theorem winner_independent_of_cell_order
    (labels clusters labels' clusters' : list string) :
  List.length labels = List.length clusters ->
  List.length labels' = List.length clusters' ->
  Permutation (combine labels clusters) (combine labels' clusters') ->
  (exists t, Pd.crosstab labels clusters = Ok t
             /\ Pd.crosstab labels' clusters' = Ok t)
  /\ forall c, winner labels clusters c = winner labels' clusters' c.
Proof.
  intros H1 H2 Hp.
  assert (Hl : Permutation labels labels').
  { rewrite <- (map_fst_combine_eq labels clusters H1).
    rewrite <- (map_fst_combine_eq labels' clusters' H2).
    now apply Permutation_map. }
  assert (Hc : Permutation clusters clusters').
  { rewrite <- (map_snd_combine_eq labels clusters H1).
    rewrite <- (map_snd_combine_eq labels' clusters' H2).
    now apply Permutation_map. }
  assert (Hsl := sorted_unique_permutation Hl).
  assert (Hsc := sorted_unique_permutation Hc).
  assert (Hn : forall r c, Pd.count_pair labels clusters r c
                           = Pd.count_pair labels' clusters' r c).
  { intros r c. unfold Pd.count_pair.
    apply Permutation_length. now apply filter_permutation. }
  split.
  - unfold Pd.crosstab. rewrite H1, H2, !Nat.eqb_refl.
    eexists. split; [reflexivity|].
    rewrite <- Hsl, <- Hsc. do 2 f_equal.
    apply map_ext. intros r. apply map_ext. intros c. symmetry. apply Hn.
  - intros c. unfold winner. rewrite <- Hsl.
    rewrite (map_ext _ _ (fun r => Hn r c)). reflexivity.
Qed.

Lemma winner_independent_of_cell_order_witness :
  winner ["T"; "B"; "B"]%string ["1"; "1"; "0"]%string "1"
  = winner ["B"; "B"; "T"]%string ["0"; "1"; "1"]%string "1".
Proof.
  apply winner_independent_of_cell_order.
  - reflexivity.
  - reflexivity.
  - simpl.
    apply Permutation_trans
      with (l' := [("B", "1"); ("T", "1"); ("B", "0")]%string).
    + apply perm_swap.
    + apply Permutation_trans
        with (l' := [("B", "1"); ("B", "0"); ("T", "1")]%string).
      * apply perm_skip. apply perm_swap.
      * apply perm_swap.
Defined.

(** ** Probabilities *)

(** What a returned triple is made of, in either mode. *)
Lemma predict_returns_inv {T} {N : Num T} (m : Model T) (x : matrix T)
    (mode : string) (p_thres : T) (scores probs : matrix T)
    (labs : list string) :
  predict_labels_and_prob m x mode p_thres = Ok (scores, probs, labs) ->
  decision_function (classifier m) x = Ok scores
  /\ probs = map (map expit) scores
  /\ List.length labs = List.length scores.
Proof.
  unfold predict_labels_and_prob.
  destruct (decision_function (classifier m) x) as [sc|e]; [|discriminate].
  simpl.
  destruct (String.eqb mode "best match").
  - destruct (Nat.eqb (List.length (coef_ (classifier m))) 1);
      [discriminate|].
    destruct (rmap (Np.argmax gtb) sc) as [idx|e] eqn:Ei; [|discriminate].
    simpl.
    destruct (Np.take (classes_ (classifier m)) idx) as [ls|e] eqn:El;
      [|discriminate].
    simpl. intros H. injection H as <- <- <-.
    split; [reflexivity|]. split; [reflexivity|].
    unfold Np.take in El. rewrite (rmap_length _ _ El).
    apply (rmap_length _ _ Ei).
  - destruct (String.eqb mode "prob match"); [|discriminate].
    destruct (rmap _ (map _ (map (map expit) sc))) as [ls|e] eqn:El;
      [|discriminate].
    simpl. intros H. injection H as <- <- <-.
    split; [reflexivity|]. split; [reflexivity|].
    unfold fill_unassigned. rewrite length_map.
    rewrite (rmap_length _ _ El). now rewrite !length_map.
Qed.

(** The logistic function over the reals does not exceed one half at a
    score that is not positive. *)
Lemma R_expit_half_at_most : @expit_half_at_most R RNum.
Proof.
  intros s Hs. apply expit_not_above_half.
  simpl in Hs. destruct (Rlt_dec 0 s) as [Hl|Hn]; [discriminate|lra].
Qed.



(** ** Further properties of the download loop and the model index *)

Section DownloadLoop.

Import Download.

Lemma lookup_filter_other (p q : string) (fs : list (string * content)) :
  String.eqb q p = false ->
  lookup p (List.filter (fun pc => negb (String.eqb (fst pc) q)) fs)
  = lookup p fs.
Proof.
  intros Hqp. induction fs as [|[r c] fs IH]; simpl; [reflexivity|].
  destruct (String.eqb r q) eqn:Erq; simpl.
  - apply String.eqb_eq in Erq. subst r. now rewrite Hqp.
  - rewrite IH. reflexivity.
Qed.

Lemma filter_absent (q : string) (fs : list (string * content)) :
  lookup q fs = None ->
  List.filter (fun pc => negb (String.eqb (fst pc) q)) fs = fs.
Proof.
  induction fs as [|[r c] fs IH]; simpl; [reflexivity|].
  destruct (String.eqb r q); [discriminate|].
  intros H. simpl. now rewrite IH.
Qed.

Lemma filter_twice {A} (f : A -> bool) (l : list A) :
  List.filter f (List.filter f l) = List.filter f l.
Proof.
  induction l as [|a l IH]; simpl; [reflexivity|].
  destruct (f a) eqn:E; simpl; rewrite ?E, IH; reflexivity.
Qed.

(** Which paths exist after a file has been written. *)
Lemma path_exists_write (p q : string) (c : content) (w : World) :
  path_exists p (snd (write_file q c w))
  = String.eqb q p || path_exists p w.
Proof.
  unfold path_exists, write_file, modify. cbn [snd files lookup].
  destruct (String.eqb q p) eqn:E; [reflexivity|].
  now rewrite lookup_filter_other.
Qed.

(** One guarded fetch, with what it leaves on disk. *)
Lemma guarded_fetch_files (path : string) (m : entry) (w : World) :
  exists w1,
    try_except (fetch_to path (url m))
               (fun e => Download.info (DownloadFailed (filename m) e)) w
    = (Ok tt, w1)
    /\ requested w1 = requested w ++ [url m]
    /\ remote w1 = remote w
    /\ (forall p, path_exists p w1 = String.eqb path p || path_exists p w)
    /\ (forall e, remote w (url m) = Raise e ->
                  files w1
                  = (path, Bytes "")
                    :: List.filter (fun pc => negb (String.eqb (fst pc) path))
                                   (files w)
                  /\ log w1 = log w ++ [DownloadFailed (filename m) e]).
Proof.
  unfold try_except, fetch_to, write_file, requests_get, Download.info,
    bind, modify, get, lift.
  cbn [files remote requested log fst snd].
  destruct (remote w (url m)) as [c|e] eqn:Er; eexists;
    (split; [reflexivity|]); cbn [files remote requested log];
    (split; [reflexivity|]); (split; [reflexivity|]); split.
  - intros p. unfold path_exists. cbn [files lookup].
    destruct (String.eqb path p) eqn:E; [reflexivity|].
    rewrite lookup_filter_other by exact E. cbn [lookup]. rewrite E.
    rewrite lookup_filter_other by exact E. reflexivity.
  - intros e He. discriminate.
  - intros p. unfold path_exists. cbn [files lookup].
    destruct (String.eqb path p) eqn:E; [reflexivity|].
    rewrite lookup_filter_other by exact E. reflexivity.
  - intros e' He. injection He as <-. split; reflexivity.
Qed.

(** The loop, one model after the other. *)
Lemma download_each_split (force_update : bool) (model_count idx : nat)
    (m : entry) (models : list entry) (w : World) :
  download_each force_update model_count idx (m :: models) w
  = download_each force_update model_count (S idx) models
      (snd (download_each force_update model_count idx [m] w)).
Proof.
  rewrite !download_each_cons.
  destruct (loop_body force_update model_count idx m w) as (w1 & E & _).
  rewrite E. reflexivity.
Qed.

(** One model whose file exists, without [force_update]: a log line. *)
Lemma download_one_skipped (model_count idx : nat) (m : entry) (w : World) :
  path_exists (get_model_path (filename m)) w = true ->
  download_each false model_count idx [m] w
  = (Ok tt, {| files := files w; remote := remote w;
               requested := requested w;
               log := log w ++ [Skipping (idx + 1) model_count (filename m)] |}).
Proof.
  intros H. rewrite download_each_cons, H. reflexivity.
Qed.

(** One model: the paths that exist afterwards. *)
Lemma download_one_paths (force_update : bool) (model_count idx : nat)
    (m : entry) (w : World) (p : string) :
  path_exists p (snd (download_each force_update model_count idx [m] w))
  = String.eqb (get_model_path (filename m)) p || path_exists p w.
Proof.
  rewrite download_each_cons.
  destruct (path_exists (get_model_path (filename m)) w && negb force_update)
    eqn:E.
  - apply andb_prop in E. destruct E as [E _].
    unfold Download.info, modify. cbn [fst snd download_each ret].
    unfold path_exists in *. cbn [files].
    destruct (String.eqb (get_model_path (filename m)) p) eqn:Ep;
      [|reflexivity].
    apply String.eqb_eq in Ep. subst p.
    destruct (lookup (get_model_path (filename m)) (files w));
      [reflexivity|discriminate].
  - unfold bind at 1. unfold Download.info at 1, modify.
    match goal with
    | |- context [try_except ?c ?h ?w0] =>
        destruct (guarded_fetch_files (get_model_path (filename m)) m w0)
          as (w1 & E1 & _ & _ & P1 & _)
    end.
    rewrite E1. cbn [fst snd download_each ret]. rewrite P1.
    reflexivity.
Qed.

Lemma download_each_paths (force_update : bool) (model_count : nat)
    (models : list entry) :
  forall idx w p,
    path_exists p (snd (download_each force_update model_count idx models w))
    = existsb (fun m => String.eqb (get_model_path (filename m)) p) models
      || path_exists p w.
Proof.
  induction models as [|m models IH]; intros idx w p; [reflexivity|].
  rewrite download_each_split, IH, download_one_paths. simpl.
  destruct (String.eqb (get_model_path (filename m)) p);
    destruct (existsb _ models); reflexivity.
Qed.

(** Without [force_update], models whose files exist cost a log line each. *)
Lemma download_each_all_skipped (model_count : nat) (models : list entry) :
  forall idx w,
    (forall m, In m models ->
               path_exists (get_model_path (filename m)) w = true) ->
    let w1 := snd (download_each false model_count idx models w) in
    requested w1 = requested w /\ files w1 = files w
    /\ log w1
       = log w ++ map (fun im => Skipping (fst im + 1) model_count
                                          (filename (snd im)))
                      (combine (seq idx (List.length models)) models).
Proof.
  induction models as [|m models IH]; intros idx w H.
  - simpl. rewrite app_nil_r. auto.
  - rewrite download_each_split.
    rewrite (download_one_skipped model_count idx m w)
      by (apply H; now left).
    cbn [snd].
    match goal with
    | |- context [download_each false model_count (S idx) models ?w0] =>
        destruct (IH (S idx) w0) as (R & F & L)
    end.
    { intros m' Hm'. unfold path_exists. cbn [files].
      apply (H m'). now right. }
    cbn zeta. rewrite R, F, L. cbn [files requested log].
    split; [reflexivity|]. split; [reflexivity|].
    rewrite <- app_assoc. reflexivity.
Qed.



(** X11.  A second pass over the same list without [force_update] makes
    no request and changes no file, whatever the first pass met: a model
    whose download failed is skipped like one that was fetched. *)
Theorem second_pass_requests_nothing (force_update : bool)
    (n1 i1 n2 i2 : nat) (models : list entry) (w : World) :
  let w1 := snd (download_each force_update n1 i1 models w) in
  let w2 := snd (download_each false n2 i2 models w1) in
  fst (download_each false n2 i2 models w1) = Ok tt
  /\ requested w2 = requested w1
  /\ files w2 = files w1.
Proof.
  cbn zeta. split; [apply download_each_never_raises|].
  destruct (@download_each_all_skipped n2 models i2
              (snd (download_each force_update n1 i1 models w)))
    as (R & F & _); [|auto].
  intros m Hm. rewrite download_each_paths.
  apply orb_true_iff. left. apply existsb_exists.
  exists m. split; [exact Hm|apply String.eqb_refl].
Qed.


(** The index is on disk and no update is forced: the file is read. *)
Lemma get_models_index_cached (c : content) (w : World) :
  lookup (get_model_path "models.json") (files w) = Some c ->
  get_models_index false w = (json_models c, w).
Proof.
  intros H. unfold get_models_index. cbv zeta.
  unfold bind, get, lift, ret, path_exists.
  rewrite H. cbn [negb orb]. rewrite H.
  destruct (json_models c); reflexivity.
Qed.

(** The index must be fetched. *)
Lemma get_models_index_fetches (force_update : bool) (w : World) :
  path_exists (get_model_path "models.json") w = false
  \/ force_update = true ->
  get_models_index force_update w
  = match download_model_index w with
    | (Ok _, w1) =>
        match lookup (get_model_path "models.json") (files w1) with
        | None => (Raise (ValueError "No such file or directory"), w1)
        | Some c => (json_models c, w1)
        end
    | (Raise e, w1) => (Raise e, w1)
    end.
Proof.
  intros H. unfold get_models_index. cbv zeta.
  unfold bind at 1. unfold get at 1.
  replace (negb (path_exists (get_model_path "models.json") w) || force_update)
    with true
    by (destruct H as [-> | ->]; [reflexivity|now rewrite orb_true_r]).
  unfold bind at 1.
  destruct (download_model_index w) as [[u|e] w1]; [|reflexivity].
  unfold bind, get, lift.
  destruct (lookup (get_model_path "models.json") (files w1)) as [c|];
    [destruct (json_models c)|]; reflexivity.
Qed.

(** The three ways a download of the index can go. *)
Lemma download_model_index_run (w : World) :
  let path := get_model_path "models.json" in
  let rest := List.filter (fun pc => negb (String.eqb (fst pc) path)) (files w) in
  download_model_index w
  = match remote w index_url with
    | Ok (Index ms) =>
        (Ok tt, {| files := (path, Index ms) :: rest;
                   remote := remote w;
                   requested := requested w ++ [index_url; index_url];
                   log := log w ++ [RetrievingModelList index_url;
                                    TotalModels (List.length ms)] |})
    | Ok (Bytes b) =>
        (Raise (ValueError "Expecting value"),
         {| files := (path, Bytes b) :: rest;
            remote := remote w;
            requested := requested w ++ [index_url; index_url];
            log := log w ++ [RetrievingModelList index_url] |})
    | Raise e =>
        (Raise e, {| files := (path, Bytes "") :: rest;
                     remote := remote w;
                     requested := requested w ++ [index_url];
                     log := log w ++ [RetrievingModelList index_url] |})
    end.
Proof.
  cbn zeta.
  unfold download_model_index, fetch_to, write_file, requests_get,
    Download.info, bind, modify, get, lift.
  cbn [files remote requested log fst snd].
  destruct (remote w index_url) as [[ms|b]|e] eqn:Er;
    cbn [files remote requested log fst snd json_models List.filter negb];
    rewrite ?Er;
    cbn [files remote requested log fst snd json_models List.filter negb];
    rewrite ?String.eqb_refl; cbn [negb];
    rewrite ?filter_twice, <- ?app_assoc; reflexivity.
Qed.

(** X13.  When the index has to be fetched and the network answers with a
    list of models, [get_models_index] returns that list after asking for
    the index twice (once for the file, once for the count it logs); the
    file then holds the list and no other file is touched. *)
Theorem index_download_asks_twice (force_update : bool)
    (ms : list entry) (w : World) :
  path_exists (get_model_path "models.json") w = false
  \/ force_update = true ->
  remote w index_url = Ok (Index ms) ->
  exists w1,
    get_models_index force_update w = (Ok ms, w1)
    /\ requested w1 = requested w ++ [index_url; index_url]
    /\ log w1 = log w ++ [RetrievingModelList index_url;
                          TotalModels (List.length ms)]
    /\ lookup (get_model_path "models.json") (files w1) = Some (Index ms)
    /\ forall p, p <> get_model_path "models.json" ->
                 lookup p (files w1) = lookup p (files w).
Proof.
  intros Hf Hr.
  rewrite (get_models_index_fetches _ Hf).
  assert (Hrun := download_model_index_run w). cbn zeta in Hrun.
  rewrite Hr in Hrun. rewrite Hrun. cbn [files lookup].
  rewrite String.eqb_refl. eexists. split; [reflexivity|].
  cbn [files remote requested log lookup].
  split; [reflexivity|]. split; [reflexivity|].
  split; [now rewrite String.eqb_refl|].
  intros p Hp.
  assert (E : String.eqb (get_model_path "models.json") p = false)
    by (apply String.eqb_neq; congruence).
  rewrite E. now apply lookup_filter_other.
Qed.

(** X14.  When the index has to be fetched and the network fails, or
    answers with bytes that are no JSON document, the call raises,
    and the index file is left behind with what was received (nothing, or
    the other bytes).  From then on every call without [force_update]
    finds that file, makes no request and raises a [ValueError] when it
    parses it. *)
Theorem failed_index_download_sticks (force_update : bool) (w : World) :
  path_exists (get_model_path "models.json") w = false
  \/ force_update = true ->
  (forall ms, remote w index_url <> Ok (Index ms)) ->
  exists e b w1,
    get_models_index force_update w = (Raise e, w1)
    /\ lookup (get_model_path "models.json") (files w1) = Some (Bytes b)
    /\ (forall e', remote w index_url = Raise e' -> e = e' /\ b = EmptyString)
    /\ forall w2,
         files w2 = files w1 ->
         get_models_index false w2
         = (Raise (ValueError "Expecting value"), w2).
Proof.
  intros Hf Hr.
  rewrite (get_models_index_fetches _ Hf).
  assert (Hrun := download_model_index_run w). cbn zeta in Hrun.
  rewrite Hrun.
  destruct (remote w index_url) as [[ms|b]|e] eqn:Er.
  - destruct (Hr ms eq_refl).
  - exists (ValueError "Expecting value"), b. eexists.
    split; [reflexivity|]. cbn [files lookup]. rewrite String.eqb_refl.
    split; [reflexivity|]. split; [intros e' He'; discriminate|].
    intros w2 H2. apply (@get_models_index_cached (Bytes b)).
    rewrite H2. cbn [lookup]. now rewrite String.eqb_refl.
  - exists e, EmptyString. eexists.
    split; [reflexivity|]. cbn [files lookup]. rewrite String.eqb_refl.
    split; [reflexivity|].
    split; [intros e' He'; injection He' as <-; split; reflexivity|].
    intros w2 H2. apply (@get_models_index_cached (Bytes "")).
    rewrite H2. cbn [lookup]. now rewrite String.eqb_refl.
Qed.

(** The run of [download_models]: the index is read, one line is logged,
    and the load of [model_list] raises. *)
Lemma download_models_run (force_update : bool)
    (model : option (list string)) (w : World) :
  download_models force_update model w
  = match get_models_index force_update w with
    | (Ok _, w1) =>
        (Raise (NameError "model_list"),
         {| files := files w1; remote := remote w1;
            requested := requested w1;
            log := log w1 ++ [StoringModels models_path] |})
    | (Raise e, w1) => (Raise e, w1)
    end.
Proof.
  unfold download_models. unfold bind at 1.
  destruct (get_models_index force_update w) as [[models|e] w1];
    reflexivity.
Qed.

(** X15.  [download_models] never asks for a model, whatever its
    arguments and whatever is on disk: every call raises, and the files
    and the requests it leaves are those of reading the index.  When the
    index could be read the exception is the [NameError] of the unbound
    name [model_list], raised after the line that announces where the
    models are stored. *)
Theorem download_models_never_requests_a_model (force_update : bool)
    (model : option (list string)) (w : World) :
  exists e,
    fst (download_models force_update model w) = Raise e
    /\ files (snd (download_models force_update model w))
       = files (snd (get_models_index force_update w))
    /\ requested (snd (download_models force_update model w))
       = requested (snd (get_models_index force_update w))
    /\ (forall models, fst (get_models_index force_update w) = Ok models ->
                       e = NameError "model_list"
                       /\ log (snd (download_models force_update model w))
                          = log (snd (get_models_index force_update w))
                            ++ [StoringModels models_path]).
Proof.
  rewrite download_models_run.
  destruct (get_models_index force_update w) as [[models|e] w1].
  - exists (NameError "model_list").
    repeat split; reflexivity.
  - exists e. repeat split; try reflexivity; simpl in *; discriminate.
Qed.

End DownloadLoop.


Lemma index_download_asks_twice_witness :
  exists w1,
    Download.get_models_index false
      {| Download.files := [];
         Download.remote := fun _ => Ok (Download.Index Sample.two_models);
         Download.requested := [];
         Download.log := [] |}
    = (Ok Sample.two_models, w1)
    /\ Download.requested w1 = [Download.index_url; Download.index_url].
Proof.
  destruct (@index_download_asks_twice false Sample.two_models
              {| Download.files := [];
                 Download.remote := fun _ => Ok (Download.Index Sample.two_models);
                 Download.requested := [];
                 Download.log := [] |})
    as (w1 & Hrun & Hreq & _).
  - left. reflexivity.
  - reflexivity.
  - exists w1. split; [exact Hrun|exact Hreq].
Defined.

Lemma failed_index_download_sticks_witness :
  exists e b w1,
    Download.get_models_index true Sample.world = (Raise e, w1)
    /\ Download.lookup (Download.get_model_path "models.json")
                       (Download.files w1)
       = Some (Download.Bytes b).
Proof.
  destruct (@failed_index_download_sticks true Sample.world)
    as (e & b & w1 & Hrun & Hfile & _).
  - right. reflexivity.
  - intros ms. vm_compute. discriminate.
  - exists e, b, w1. split; [exact Hrun|exact Hfile].
Defined.

(** ** Calling [celltype] again on the same object *)

Lemma index_of_positions (xs : list string) :
  NoDup xs -> map (fun g => index_of g xs) xs = seq 0 (List.length xs).
Proof.
  induction xs as [|x xs IH]; intros Hnd; [reflexivity|].
  inversion Hnd as [|? ? Hx Hnd']; subst.
  simpl. rewrite String.eqb_refl. f_equal.
  rewrite <- seq_shift, <- (IH Hnd'), map_map.
  apply map_ext_in. intros g Hg.
  destruct (String.eqb x g) eqn:E; [|reflexivity].
  apply String.eqb_eq in E. subst g. contradiction.
Qed.

Lemma filter_all {A} (f : A -> bool) (l : list A) :
  (forall a, In a l -> f a = true) -> List.filter f l = l.
Proof.
  induction l as [|a l IH]; intros H; simpl; [reflexivity|].
  rewrite (H a (or_introl eq_refl)). f_equal.
  apply IH. intros b Hb. apply H. now right.
Qed.

Section CelltypeAgain.

Context {T : Type} {N : Num T}.

Implicit Types s : Store T.

(** The store that a run leaves is well formed again when the input's
    gene names are distinct. *)
Lemma celltype_leaves_well_formed s :
  well_formed s -> NoDup (indata_genes (self s)) ->
  well_formed (snd (celltype s)).
Proof.
  intros H Hnd.
  destruct (celltype_aligns_in_input_order_facts H)
    as (Hg & Hin & Hf & Hn & Hc & Hx).
  assert (Hs : scaler (model (snd (celltype s))) = scaler (model s))
    by (rewrite (celltype_store H); reflexivity).
  destruct H as (Hfnd & Hmean & Hscale & Hcoef & Hrows).
  assert (Hu : NoDup (used_genes s)) by (now apply NoDup_filter).
  assert (Hle : List.length (used_genes s)
                <= List.length (features (classifier (model s)))).
  { apply NoDup_incl_length; [exact Hu|].
    intros g Hgu. now apply Hin in Hgu. }
  unfold well_formed. rewrite Hf, Hs, Hc, Hx, Hg.
  split; [exact Hu|]. split; [lia|]. split; [lia|].
  split.
  - apply Forall_forall. intros w Hw.
    apply in_map_iff in Hw. destruct Hw as (w0 & <- & _).
    rewrite length_map. lia.
  - apply Forall_forall. intros row Hrow.
    apply in_map_iff in Hrow. destruct Hrow as (row0 & <- & Hrow0).
    rewrite Forall_forall in Hrows. specialize (Hrows _ Hrow0).
    rewrite length_map.
    rewrite <- (length_map fst), (used_columns_genes _ _ _ Hrows).
    reflexivity.
Qed.

(** X16.  A second call of [celltype] on the same object, for an input
    with distinct gene names: the genes and the model that the first call
    left are kept as they are, every gene being known now, while the data,
    already standardised, is standardised once more.  The model's features
    are by then in the input's order and the scaler still in the order of
    the loaded model, so the gene in column [i] is rescaled with entry [i]
    of the scaler's vectors. *)
Theorem celltype_again_on_same_object s :
  well_formed s -> NoDup (indata_genes (self s)) ->
  let s1 := snd (celltype s) in
  let s2 := snd (celltype s1) in
  model s2 = model s1
  /\ indata_genes (self s2) = indata_genes (self s1)
  /\ lr_idx_of s1 = seq 0 (List.length (used_genes s))
  /\ indata (self s2)
     = map (fun row =>
              map (fun gv => standardise (model s1) (fst gv) (snd gv))
                  (combine (used_genes s) row))
           (indata (self s1))
  /\ forall (v : list T) i g,
       nth_error (used_genes s) i = Some g ->
       at_gene (model s1) v g = nth i v zero.
Proof.
  intros H Hnd. cbn zeta.
  assert (H1 := celltype_leaves_well_formed H Hnd).
  destruct (celltype_aligns_in_input_order_facts H)
    as (Hg & Hin & Hf & Hn & Hc & Hx).
  destruct (celltype_aligns_in_input_order_facts H1)
    as (Hg2 & _ & Hf2 & Hn2 & Hc2 & Hx2).
  assert (Hu : NoDup (used_genes s))
    by (apply NoDup_filter; exact Hnd).
  assert (Hused : used_genes (snd (celltype s)) = used_genes s).
  { unfold used_genes at 1. rewrite Hg. apply filter_all.
    intros g Hgu. unfold known. rewrite Hf. now apply existsb_eqb_In. }
  assert (Hlr : lr_idx_of (snd (celltype s))
                = seq 0 (List.length (used_genes s))).
  { unfold lr_idx_of. rewrite Hused, Hf. now apply index_of_positions. }
  assert (Hat : forall (v : list T) i g,
                  nth_error (used_genes s) i = Some g ->
                  at_gene (model (snd (celltype s))) v g = nth i v zero).
  { intros v i g Hi. unfold at_gene. rewrite Hf. f_equal.
    assert (Hlt : i < List.length (used_genes s))
      by (apply nth_error_Some; congruence).
    assert (Hpos := index_of_positions Hu).
    apply (f_equal (fun l => nth_error l i)) in Hpos.
    rewrite nth_error_map, Hi in Hpos. simpl in Hpos.
    rewrite (nth_error_nth' _ 0) in Hpos by (now rewrite length_seq).
    rewrite seq_nth in Hpos by exact Hlt.
    injection Hpos as Hpos. exact Hpos. }
  split; [|split; [|split; [exact Hlr|split; [|exact Hat]]]].
  - rewrite (celltype_store H1). unfold logged. cbn [model].
    unfold aligned. cbn [model]. rewrite Hlr.
    assert (Hm := f_equal (@model T) (celltype_store H)).
    unfold logged in Hm. cbn [model] in Hm. unfold aligned in Hm.
    cbn [model] in Hm.
    set (m1 := model (snd (celltype s))) in *.
    assert (Hlen : List.length (features (classifier m1))
                   = List.length (used_genes s)) by (now rewrite Hf).
    assert (Hrows : forall w, In w (coef_ (classifier m1)) ->
                              List.length w = List.length (used_genes s)).
    { intros w Hw. rewrite Hc in Hw. apply in_map_iff in Hw.
      destruct Hw as (w0 & <- & _). now rewrite length_map. }
    rewrite <- Hlen at 1. rewrite gather_seq.
    replace (map (fun w => gather zero w (seq 0 (List.length (used_genes s))))
                 (coef_ (classifier m1)))
      with (coef_ (classifier m1)).
    2:{ rewrite <- (map_id (coef_ (classifier m1))) at 1.
        apply map_ext_in. intros w Hw.
        rewrite <- (Hrows w Hw). now rewrite gather_seq. }
    rewrite length_seq, <- Hn.
    destruct m1 as [[cl fe co ic nf] sc de]. reflexivity.
  - rewrite Hg2, Hused, Hg. reflexivity.
  - rewrite Hx2, Hg. apply map_ext_in. intros row Hrow.
    f_equal. unfold used_columns. apply filter_all.
    intros [g v] Hgv. simpl. apply in_combine_l in Hgv.
    unfold known. rewrite Hf. now apply existsb_eqb_In.
Qed.

End CelltypeAgain.

Lemma celltype_again_on_same_object_witness :
  model (snd (celltype (snd (celltype Sample.swapped))))
  = model (snd (celltype Sample.swapped))
  /\ lr_idx_of (snd (celltype Sample.swapped)) = [0; 1].
Proof.
  destruct (@celltype_again_on_same_object Z ZNum Sample.swapped
              sample_swapped_well_formed)
    as (Hm & _ & Hlr & _).
  - repeat constructor; simpl; intuition discriminate.
  - split; [exact Hm|exact Hlr].
Defined.

(** ** The frequency table *)

Lemma sorted_NoDup (l : list string) : StronglySorted str_lt l -> NoDup l.
Proof.
  induction 1 as [|x l Hs IH Hx]; constructor; [|exact IH].
  intros Hin. rewrite Forall_forall in Hx.
  apply (@str_lt_irrefl x). now apply Hx.
Qed.

Lemma indicator_sum (x : string) (us : list string) :
  NoDup us ->
  list_sum (map (fun u => if String.eqb u x then 1 else 0) us)
  = if existsb (String.eqb x) us then 1 else 0.
Proof.
  induction 1 as [|u us Hu Hnd IH]; simpl; [reflexivity|].
  rewrite IH, (String.eqb_sym x u).
  destruct (String.eqb u x) eqn:E; simpl; [|reflexivity].
  apply String.eqb_eq in E. subst u.
  destruct (existsb (String.eqb x) us) eqn:Ex; [|reflexivity].
  apply existsb_eqb_In in Ex. contradiction.
Qed.

(** The counts of distinct names that cover a list add up to its length. *)
Lemma counts_sum (us labels : list string) :
  NoDup us -> (forall l, In l labels -> In l us) ->
  list_sum (map (fun u => List.length (List.filter (String.eqb u) labels)) us)
  = List.length labels.
Proof.
  intros Hnd. induction labels as [|x labels IH]; intros Hin.
  - simpl. induction us as [|u us IHu]; simpl; [reflexivity|].
    inversion Hnd; subst. now apply IHu.
  - simpl. rewrite <- IH by (intros l Hl; apply Hin; now right).
    assert (Hx : existsb (String.eqb x) us = true)
      by (apply existsb_eqb_In, Hin; now left).
    assert (Hi := indicator_sum x Hnd). rewrite Hx in Hi.
    assert (Hsplit :
      list_sum (map (fun u =>
                       List.length (if String.eqb u x
                                    then x :: List.filter (String.eqb u) labels
                                    else List.filter (String.eqb u) labels)) us)
      = list_sum (map (fun u => if String.eqb u x then 1 else 0) us)
        + list_sum (map (fun u => List.length (List.filter (String.eqb u) labels))
                        us)).
    { clear. induction us as [|u us IHu]; simpl; [reflexivity|].
      rewrite IHu. destruct (String.eqb u x); simpl; lia. }
    rewrite Hsplit, Hi. reflexivity.
Qed.

Lemma unique_counts_sum (labels : list string) :
  list_sum (map snd (unique_counts labels)) = List.length labels.
Proof.
  unfold unique_counts. rewrite map_map. simpl.
  apply counts_sum.
  - apply sorted_NoDup, sorted_unique_sorted.
  - intros l Hl. now apply sorted_unique_In.
Qed.

Lemma unique_counts_names (labels : list string) :
  map fst (unique_counts labels) = Pd.sorted_unique labels.
Proof.
  unfold unique_counts. rewrite map_map. simpl. apply map_id.
Qed.

Section SummaryFrequencyFacts.

Context {T : Type}.

Variable argsort_descending : list nat -> list nat.

(** What the table is made of: the rows of the zipped arrays, in the
    order that the sort gives. *)
Lemma summary_frequency_rows (self : AnnotationResult T) (by_ : string)
    (labels : list string) :
  Pd.column (predicted_labels self) by_ = Ok labels ->
  Permutation (argsort_descending (map snd (unique_counts labels)))
              (seq 0 (List.length (unique_counts labels))) ->
  exists rows,
    summary_frequency argsort_descending self by_ = Ok rows
    /\ Permutation rows
         (combine (seq 0 (List.length (unique_counts labels)))
                  (unique_counts labels)).
Proof.
  intros Hcol Hperm. unfold summary_frequency. rewrite Hcol.
  cbv beta iota delta [rbind].
  set (df := unique_counts labels) in *.
  set (frame := combine (seq 0 (List.length df)) df).
  assert (Hlen : List.length frame = List.length df).
  { unfold frame. rewrite length_combine, length_seq. lia. }
  exists (gather (0, (EmptyString, 0)) frame (argsort_descending (map snd df))).
  split.
  - apply take_gather. apply Forall_forall. intros i Hi.
    apply (Permutation_in _ Hperm) in Hi. apply in_seq in Hi. lia.
  - apply gather_permutation. now rewrite Hlen.
Qed.

(** The rows of the zipped arrays, in any order: what they list. *)
Lemma frequency_rows_facts (labels : list string)
    (rows : list (nat * (string * nat))) :
  Permutation rows
    (combine (seq 0 (List.length (unique_counts labels)))
             (unique_counts labels)) ->
  NoDup (map (fun r => fst (snd r)) rows)
  /\ (forall l, In l (map (fun r => fst (snd r)) rows) <-> In l labels)
  /\ (forall i l n,
        In (i, (l, n)) rows ->
        n = List.length (List.filter (String.eqb l) labels)
        /\ 1 <= n
        /\ nth_error (Pd.sorted_unique labels) i = Some l)
  /\ list_sum (map (fun r => snd (snd r)) rows) = List.length labels.
Proof.
  intros Hrows.
  assert (Hsnd : Permutation (map snd rows) (unique_counts labels)).
  { apply Permutation_trans
      with (l' := map snd (combine (seq 0 (List.length (unique_counts labels)))
                                   (unique_counts labels))).
    - now apply Permutation_map.
    - rewrite map_snd_combine_seq. apply Permutation_refl. }
  assert (Hnames : Permutation (map (fun r => fst (snd r)) rows)
                               (Pd.sorted_unique labels)).
  { rewrite <- unique_counts_names.
    replace (map (fun r : nat * (string * nat) => fst (snd r)) rows)
      with (map fst (map snd rows)) by (now rewrite map_map).
    now apply Permutation_map. }
  split; [|split; [|split]].
  - apply (Permutation_NoDup (Permutation_sym Hnames)).
    apply sorted_NoDup, sorted_unique_sorted.
  - intros l. rewrite <- (sorted_unique_In l labels). split; intros Hl.
    + now apply (Permutation_in _ Hnames).
    + now apply (Permutation_in _ (Permutation_sym Hnames)).
  - intros i l n Hin. apply (Permutation_in _ Hrows) in Hin.
    apply in_combine_seq in Hin. destruct Hin as [_ Hi].
    rewrite Nat.sub_0_r in Hi. unfold unique_counts in Hi.
    rewrite nth_error_map in Hi.
    destruct (nth_error (Pd.sorted_unique labels) i) as [u|] eqn:Eu;
      [|discriminate].
    simpl in Hi. injection Hi as <- <-.
    split; [reflexivity|]. split; [|reflexivity].
    assert (Hu : In u labels)
      by (apply sorted_unique_In; eapply nth_error_In; eauto).
    clear - Hu. induction labels as [|x labels IH]; [destruct Hu|].
    simpl. destruct (String.eqb u x) eqn:E; simpl; [lia|].
    apply IH. destruct Hu as [->|Hu]; [|exact Hu].
    rewrite String.eqb_refl in E. discriminate.
  - rewrite <- unique_counts_sum.
    replace (map (fun r : nat * (string * nat) => snd (snd r)) rows)
      with (map snd (map snd rows)) by (now rewrite map_map).
    apply Permutation_list_sum. now apply Permutation_map.
Qed.

(** X17.  The frequency table of a column of labels has one row per
    distinct label, whatever order the sort leaves equal counts in: the
    cell types listed are distinct and are exactly the labels that some
    cell carries, the count of each is the number of cells that carry it
    (at least one), the index label of a row is the rank of its cell type
    among the sorted labels, and the counts add up to the number of
    cells. *)
Theorem summary_frequency_counts_every_cell (self : AnnotationResult T)
    (by_ : string) (labels : list string) :
  Pd.column (predicted_labels self) by_ = Ok labels ->
  Permutation (argsort_descending (map snd (unique_counts labels)))
              (seq 0 (List.length (unique_counts labels))) ->
  exists rows,
    summary_frequency argsort_descending self by_ = Ok rows
    /\ NoDup (map (fun r => fst (snd r)) rows)
    /\ (forall l, In l (map (fun r => fst (snd r)) rows) <-> In l labels)
    /\ (forall i l n,
          In (i, (l, n)) rows ->
          n = List.length (List.filter (String.eqb l) labels)
          /\ 1 <= n
          /\ nth_error (Pd.sorted_unique labels) i = Some l)
    /\ list_sum (map (fun r => snd (snd r)) rows)
       = List.length (values (predicted_labels self)).
Proof.
  intros Hcol Hperm.
  destruct (summary_frequency_rows _ _ Hcol Hperm) as (rows & Hrun & Hrows).
  destruct (frequency_rows_facts _ Hrows) as (Hnd & Hin & Hcount & Hsum).
  exists rows. split; [exact Hrun|]. split; [exact Hnd|].
  split; [exact Hin|]. split; [exact Hcount|].
  rewrite Hsum. apply (column_length _ _ Hcol).
Qed.

End SummaryFrequencyFacts.

Lemma summary_frequency_counts_every_cell_witness :
  summary_frequency stable_argsort_descending Sample.predictions
                    "predicted_labels"
  = Ok [(0, ("B", 2)); (2, ("T", 2)); (1, ("NK", 1))]%string.
Proof.
  destruct (@summary_frequency_counts_every_cell Z stable_argsort_descending
              Sample.predictions "predicted_labels"
              ["T"; "B"; "B"; "T"; "NK"]%string)
    as (rows & Hrun & _).
  - reflexivity.
  - vm_compute.
    apply Permutation_trans with (l' := [0; 1; 2]); [|apply Permutation_refl].
    apply perm_skip. apply perm_swap.
  - rewrite Hrun. vm_compute in Hrun. injection Hrun as <-. reflexivity.
Defined.

(** ** The frequency table of the majority vote *)

Lemma column_position_skip (xs ys : list string) (name : string) :
  ~ In name xs ->
  Pd.column_position (xs ++ ys) name
  = option_map (fun j => List.length xs + j) (Pd.column_position ys name).
Proof.
  induction xs as [|x xs IH]; intros Hn; simpl.
  - destruct (Pd.column_position ys name); reflexivity.
  - destruct (String.eqb x name) eqn:E.
    + apply String.eqb_eq in E. subst x. exfalso. apply Hn. now left.
    + rewrite IH by (intros H; apply Hn; now right).
      destruct (Pd.column_position ys name); reflexivity.
Qed.

Lemma column_position_absent (xs : list string) (name : string) :
  ~ In name xs -> Pd.column_position xs name = None.
Proof.
  intros Hn. rewrite <- (app_nil_r xs), column_position_skip by exact Hn.
  reflexivity.
Qed.

(** The second of two values appended to rows of [k] values each. *)
Lemma appended_column (rows : list (list string)) (cs : list string)
    (k : nat) (f : string -> string) :
  List.length rows = List.length cs ->
  Forall (fun r => List.length r = k) rows ->
  rmap (fun row => Np.item row (k + 1))
       (map (fun lr => fst lr ++ snd lr)
            (combine rows (map (fun c => [c; f c]) cs)))
  = Ok (map f cs).
Proof.
  revert cs. induction rows as [|r rows IH]; intros [|c cs] Hlen Hk;
    simpl in *; try discriminate; [reflexivity|].
  inversion Hk as [|? ? Hr Hk']; subst.
  unfold Np.item at 1.
  rewrite nth_error_app2 by lia.
  replace (List.length r + 1 - List.length r) with 1 by lia. simpl.
  rewrite IH by (auto; lia). reflexivity.
Qed.

Lemma filter_map_count {A} (f : A -> string) (l : string) (cs : list A) :
  List.length (List.filter (String.eqb l) (map f cs))
  = List.length (List.filter (fun c => String.eqb l (f c)) cs).
Proof.
  induction cs as [|c cs IH]; simpl; [reflexivity|].
  destruct (String.eqb l (f c)); simpl; now rewrite IH.
Qed.

Section SummaryOfTheVote.

Context {T : Type} {N : Num T}.

Variable argsort_descending : list nat -> list nat.

Variables (predictions : AnnotationResult T)
          (over_clustering labels : list string) (st : Store T).

Hypothesis Hcol :
  Pd.column (predicted_labels predictions) "predicted_labels" = Ok labels.
Hypothesis Hlen : List.length over_clustering = List.length labels.
Hypothesis Hidx :
  List.length (index (predicted_labels predictions))
  = List.length (values (predicted_labels predictions)).
Hypothesis Hnew :
  disjoint_columns (columns (predicted_labels predictions))
                   ["over_clustering"; "majority_voting"]%string.
Hypothesis Hcells : labels <> [].
Hypothesis Hnd : NoDup (index (predicted_labels predictions)).
Hypothesis Hrect :
  Forall (fun row => List.length row
                     = List.length (columns (predicted_labels predictions)))
         (values (predicted_labels predictions)).
Hypothesis Hsort :
  let voted := map (winner labels over_clustering) over_clustering in
  Permutation (argsort_descending (map snd (unique_counts voted)))
              (seq 0 (List.length (unique_counts voted))).

(** X18.  Before the vote a summary by ['majority_voting'] raises
    [KeyError], the column not being there.  On the result of
    [majority_vote] for at least one cell (without cells the vote raises)
    it returns a table whose cell types are exactly the winners of the
    clusters, each counted with the cells of the clusters it has won, the
    counts adding up to the number of cells. *)
Theorem summary_by_majority_voting :
  summary_frequency argsort_descending predictions "majority_voting"
  = Raise (KeyError "majority_voting")
  /\ exists result rows,
       fst (majority_vote predictions over_clustering st) = Ok result
       /\ summary_frequency argsort_descending result "majority_voting"
          = Ok rows
       /\ NoDup (map (fun r => fst (snd r)) rows)
       /\ (forall l, In l (map (fun r => fst (snd r)) rows)
                     <-> exists c, In c over_clustering
                                   /\ l = winner labels over_clustering c)
       /\ (forall i l n,
             In (i, (l, n)) rows ->
             n = List.length
                   (List.filter
                      (fun c => String.eqb l (winner labels over_clustering c))
                      over_clustering))
       /\ list_sum (map (fun r => snd (snd r)) rows)
          = List.length over_clustering.
Proof.
  assert (Hv := column_length _ _ Hcol).
  assert (Hmv : ~ In "majority_voting"%string
                     (columns (predicted_labels predictions))).
  { intros H. exact (Hnew H (or_intror (or_introl eq_refl))). }
  split.
  - unfold summary_frequency, Pd.column.
    now rewrite (column_position_absent _ _ Hmv).
  - rewrite (@majority_vote_run _ predictions over_clustering labels st
               Hcol Hlen Hidx Hcells).
    rewrite (join_same_index "nan"%string (predicted_labels predictions)
               (majority_frame (index (predicted_labels predictions))
                               labels over_clustering));
      [|exact Hnew|reflexivity|exact Hnd|exact Hidx
       |simpl; rewrite length_map; lia].
    eexists.
    match goal with
    | |- exists rows, fst (Ok ?r, _) = _ /\ _ =>
        assert (Hvoted : Pd.column (predicted_labels r) "majority_voting"
                         = Ok (map (winner labels over_clustering)
                                   over_clustering))
    end.
    { unfold Pd.column. cbn [predicted_labels columns values majority_frame].
      rewrite (column_position_skip _ _ _ Hmv). cbn [Pd.column_position].
      cbn. apply appended_column; [lia|].
      exact Hrect. }
    destruct (summary_frequency_rows argsort_descending _ _ Hvoted Hsort)
      as (rows & Hrun & Hrows).
    destruct (frequency_rows_facts _ Hrows) as (Hnodup & Hin & Hcount & Hsum).
    exists rows. split; [reflexivity|]. split; [exact Hrun|].
    split; [exact Hnodup|]. split; [|split].
    + intros l. rewrite Hin, in_map_iff. split.
      * intros (c & <- & Hc). eauto.
      * intros (c & Hc & ->). eauto.
    + intros i l n Hrow. destruct (Hcount i l n Hrow) as (-> & _).
      apply filter_map_count.
    + rewrite Hsum. apply length_map.
Qed.

End SummaryOfTheVote.

Lemma summary_by_majority_voting_witness :
  summary_frequency stable_argsort_descending Sample.predictions
                    "majority_voting"
  = Raise (KeyError "majority_voting").
Proof.
  refine (proj1 (@summary_by_majority_voting Z stable_argsort_descending
                   Sample.predictions Sample.clusters
                   ["T"; "B"; "B"; "T"; "NK"]%string Sample.straight
                   eq_refl eq_refl eq_refl sample_new_columns
                   sample_has_cells sample_cells_distinct _ _)).
  - repeat constructor.
  - vm_compute. apply Permutation_refl.
Defined.

(** ** The models on disk *)

Lemma filter_none {A} (f : A -> bool) (l : list A) :
  Forall (fun a => f a = false) l -> List.filter f l = [].
Proof.
  induction 1 as [|a l Ha _ IH]; simpl; [reflexivity|]. now rewrite Ha.
Qed.

Section RegistryFacts.

Import Registry.

Lemma substring_whole (s : string) : substring 0 (String.length s) s = s.
Proof. induction s as [|c s IH]; simpl; [reflexivity|now rewrite IH]. Qed.

(** A string that starts with [d] is [d] followed by its remainder. *)
Lemma prefix_split (d p : string) :
  prefix d p = true ->
  p = (d ++ substring (String.length d)
                      (String.length p - String.length d) p)%string.
Proof.
  revert p. induction d as [|a d IH]; intros p H.
  - simpl. rewrite Nat.sub_0_r. now rewrite substring_whole.
  - destruct p as [|b p]; [discriminate|]. simpl in H.
    destruct (ascii_dec a b) as [->|]; [|discriminate].
    simpl. f_equal. now apply IH.
Qed.

Lemma append_assoc (a b c : string) :
  ((a ++ b) ++ c = a ++ b ++ c)%string.
Proof. induction a as [|x a IH]; simpl; [reflexivity|now rewrite IH]. Qed.

Lemma child_name_path (dir path name : string) :
  child_name dir path = Some name ->
  path = (dir ++ "/" ++ name)%string /\ has_slash name = false.
Proof.
  unfold child_name.
  destruct (prefix (dir ++ "/") path) eqn:E; [|discriminate].
  destruct (has_slash _ || String.eqb _ "") eqn:E2; [discriminate|].
  intros H. injection H as <-.
  apply orb_false_iff in E2. destruct E2 as [E2 _].
  split; [|exact E2].
  rewrite <- append_assoc. now apply prefix_split.
Qed.

Lemma basename_plain (name : string) :
  has_slash name = false -> basename name = name.
Proof.
  destruct name as [|c name]; [reflexivity|].
  intros H. unfold basename. now rewrite H.
Qed.

Lemma get_model_path_plain (name : string) :
  has_slash name = false ->
  Download.get_model_path name = (Download.models_path ++ "/" ++ name)%string.
Proof.
  destruct name as [|c name]; [reflexivity|].
  simpl. intros H. apply orb_false_iff in H. destruct H as [H _].
  destruct c as [[] [] [] [] [] [] [] []]; try reflexivity; discriminate H.
Qed.

Lemma lookup_present (p : string) (c : Download.content)
    (fs : list (string * Download.content)) :
  In (p, c) fs -> exists c', Download.lookup p fs = Some c'.
Proof.
  induction fs as [|[q d] fs IH]; intros H; [destruct H|].
  simpl. destruct (String.eqb q p) eqn:E; [eauto|].
  destruct H as [H|H]; [|now apply IH].
  injection H as -> ->. rewrite String.eqb_refl in E. discriminate.
Qed.

(** Every name that [listdir] gives belongs to a file of the directory. *)
Lemma listdir_file (w : Download.World) (name : string) :
  In name (listdir Download.models_path w) ->
  has_slash name = false
  /\ Download.path_exists (Download.get_model_path name) w = true.
Proof.
  unfold listdir. intros H. apply in_flat_map in H.
  destruct H as ([p c] & Hpc & Hn). simpl in Hn.
  destruct (child_name Download.models_path p) as [n|] eqn:E; [|destruct Hn].
  destruct Hn as [<-|[]].
  apply child_name_path in E. destruct E as [-> Hs].
  split; [exact Hs|].
  rewrite (get_model_path_plain _ Hs). unfold Download.path_exists.
  destruct (lookup_present _ _ _ Hpc) as [c' ->]. reflexivity.
Qed.

(** [download_if_required] and [get_all_models] when no model is there. *)
Lemma download_if_required_empty (w : World) :
  pkl_files (base w) = [] ->
  download_if_required w
  = (let (r, b) := Download.download_models false None (base w) in
     (r, {| base := b; notes := notes w ++ [NoAvailableModels] |})).
Proof.
  intros H. unfold download_if_required, bind, get, note, modify, run.
  rewrite H. reflexivity.
Qed.

Lemma download_if_required_present (w : World) :
  pkl_files (base w) <> [] -> download_if_required w = (Ok tt, w).
Proof.
  intros H. unfold download_if_required, bind, get.
  destruct (pkl_files (base w)); [congruence|reflexivity].
Qed.

(** X19.  With no [.pkl] file in the models directory, [get_all_models]
    never returns a list: it goes to [download_models], which raises.
    When the index can be read the exception is the [NameError] of the
    unbound name [model_list], and no model has been asked for: the files
    and the requests are those of reading the index. *)
Theorem get_all_models_without_models (w : World) :
  pkl_files (base w) = [] ->
  exists e,
    fst (get_all_models w) = Raise e
    /\ notes (snd (get_all_models w)) = notes w ++ [NoAvailableModels]
    /\ Download.files (base (snd (get_all_models w)))
       = Download.files (snd (Download.get_models_index false (base w)))
    /\ Download.requested (base (snd (get_all_models w)))
       = Download.requested (snd (Download.get_models_index false (base w)))
    /\ (forall models,
          fst (Download.get_models_index false (base w)) = Ok models ->
          e = NameError "model_list").
Proof.
  intros H.
  assert (E : get_all_models w
              = match Download.get_models_index false (base w) with
                | (Ok _, w1) =>
                    (Raise (NameError "model_list"),
                     {| base :=
                          {| Download.files := Download.files w1;
                             Download.remote := Download.remote w1;
                             Download.requested := Download.requested w1;
                             Download.log :=
                               Download.log w1
                               ++ [StoringModels Download.models_path] |};
                        notes := notes w ++ [NoAvailableModels] |})
                | (Raise e, w1) =>
                    (Raise e,
                     {| base := w1;
                        notes := notes w ++ [NoAvailableModels] |})
                end).
  { unfold get_all_models. unfold bind at 1.
    rewrite (download_if_required_empty _ H), download_models_run.
    destruct (Download.get_models_index false (base w)) as [[models|e] w1];
      reflexivity. }
  rewrite E.
  destruct (Download.get_models_index false (base w)) as [[models|e] w1].
  - exists (NameError "model_list").
    repeat split; reflexivity.
  - exists e. repeat split; try reflexivity.
    intros models Hm. discriminate Hm.
Qed.

(** X20.  With at least one [.pkl] file in the models directory,
    [get_all_models] touches nothing: no request, no file, no log line,
    whatever the index lists.  It returns the [.pkl] names of the
    directory, and each of them is the name of a file there. *)
Theorem get_all_models_lists_the_directory (w : World) :
  pkl_files (base w) <> [] ->
  get_all_models w = (Ok (pkl_files (base w)), w)
  /\ forall name,
       In name (pkl_files (base w)) ->
       endswith name ".pkl" = true
       /\ Download.path_exists (Download.get_model_path name) (base w) = true.
Proof.
  intros H.
  assert (Hfiles : forall name,
            In name (pkl_files (base w)) ->
            endswith name ".pkl" = true
            /\ has_slash name = false
            /\ Download.path_exists (Download.get_model_path name) (base w)
               = true).
  { intros name Hn. unfold pkl_files in Hn. apply filter_In in Hn.
    destruct Hn as [Hl He]. destruct (listdir_file _ _ Hl). auto. }
  split.
  - unfold get_all_models. unfold bind at 1.
    rewrite (download_if_required_present _ H).
    unfold bind, get, ret. f_equal. f_equal.
    rewrite <- (map_id (pkl_files (base w))) at 2.
    apply map_ext_in. intros name Hn.
    apply basename_plain. now apply Hfiles.
  - intros name Hn. destruct (Hfiles name Hn) as (He & _ & Hp). auto.
Qed.

(** [get_default_model] when the index is on disk. *)
Lemma get_default_model_cached (ms : list Download.entry) (w : World) :
  Download.lookup (Download.get_model_path "models.json")
                  (Download.files (base w))
  = Some (Download.Index ms) ->
  get_default_model w
  = match List.filter is_default ms with
    | [] =>
        match ms with
        | [] => (Raise IndexError, w)
        | m :: _ =>
            (Ok (Download.filename m),
             {| base := base w;
                notes := notes w ++ [NoDefaultModel (Download.filename m)] |})
        end
    | d :: ds =>
        (Ok (Download.filename d),
         match ds with
         | [] => w
         | _ :: _ =>
             {| base := base w;
                notes := notes w
                         ++ [SeveralDefaultModels (Download.filename d)] |}
         end)
    end.
Proof.
  intros H. unfold get_default_model. unfold bind at 1. unfold run.
  rewrite (@get_models_index_cached _ _ H). cbn [Download.json_models].
  destruct w as [b ns]. cbn [base notes] in *.
  destruct (List.filter is_default ms) as [|d [|d' ds]]; cbn [map].
  - destruct ms as [|m ms']; reflexivity.
  - reflexivity.
  - reflexivity.
Qed.

(** X21.  With the index on disk, [get_default_model] asks the network
    nothing and changes no file.  On an index without models it raises
    [IndexError]; otherwise it returns the file name of the first model
    that is flagged as default or, when none is flagged, of the first
    model of the index. *)
Theorem get_default_model_takes_first_flagged (ms : list Download.entry)
    (w : World) :
  Download.lookup (Download.get_model_path "models.json")
                  (Download.files (base w))
  = Some (Download.Index ms) ->
  base (snd (get_default_model w)) = base w
  /\ (ms = [] -> fst (get_default_model w) = Raise IndexError)
  /\ (forall m ms', ms = m :: ms' ->
        exists name,
          fst (get_default_model w) = Ok name
          /\ In name (map Download.filename ms)
          /\ (Forall (fun m => is_default m = false) ms ->
              name = Download.filename m)
          /\ (forall before d after,
                ms = before ++ d :: after ->
                Forall (fun m => is_default m = false) before ->
                is_default d = true ->
                name = Download.filename d)).
Proof.
  intros H. rewrite (@get_default_model_cached _ _ H).
  assert (Hnone : Forall (fun m => is_default m = false) ms ->
                  List.filter is_default ms = [])
    by apply filter_none.
  assert (Hfirst : forall before d after,
            ms = before ++ d :: after ->
            Forall (fun m => is_default m = false) before ->
            is_default d = true ->
            exists ds, List.filter is_default ms = d :: ds).
  { intros before d after -> Hb Hd. rewrite filter_app, (@filter_none _ is_default before Hb).
    simpl. rewrite Hd. eauto. }
  split; [|split].
  - destruct (List.filter is_default ms) as [|d [|d' ds]];
      [destruct ms| |]; reflexivity.
  - intros ->. reflexivity.
  - intros m ms' ->.
    destruct (List.filter is_default (m :: ms')) as [|d ds] eqn:E.
    + exists (Download.filename m). split; [reflexivity|].
      split; [now left|]. split; [reflexivity|].
      intros before d after Hms Hb Hd.
      destruct (Hfirst _ _ _ Hms Hb Hd) as [ds Hds]. congruence.
    + exists (Download.filename d). split; [reflexivity|].
      assert (Hd : In d (m :: ms') /\ is_default d = true).
      { apply filter_In. rewrite E. now left. }
      split; [apply in_map; tauto|]. split.
      * intros Hall. rewrite Forall_forall in Hall.
        destruct Hd as [Hin Ht]. rewrite (Hall _ Hin) in Ht.
        discriminate Ht.
      * intros before d0 after Hms Hb Hd0.
        destruct (Hfirst _ _ _ Hms Hb Hd0) as [ds0 Hds]. congruence.
Qed.

End RegistryFacts.

Lemma get_all_models_without_models_witness :
  exists e,
    fst (Registry.get_all_models
           {| Registry.base := Sample.world; Registry.notes := [] |})
    = Raise e.
Proof.
  destruct (@get_all_models_without_models
              {| Registry.base := Sample.world; Registry.notes := [] |}
              eq_refl)
    as (e & He & _).
  exists e. exact He.
Defined.

Lemma get_all_models_lists_the_directory_witness :
  Registry.get_all_models
    {| Registry.base :=
         {| Download.files :=
              [(Download.get_model_path "A.pkl", Download.Bytes "model");
               (Download.get_model_path "notes.txt", Download.Bytes "text")];
            Download.remote := fun u => Raise (ConnectionError u);
            Download.requested := [];
            Download.log := [] |};
       Registry.notes := [] |}
  = (Ok ["A.pkl"%string],
     {| Registry.base :=
          {| Download.files :=
               [(Download.get_model_path "A.pkl", Download.Bytes "model");
                (Download.get_model_path "notes.txt", Download.Bytes "text")];
             Download.remote := fun u => Raise (ConnectionError u);
             Download.requested := [];
             Download.log := [] |};
        Registry.notes := [] |}).
Proof.
  refine (proj1 (@get_all_models_lists_the_directory _ _)).
  vm_compute. discriminate.
Defined.

Lemma get_default_model_takes_first_flagged_witness :
  Registry.base
    (snd (Registry.get_default_model
            {| Registry.base := Sample.world; Registry.notes := [] |}))
  = Sample.world.
Proof.
  exact (proj1 (@get_default_model_takes_first_flagged Sample.two_models
                  {| Registry.base := Sample.world; Registry.notes := [] |}
                  eq_refl)).
Defined.

(** ** The shape of a prediction *)

(** X22.  Whatever the mode and the carrier, a call that returns has been
    given at least one cell with at least one value, and gives one row of
    scores, one row of probabilities and one label per cell, a
    probability for every score. *)
Theorem prediction_has_one_row_per_cell {T} {N : Num T} (m : Model T)
    (x : matrix T) (mode : string) (p_thres : T) (scores probs : matrix T)
    (labs : list string) :
  predict_labels_and_prob m x mode p_thres = Ok (scores, probs, labs) ->
  x <> [] /\ hd [] x <> []
  /\ List.length scores = List.length x
  /\ List.length probs = List.length x
  /\ List.length labs = List.length x
  /\ Forall2 (fun s q => List.length q = List.length s) scores probs.
Proof.
  intros H. apply predict_returns_inv in H.
  destruct H as (Hd & -> & Hl).
  unfold decision_function in Hd.
  destruct (check_array x) as [u|e] eqn:Ec; [|discriminate].
  cbv beta iota delta [rbind] in Hd.
  destruct (rmap (fun x0 => rmap (dot x0) (coef_ (classifier m))) x)
    as [prods|e] eqn:Ep; [|discriminate].
  unfold Np.broadcast in Hd.
  assert (Hs : List.length scores = List.length x).
  { rewrite (rmap_length _ _ Hd). apply (rmap_length _ _ Ep). }
  split; [|split].
  - intros ->. discriminate Ec.
  - destruct x as [|[|v r] x']; simpl; try discriminate.
  - rewrite length_map, Hl, Hs. repeat split; try reflexivity.
    clear. induction scores as [|s scores IH]; simpl; constructor;
      [now rewrite length_map|exact IH].
Qed.

Lemma prediction_has_one_row_per_cell_witness :
  exists scores probs labs,
    predict_labels_and_prob Sample.toy_model [[2; 0]]%Z "best match" 500%Z
    = Ok (scores, probs, labs)
    /\ List.length labs = 1.
Proof.
  destruct (@best_match_returns Z ZNum Sample.toy_model [[2; 0]]%Z 500%Z
              (sample_scorable [2; 0]%Z eq_refl) sample_several_rows)
    as [labs Hrun].
  eexists _, _, labs. split; [exact Hrun|].
  exact (proj1 (proj2 (proj2 (proj2 (proj2
           (prediction_has_one_row_per_cell _ _ _ _ Hrun)))))).
Defined.

(** ** Repeated cell names *)

Lemma count_in_keys {A} (k : string) (keys : list string) (vs : list A) :
  List.length keys = List.length vs ->
  List.length (List.filter (fun kw => String.eqb (fst kw) k) (combine keys vs))
  = List.length (List.filter (fun x => String.eqb x k) keys).
Proof.
  revert vs. induction keys as [|x keys IH]; intros [|v vs] H; simpl in *;
    try discriminate; [reflexivity|].
  destruct (String.eqb x k); simpl; rewrite IH by lia; reflexivity.
Qed.

(** The number of rows of a joined frame: every row of the left side
    counts once for every row of the right side with its label, and once
    when there is none. *)
Lemma join_row_count {V} (na : V) (left right joined : DataFrame V) :
  Pd.join na left right = Ok joined ->
  List.length (values joined)
  = list_sum
      (map (fun kv =>
              Nat.max 1
                (List.length
                   (List.filter (fun kw => String.eqb (fst kw) (fst kv))
                                (combine (index right) (values right)))))
           (combine (index left) (values left))).
Proof.
  unfold Pd.join.
  destruct (existsb _ (columns left)); [discriminate|].
  intros H. injection H as <-. cbn [values].
  rewrite length_map, length_flat_map. f_equal.
  apply map_ext. intros kv.
  destruct (List.filter _ _) as [|kw ms]; [reflexivity|].
  simpl. now rewrite length_map.
Qed.

Lemma repeated_member (l : list string) :
  ~ NoDup l ->
  exists k, In k l
            /\ 2 <= List.length (List.filter (fun x => String.eqb x k) l).
Proof.
  induction l as [|x l IH]; intros Hn.
  - exfalso. apply Hn. constructor.
  - destruct (in_dec string_dec x l) as [Hin|Hout].
    + exists x. split; [now left|].
      simpl. rewrite String.eqb_refl. simpl.
      assert (1 <= List.length (List.filter (fun y => String.eqb y x) l));
        [|lia].
      clear - Hin. induction l as [|y l IH]; [destruct Hin|].
      simpl. destruct (String.eqb y x) eqn:E; simpl; [lia|].
      apply IH. destruct Hin as [->|Hin]; [|exact Hin].
      rewrite String.eqb_refl in E. discriminate.
    + destruct IH as (k & Hk & Hc).
      { intros Hnd. apply Hn. now constructor. }
      exists k. split; [now right|].
      simpl. destruct (String.eqb x k); simpl; lia.
Qed.

Lemma sum_above_length {A} (f : A -> nat) (l : list A) :
  (forall a, In a l -> 1 <= f a) ->
  List.length l <= list_sum (map f l)
  /\ ((exists a, In a l /\ 2 <= f a) -> List.length l < list_sum (map f l)).
Proof.
  induction l as [|x l IH]; intros H; simpl.
  - split; [lia|]. intros (a & [] & _).
  - destruct IH as [IH1 IH2]; [intros a Ha; apply H; now right|].
    assert (Hx := H x (or_introl eq_refl)).
    split; [lia|].
    intros (a & [->|Ha] & H2); [lia|].
    assert (List.length l < list_sum (map f l)) by (apply IH2; eauto).
    lia.
Qed.

Lemma sum_of_ones {A} (f : A -> nat) (l : list A) :
  (forall a, In a l -> f a = 1) -> list_sum (map f l) = List.length l.
Proof.
  induction l as [|x l IH]; intros H; simpl; [reflexivity|].
  rewrite (H x (or_introl eq_refl)), IH by (intros a Ha; apply H; now right).
  reflexivity.
Qed.

Lemma count_one (k : string) (l : list string) :
  NoDup l -> In k l ->
  List.length (List.filter (fun x => String.eqb x k) l) = 1.
Proof.
  induction 1 as [|x l Hx Hnd IH]; intros Hin; [destruct Hin|].
  simpl. destruct (String.eqb x k) eqn:E.
  - apply String.eqb_eq in E. subst x. simpl. f_equal.
    clear - Hx. induction l as [|y l IH]; [reflexivity|].
    simpl. destruct (String.eqb y k) eqn:E.
    + apply String.eqb_eq in E. subst y. exfalso. apply Hx. now left.
    + apply IH. intros H. apply Hx. now right.
  - apply IH. destruct Hin as [->|Hin]; [|exact Hin].
    rewrite String.eqb_refl in E. discriminate.
Qed.

Section RepeatedCellNames.

Context {T : Type} {N : Num T}.

Variables (predictions : AnnotationResult T)
          (over_clustering labels : list string) (st : Store T).

Hypothesis Hcol :
  Pd.column (predicted_labels predictions) "predicted_labels" = Ok labels.
Hypothesis Hlen : List.length over_clustering = List.length labels.
Hypothesis Hidx :
  List.length (index (predicted_labels predictions))
  = List.length (values (predicted_labels predictions)).
Hypothesis Hnew :
  disjoint_columns (columns (predicted_labels predictions))
                   ["over_clustering"; "majority_voting"]%string.
Hypothesis Hcells : labels <> [].

(** X23.  [majority_vote] joins on the cell names, so a name that several
    cells share multiplies rows: for at least one cell (without cells the
    vote raises) the call returns, and the label frame of the result has,
    for every cell, as many rows as there are cells of its name.  With
    distinct names that is one row per cell; with a repeated name the
    frame has more rows than there are cells, while [cell_count] still
    is the old count. *)
Theorem majority_vote_multiplies_repeated_cells :
  exists result,
    fst (majority_vote predictions over_clustering st) = Ok result
    /\ cell_count result = cell_count predictions
    /\ List.length (values (predicted_labels result))
       = list_sum
           (map (fun name =>
                   List.length
                     (List.filter (fun x => String.eqb x name)
                                  (index (predicted_labels predictions))))
                (index (predicted_labels predictions)))
    /\ (NoDup (index (predicted_labels predictions)) ->
        List.length (values (predicted_labels result))
        = List.length (values (predicted_labels predictions)))
    /\ (~ NoDup (index (predicted_labels predictions)) ->
        List.length (values (predicted_labels predictions))
        < List.length (values (predicted_labels result))).
Proof.
  assert (Hv := column_length _ _ Hcol).
  rewrite (@majority_vote_run _ predictions over_clustering labels st
             Hcol Hlen Hidx Hcells).
  set (idx := index (predicted_labels predictions)) in *.
  destruct (Pd.join "nan"%string (predicted_labels predictions)
              (majority_frame idx labels over_clustering))
    as [joined|e] eqn:Hj.
  2:{ exfalso. unfold Pd.join in Hj.
      destruct (existsb _ (columns (predicted_labels predictions))) eqn:E;
        [|discriminate Hj].
      apply existsb_exists in E. destruct E as (c & Hc & E).
      apply existsb_exists in E. destruct E as (c' & Hc' & E).
      apply String.eqb_eq in E. subst c'. exact (Hnew Hc Hc'). }
  assert (Hrows := join_row_count _ _ _ Hj).
  cbn [index values majority_frame] in Hrows.
  assert (Hcount : List.length (values joined)
                   = list_sum (map (fun name =>
                                      List.length
                                        (List.filter
                                           (fun x => String.eqb x name) idx))
                                   idx)).
  { rewrite Hrows.
    assert (Hfst := map_fst_combine_eq idx
                      (values (predicted_labels predictions)) Hidx).
    transitivity
      (list_sum
         (map (fun name =>
                 List.length (List.filter (fun x => String.eqb x name) idx))
              (map fst (combine idx (values (predicted_labels predictions))))));
      [|now rewrite Hfst].
    rewrite map_map. f_equal. apply map_ext_in. intros [k row] Hk.
    cbn [fst]. rewrite count_in_keys by (rewrite length_map; lia).
    apply in_combine_l in Hk.
    assert (1 <= List.length (List.filter (fun x => String.eqb x k) idx));
      [|lia].
    clear - Hk. induction idx as [|y l IH]; [destruct Hk|].
    simpl. destruct (String.eqb y k) eqn:E; simpl; [lia|].
    apply IH. destruct Hk as [->|Hk]; [|exact Hk].
    rewrite String.eqb_refl in E. discriminate. }
  eexists. split; [reflexivity|]. cbn [cell_count predicted_labels].
  split; [reflexivity|]. split; [exact Hcount|].
  assert (Hone : forall k, In k idx ->
                   1 <= List.length (List.filter (fun x => String.eqb x k) idx)).
  { intros k Hk. clear - Hk. induction idx as [|y l IH]; [destruct Hk|].
    simpl. destruct (String.eqb y k) eqn:E; simpl; [lia|].
    apply IH. destruct Hk as [->|Hk]; [|exact Hk].
    rewrite String.eqb_refl in E. discriminate. }
  split.
  - intros Hnd. rewrite Hcount, <- Hidx.
    apply sum_of_ones. intros k Hk. now apply count_one.
  - intros Hdup. rewrite Hcount, <- Hidx.
    apply (sum_above_length _ idx Hone).
    now apply repeated_member.
Qed.

End RepeatedCellNames.

Lemma majority_vote_multiplies_repeated_cells_witness :
  exists result,
    fst (majority_vote Sample.predictions Sample.clusters Sample.straight)
    = Ok result
    /\ List.length (values (predicted_labels result)) = 5.
Proof.
  destruct (@majority_vote_multiplies_repeated_cells Z Sample.predictions
              Sample.clusters ["T"; "B"; "B"; "T"; "NK"]%string
              Sample.straight eq_refl eq_refl eq_refl sample_new_columns
              sample_has_cells)
    as (result & Hrun & _ & _ & Hnd & _).
  exists result. split; [exact Hrun|].
  rewrite (Hnd sample_cells_distinct). reflexivity.
Defined.

(** ** What the scorer is given *)

(** X24.  After [celltype] on a well-formed input the data and the model
    fit each other: with [k] the number of input columns whose gene the
    model knows (a repeated column counts each time), the run has logged
    the four lines up to 'Predicting labels' with [k] as the number of
    features used, every cell is still there with exactly [k] values, and
    the model has [k] features, [k] weights per class and the feature
    count [k]. *)
Theorem alignment_fits_data_to_model {T} {N : Num T} (s : Store T) :
  well_formed s ->
  let s' := snd (celltype s) in
  let k := List.length (used_genes s) in
  log s' = log s ++ [MatchingGenes; FeaturesUsed k; ScalingInput;
                     PredictingLabels]
  /\ List.length (indata (self s')) = List.length (indata (self s))
  /\ Forall (fun row => List.length row = k) (indata (self s'))
  /\ List.length (features (classifier (model s'))) = k
  /\ n_features_in_ (classifier (model s')) = k
  /\ Forall (fun w => List.length w = k) (coef_ (classifier (model s')))
  /\ List.length (coef_ (classifier (model s')))
     = List.length (coef_ (classifier (model s)))
  /\ intercept_ (classifier (model s')) = intercept_ (classifier (model s))
  /\ classes_ (classifier (model s')) = classes_ (classifier (model s)).
Proof.
  intros H. cbn zeta.
  destruct (celltype_aligns_in_input_order_facts H)
    as (Hg & Hin & Hf & Hn & Hc & Hx).
  assert (Hst := celltype_store H).
  split.
  - rewrite Hst. unfold logged, aligned. cbn [log].
    rewrite <- app_assoc. reflexivity.
  - rewrite Hx, Hf, Hn, Hc, !length_map.
    split; [reflexivity|]. split.
    + apply Forall_forall. intros row Hrow.
      apply in_map_iff in Hrow. destruct Hrow as (row0 & <- & Hrow0).
      destruct H as (_ & _ & _ & _ & Hrows).
      rewrite Forall_forall in Hrows. specialize (Hrows _ Hrow0).
      rewrite length_map.
      rewrite <- (length_map fst), (used_columns_genes _ _ _ Hrows).
      reflexivity.
    + split; [reflexivity|]. split; [reflexivity|]. split.
      * apply Forall_forall. intros w Hw.
        apply in_map_iff in Hw. destruct Hw as (w0 & <- & _).
        now rewrite length_map.
      * split; [reflexivity|].
        rewrite Hst. unfold logged, aligned. cbn [model classifier].
        split; reflexivity.
Qed.

Lemma alignment_fits_data_to_model_witness :
  log (snd (celltype Sample.swapped))
  = [MatchingGenes; FeaturesUsed 2; ScalingInput; PredictingLabels].
Proof.
  exact (proj1 (@alignment_fits_data_to_model Z ZNum Sample.swapped
                  sample_swapped_well_formed)).
Defined.
